(** * react-native-sqlite-dao-service: shallow embedding and verified properties

    The development follows the TypeScript sources under [src/database]:
    [SQLiteDAO.ts] (connection handle and declarative SQL builders),
    [DatabaseFactory.ts] (opening existing database files),
    [DatabaseManager.ts] (role based connection manager),
    [BaseService.ts] (table service) and [ServiceManager.ts] (service
    registry).

    Asynchronous methods are embedded in a reader/state/error monad
    [Async]: the reader part is the behaviour of the native collaborators
    (SQLite engine, file system), the state part is the JavaScript heap
    together with the static fields of the managers, and a rejected promise
    is the error result.

    Conventions of the embedding:
    - every call runs to completion before the next one starts, and the
      tasks of a [Promise.all] are taken in array order (one schedule of the
      single threaded event loop);
    - [Map]s and the objects used as dictionaries (the connection object,
      the role registry, the schema registry) are finite maps of what was
      stored in them.  A read of a plain object also finds, under the names
      of [JS.objectPrototypeKeys], the members it inherits from
      [Object.prototype]: the read of [DatabaseManager.get] is modelled with
      them ([Manager.connectionAt]), the other reads are those of the
      stored properties, which is what they give for every other name;
    - instances of [SQLiteDAO] and [BaseService] live in heaps and are
      passed around by reference, so that a DAO shared by the connection map
      and by a service is one object;
    - event listeners, error handlers and console output are left out: the
      sources swallow whatever a handler throws, and handlers are taken not
      to call back into the managers;
    - numbers in LIMIT/OFFSET are integers, and case conversion is that of
      ASCII text. *)

From Stdlib Require Import ZArith Ascii String.
From stdpp Require Import base strings list gmap pretty.

Local Open Scope string_scope.
Local Open Scope list_scope.

(** ** JavaScript primitives used by the sources *)
Module JS.

(** Values that travel through [any]-typed fields.  An object is kept as the
    text [JSON.stringify] yields for it, which is the only thing the DAO ever
    asks of an object value. *)
Inductive JsValue : Type :=
| VUndefined
| VNull
| VBool (b : bool)
| VNum (z : Z)
| VStr (s : string)
| VObj (json : string).

#[global] Instance JsValue_eq_dec : EqDecision JsValue.
Proof. solve_decision. Defined.

(** [v !== undefined] *)
Definition is_defined (v : JsValue) : bool :=
  match v with VUndefined => false | _ => true end.

(** [v !== undefined && v !== null] *)
Definition is_present (v : JsValue) : bool :=
  match v with VUndefined | VNull => false | _ => true end.

(** [typeof v === 'object' ? JSON.stringify(v) : v]; [typeof null] is
    ['object'] and [JSON.stringify(null)] is the text [null]. *)
Definition stringify_if_object (v : JsValue) : JsValue :=
  match v with
  | VNull => VStr "null"
  | VObj json => VStr json
  | _ => v
  end.

(** Truthiness of an optional number: [undefined] and [0] are falsy. *)
Definition truthy_num (n : option Z) : bool :=
  match n with
  | Some z => negb (z =? 0)%Z
  | None => false
  end.

(** Template interpolation of an integer valued number, below [10^21] in
    absolute value (from there on JavaScript prints an exponent). *)
Definition num_to_string (z : Z) : string := pretty z.

Definition upper_ascii (c : ascii) : ascii :=
  let n := nat_of_ascii c in
  if (97 <=? n)%nat && (n <=? 122)%nat then ascii_of_nat (n - 32) else c.

Definition lower_ascii (c : ascii) : ascii :=
  let n := nat_of_ascii c in
  if (65 <=? n)%nat && (n <=? 90)%nat then ascii_of_nat (n + 32) else c.

Fixpoint map_chars (f : ascii -> ascii) (s : string) : string :=
  match s with
  | EmptyString => EmptyString
  | String c r => String (f c) (map_chars f r)
  end.

(** [String.prototype.toUpperCase] and [toLowerCase] on ASCII text: outside
    ASCII the JavaScript functions also change letters that these leave
    alone, some of them into ASCII letters. *)
Definition toUpperCase (s : string) : string := map_chars upper_ascii s.
Definition toLowerCase (s : string) : string := map_chars lower_ascii s.

(** Text made of ASCII characters only. *)
Fixpoint isAscii (s : string) : bool :=
  match s with
  | EmptyString => true
  | String c r => (nat_of_ascii c <? 128)%nat && isAscii r
  end.

(** [s.split(sep)] for a one character separator: the empty string splits
    into one empty token, adjacent separators give empty tokens. *)
Fixpoint split (sep : ascii) (s : string) : list string :=
  match s with
  | EmptyString => [EmptyString]
  | String c r =>
      if Ascii.eqb c sep then EmptyString :: split sep r
      else match split sep r with
           | tok :: toks => String c tok :: toks
           | [] => [String c EmptyString]
           end
  end.

(** [arr.join(sep)] *)
Fixpoint join (sep : string) (l : list string) : string :=
  match l with
  | [] => EmptyString
  | [x] => x
  | x :: r => x +:+ sep +:+ join sep r
  end.

Definition is_space (c : ascii) : bool :=
  let n := nat_of_ascii c in
  (n =? 32)%nat || ((9 <=? n)%nat && (n <=? 13)%nat).

Fixpoint trimStart (s : string) : string :=
  match s with
  | String c r => if is_space c then trimStart r else s
  | EmptyString => EmptyString
  end.

Fixpoint trimEnd (s : string) : string :=
  match s with
  | EmptyString => EmptyString
  | String c r =>
      match trimEnd r with
      | EmptyString => if is_space c then EmptyString else String c EmptyString
      | r' => String c r'
      end
  end.

(** [s.trim()] on ASCII text: the white space it strips is the tab, the line
    terminators of ASCII and the space (JavaScript also strips the white
    space and line terminators outside ASCII). *)
Definition trim (s : string) : string := trimEnd (trimStart s).

(** [arr.includes(x)] on an array of strings. *)
Definition includes (l : list string) (x : string) : bool :=
  bool_decide (x ∈ l).

(** [arr.indexOf(x)]: [None] stands for [-1]. *)
Fixpoint indexOf (l : list string) (x : string) : option nat :=
  match l with
  | [] => None
  | y :: r => if String.eqb y x then Some 0%nat else S <$> indexOf r x
  end.

(** [s.endsWith(suffix)] *)
Fixpoint endsWith (s suffix : string) : bool :=
  String.eqb s suffix ||
  match s with
  | EmptyString => false
  | String _ r => endsWith r suffix
  end.

(** The members every plain object inherits from [Object.prototype]:
    [record[key]] finds them although they are not properties of the
    record. *)
Definition objectPrototypeKeys : list string :=
  ["constructor"; "__proto__"; "hasOwnProperty"; "isPrototypeOf";
   "propertyIsEnumerable"; "toLocaleString"; "toString"; "valueOf";
   "__defineGetter__"; "__defineSetter__"; "__lookupGetter__";
   "__lookupSetter__"].

(** Insertion into a JavaScript [Set] of strings, kept in insertion order. *)
Definition set_add (x : string) (s : list string) : list string :=
  if bool_decide (x ∈ s) then s else s ++ [x].

End JS.
Export JS.

(** ** Declarative descriptors ([SQLiteDAO.ts], interfaces) *)

Record Column := mkColumn {
  col_name : string;
  col_value : JsValue;          (* [value?: any] *)
}.

Record WhereClause := mkWhere {
  where_name : string;
  where_value : JsValue;
  where_operator : option string;
}.

Inductive Direction := ASC | DESC.

Record OrderByClause := mkOrderBy {
  ob_name : string;
  ob_direction : option Direction;
}.

Record LimitOffset := mkLimitOffset {
  limit : option Z;
  offset : option Z;
}.

Record QueryTable := mkQueryTable {
  qt_name : string;
  cols : list Column;
  wheres : option (list WhereClause);
  orderbys : option (list OrderByClause);
  limitOffset : option LimitOffset;
}.

Record ColumnDefinition := mkColumnDefinition {
  cd_name : string;
  cd_type : string;
  option_key : option string;
  nullable : option bool;
  cd_default : option JsValue;     (* [default?: any] *)
  primary_key : option bool;
  auto_increment : option bool;
  unique : option bool;
  constraints : option string;
}.

(** A statement handed to the engine: SQL text and positional parameters. *)
Definition Statement : Type := string * list JsValue.

Record Error := mkError { message : string }.

#[global] Instance Error_eq_dec : EqDecision Error.
Proof. solve_decision. Defined.

Definition direction_text (d : Direction) : string :=
  match d with ASC => "ASC" | DESC => "DESC" end.

(** ** Pure part of [SQLiteDAO]: type mapping, constraint scanner, builders *)
Module DAOPure.

(** [getDefaultSQLiteType] *)
Definition defaultMapping : list (string * string) :=
  [ ("string", "TEXT"); ("varchar", "TEXT"); ("char", "TEXT");
    ("email", "TEXT"); ("url", "TEXT"); ("uuid", "TEXT");
    ("integer", "INTEGER"); ("bigint", "INTEGER"); ("smallint", "INTEGER");
    ("tinyint", "INTEGER"); ("decimal", "REAL"); ("numeric", "REAL");
    ("float", "REAL"); ("double", "REAL"); ("boolean", "INTEGER");
    ("timestamp", "TEXT"); ("datetime", "TEXT"); ("date", "TEXT");
    ("time", "TEXT"); ("json", "TEXT"); ("array", "TEXT");
    ("blob", "BLOB"); ("binary", "BLOB") ].

Fixpoint assoc (k : string) (l : list (string * string)) : option string :=
  match l with
  | [] => None
  | (k', v) :: r => if String.eqb k' k then Some v else assoc k r
  end.

(** A looked-up string is falsy when absent or empty. *)
Definition or_default (o : option string) (d : string) : string :=
  match o with
  | Some EmptyString | None => d
  | Some s => s
  end.

Definition getDefaultSQLiteType (genericType : string) : string :=
  or_default (assoc (toLowerCase genericType) defaultMapping) "TEXT".

(** [typeMappingConfig] is [null] or a table per target engine. *)
Definition TypeMapping : Type := list (string * list (string * string)).

Fixpoint engine_mapping (k : string) (m : TypeMapping)
  : option (list (string * string)) :=
  match m with
  | [] => None
  | (k', v) :: r => if String.eqb k' k then Some v else engine_mapping k r
  end.

Definition convertToSQLiteType (cfg : option TypeMapping) (genericType : string)
  : string :=
  match cfg with
  | None => getDefaultSQLiteType genericType
  | Some m =>
      match engine_mapping "sqlite" m with
      | None => getDefaultSQLiteType genericType
      | Some sqliteMapping =>
          or_default (assoc (toLowerCase genericType) sqliteMapping) "TEXT"
      end
  end.

Definition truthy_flag (o : option bool) : bool :=
  match o with Some true => true | _ => false end.

Definition set_primary_key (c : ColumnDefinition) : ColumnDefinition :=
  mkColumnDefinition (cd_name c) (cd_type c) (option_key c) (nullable c)
    (cd_default c) (Some true) (auto_increment c) (unique c) (constraints c).
Definition set_auto_increment (c : ColumnDefinition) : ColumnDefinition :=
  mkColumnDefinition (cd_name c) (cd_type c) (option_key c) (nullable c)
    (cd_default c) (primary_key c) (Some true) (unique c) (constraints c).
Definition set_not_nullable (c : ColumnDefinition) : ColumnDefinition :=
  mkColumnDefinition (cd_name c) (cd_type c) (option_key c) (Some false)
    (cd_default c) (primary_key c) (auto_increment c) (unique c) (constraints c).
Definition set_unique (c : ColumnDefinition) : ColumnDefinition :=
  mkColumnDefinition (cd_name c) (cd_type c) (option_key c) (nullable c)
    (cd_default c) (primary_key c) (auto_increment c) (Some true) (constraints c).
Definition set_default (v : string) (c : ColumnDefinition) : ColumnDefinition :=
  mkColumnDefinition (cd_name c) (cd_type c) (option_key c) (nullable c)
    (Some (VStr v)) (primary_key c) (auto_increment c) (unique c) (constraints c).
Definition set_type (t : string) (c : ColumnDefinition) : ColumnDefinition :=
  mkColumnDefinition (cd_name c) t (option_key c) (nullable c)
    (cd_default c) (primary_key c) (auto_increment c) (unique c) (constraints c).
Definition set_option_key (k : string) (c : ColumnDefinition) : ColumnDefinition :=
  mkColumnDefinition (cd_name c) (cd_type c) (Some k) (nullable c)
    (cd_default c) (primary_key c) (auto_increment c) (unique c) (constraints c).

(** The five [if] blocks of [processColumnDefinition], each acting on the
    pair of the column being processed and the [options] array. *)
Definition ScanState : Type := ColumnDefinition * list string.

Definition scan_primary (toks : list string) (st : ScanState) : ScanState :=
  if includes toks "PRIMARY"
  then (set_primary_key st.1, st.2 ++ ["PRIMARY KEY"])
  else st.

Definition scan_autoincrement (toks : list string) (st : ScanState) : ScanState :=
  if includes toks "AUTO_INCREMENT" || includes toks "AUTOINCREMENT"
  then (set_auto_increment st.1,
        if truthy_flag (primary_key st.1) then st.2 ++ ["AUTOINCREMENT"] else st.2)
  else st.

Definition scan_not_null (toks : list string) (st : ScanState) : ScanState :=
  if includes toks "NOT" && includes toks "NULL"
  then (set_not_nullable st.1, st.2 ++ ["NOT NULL"])
  else st.

Definition scan_unique (toks : list string) (st : ScanState) : ScanState :=
  if includes toks "UNIQUE"
  then (set_unique st.1,
        if negb (truthy_flag (primary_key st.1)) then st.2 ++ ["UNIQUE"] else st.2)
  else st.

Definition scan_default (toks : list string) (st : ScanState) : ScanState :=
  match indexOf toks "DEFAULT" with
  | Some defaultIndex =>
      match toks !! (defaultIndex + 1)%nat with
      | Some defaultValue =>
          (set_default defaultValue st.1, st.2 ++ ["DEFAULT " +:+ defaultValue])
      | None => st
      end
  | None => st
  end.

(** The body guarded by [if (col.constraints)]: an absent or empty
    constraint string leaves the column and the options untouched. *)
Definition scanConstraints (col : ColumnDefinition) : ScanState :=
  match constraints col with
  | None | Some EmptyString => (col, [])
  | Some raw =>
      let toks := split " " (toUpperCase raw) in
      scan_default toks
        (scan_unique toks
          (scan_not_null toks
            (scan_autoincrement toks
              (scan_primary toks (col, [])))))
  end.

(** The [options] array at the end of [processColumnDefinition]. *)
Definition constraintOptions (col : ColumnDefinition) : list string :=
  (scanConstraints col).2.

Definition processColumnDefinition (cfg : option TypeMapping)
    (col : ColumnDefinition) : ColumnDefinition :=
  let st := scanConstraints (set_type (convertToSQLiteType cfg (cd_type col)) col) in
  set_option_key (trim (join " " st.2)) st.1.

(** [buildWhereClause(wheres, clause = 'WHERE')] *)
Definition buildWhereClause (ws : option (list WhereClause)) (clause : string)
  : Statement :=
  match ws with
  | None | Some [] => (EmptyString, [])
  | Some l =>
      let conditions := map (fun w => where_name w +:+ " = ?") l in
      let params := map where_value l in
      (" " +:+ clause +:+ " " +:+ join " AND " conditions, params)
  end.

Definition order_text (o : OrderByClause) : string :=
  ob_name o +:+ " " +:+
  match ob_direction o with Some d => direction_text d | None => "ASC" end.

(** [buildSelectQuery(selectTable, suffix = '')] *)
Definition buildSelectQuery (selectTable : QueryTable) (suffix : string)
  : Statement :=
  let columns :=
    match cols selectTable with
    | [] => "*"
    | cs => join ", " (map col_name cs)
    end in
  let sql := "SELECT " +:+ columns +:+ " FROM " +:+ qt_name selectTable in
  let whereClause := buildWhereClause (wheres selectTable) "WHERE" in
  let sql := sql +:+ whereClause.1 in
  let sql :=
    match orderbys selectTable with
    | Some (o :: os) =>
        sql +:+ " ORDER BY " +:+ join ", " (map order_text (o :: os))
    | _ => sql
    end in
  let sql :=
    match limitOffset selectTable with
    | Some lo =>
        let sql :=
          if truthy_num (limit lo)
          then sql +:+ " LIMIT " +:+ num_to_string (default 0%Z (limit lo))
          else sql in
        if truthy_num (offset lo)
        then sql +:+ " OFFSET " +:+ num_to_string (default 0%Z (offset lo))
        else sql
    | None => sql
    end in
  (sql +:+ suffix, whereClause.2).

(** [wheres?.some(w => w.name === name)] *)
Definition in_wheres (ws : option (list WhereClause)) (name : string) : bool :=
  match ws with
  | Some l => existsb (fun w => String.eqb (where_name w) name) l
  | None => false
  end.

(** The statement [insert] hands to [runSql], or the error it throws. *)
Definition insertStatement (insertTable : QueryTable) : Error + Statement :=
  let validCols := List.filter (fun c => is_present (col_value c)) (cols insertTable) in
  match validCols with
  | [] => inl (mkError "No valid columns to insert")
  | _ =>
      let columnNames := join ", " (map col_name validCols) in
      let placeholders := join ", " (map (fun _ => "?") validCols) in
      let params := map (fun c => stringify_if_object (col_value c)) validCols in
      inr ("INSERT INTO " +:+ qt_name insertTable +:+ " (" +:+ columnNames
             +:+ ") VALUES (" +:+ placeholders +:+ ")", params)
  end.

(** The statement [update] hands to [runSql], or the error it throws. *)
Definition updateStatement (updateTable : QueryTable) : Error + Statement :=
  let setCols :=
    List.filter (fun c => is_defined (col_value c)
                     && negb (in_wheres (wheres updateTable) (col_name c)))
           (cols updateTable) in
  match setCols with
  | [] => inl (mkError "No columns to update")
  | _ =>
      let setClause := join ", " (map (fun c => col_name c +:+ " = ?") setCols) in
      let params := map (fun c => stringify_if_object (col_value c)) setCols in
      let sql := "UPDATE " +:+ qt_name updateTable +:+ " SET " +:+ setClause in
      let whereClause := buildWhereClause (wheres updateTable) "WHERE" in
      match whereClause.1 with
      | EmptyString =>
          inl (mkError "WHERE clause is required for UPDATE operation")
      | wsql => inr (sql +:+ wsql, params ++ whereClause.2)
      end
  end.

(** The statement [delete] hands to [runSql], or the error it throws. *)
Definition deleteStatement (deleteTable : QueryTable) : Error + Statement :=
  let sql := "DELETE FROM " +:+ qt_name deleteTable in
  let whereClause := buildWhereClause (wheres deleteTable) "WHERE" in
  match whereClause.1 with
  | EmptyString => inl (mkError "WHERE clause is required for DELETE operation")
  | wsql => inr (sql +:+ wsql, whereClause.2)
  end.

(** [convertJsonToQueryTable(tableName, json, idFields = ['id'])]; the record
    is given by its entries in [Object.entries] order. *)
Definition convertJsonToQueryTable (tableName : string)
    (json : list (string * JsValue)) (idFields : list string) : QueryTable :=
  mkQueryTable tableName
    (map (fun kv => mkColumn kv.1 kv.2) json)
    (Some (map (fun kv => mkWhere kv.1 kv.2 None)
             (List.filter (fun kv => includes idFields kv.1 && is_defined kv.2) json)))
    None None.

End DAOPure.

(** ** Heap objects, native collaborators and the [Async] monad *)

(** Object references: an index into the heap of objects of that class. *)
Definition loc : Type := nat.

Definition Row : Type := list (string * JsValue).

(** What a read of the connection object gives when it is not [undefined]:
    the DAO stored under the key or, for a key nothing is stored under, the
    member of that name which the object inherits from [Object.prototype]
    (a function, or the prototype itself for [__proto__]). *)
Inductive Handle : Type :=
| HDao (d : loc)
| HMember (name : string).

Coercion HDao : loc >-> Handle.

(** Calls that reach a native collaborator, in the order they are made; a
    call on a native connection names the [SQLiteDAO] instance that owns it. *)
Inductive Event : Type :=
| EvMkdir (path : string)
| EvOpenDatabase (d : loc) (name : string)
| EvExecuteSql (d : loc) (sql : string) (params : list JsValue)
| EvCloseDatabase (d : loc).

(** Outcome of every native call, as a function of the calls made so far.
    [schemaConfigurations] holds the keys of the schema registry of
    [schemas/index.ts]. *)
Record Env := mkEnv {
  DocumentDirectoryPath : string;
  schemaConfigurations : list string;
  rnfs_exists : list Event -> string -> Error + bool;
  rnfs_mkdir : list Event -> string -> option Error;
  sqlite_openDatabase : list Event -> loc -> string -> option Error;
  db_executeSql : list Event -> loc -> string -> list JsValue -> Error + list Row;
  db_close : list Event -> loc -> option Error;
}.

(** The native connection object, opaque to the TypeScript code. *)
Inductive SQLiteDatabase : Type := nativeHandle.

(** Fields of a [SQLiteDAO] instance; [db] is [null] or the native handle
    obtained for this instance. *)
Record SQLiteDAO := mkDAO {
  db : option SQLiteDatabase;
  isOpen : bool;
  isDebug : bool;
  dbName : string;
  inTransaction : bool;
  typeMappingConfig : option DAOPure.TypeMapping;
}.

Record RoleConfig := mkRoleConfig {
  roleName : string;
  requiredDatabases : list string;
  optionalDatabases : option (list string);
  priority : option Z;
}.

(** Static fields of the [DatabaseManager] class. *)
Record DatabaseManager := mkDatabaseManager {
  appStateListener : bool;
  maxConnections : nat;
  connections : gmap string loc;
  dm_isInitialized : bool;
  roleRegistry : gmap string RoleConfig;
  currentRole : option string;
  currentUserRoles : list string;
}.

(** Fields of a [BaseService] instance.  Event listeners and error handlers
    are callbacks of the application whose exceptions are swallowed; they are
    not part of the state. *)
Record BaseService := mkBaseService {
  schemaName : string;
  tableName : string;
  dao : option loc;
  isOpened : bool;
  isInitialized : bool;
  primaryKeyFields : list string;
}.

(** A service class is known by what its constructor does with the two
    arguments: it throws or it reaches [super(schemaName, tableName)]. *)
Definition ServiceClass : Type := string -> string -> Error + (string * string).

Record ServiceConfig := mkServiceConfig {
  sc_schemaName : string;
  sc_tableName : string;
  sc_primaryKeyFields : option (list string);
  sc_autoInit : option bool;
  sc_serviceClass : option ServiceClass;
}.

(** Fields of the [ServiceManager] singleton that the service cache uses. *)
Record ServiceManager := mkServiceManager {
  services : gmap string loc;
  serviceConfigs : gmap string ServiceConfig;
  sm_initialized : bool;
}.

Record World := mkWorld {
  trace : list Event;
  daoHeap : list SQLiteDAO;
  serviceHeap : list BaseService;
  manager : DatabaseManager;
  registry : ServiceManager;
}.

Definition set_trace (t : list Event) (w : World) : World :=
  mkWorld t (daoHeap w) (serviceHeap w) (manager w) (registry w).
Definition set_daoHeap (h : list SQLiteDAO) (w : World) : World :=
  mkWorld (trace w) h (serviceHeap w) (manager w) (registry w).
Definition set_serviceHeap (h : list BaseService) (w : World) : World :=
  mkWorld (trace w) (daoHeap w) h (manager w) (registry w).
Definition set_manager (m : DatabaseManager) (w : World) : World :=
  mkWorld (trace w) (daoHeap w) (serviceHeap w) m (registry w).
Definition set_registry (r : ServiceManager) (w : World) : World :=
  mkWorld (trace w) (daoHeap w) (serviceHeap w) (manager w) r.

Definition set_connections (c : gmap string loc) (m : DatabaseManager)
  : DatabaseManager :=
  mkDatabaseManager (appStateListener m) (maxConnections m) c
    (dm_isInitialized m) (roleRegistry m) (currentRole m) (currentUserRoles m).
Definition set_roleRegistry (r : gmap string RoleConfig) (m : DatabaseManager)
  : DatabaseManager :=
  mkDatabaseManager (appStateListener m) (maxConnections m) (connections m)
    (dm_isInitialized m) r (currentRole m) (currentUserRoles m).
Definition set_roles (roles : list string) (primary : option string)
    (m : DatabaseManager) : DatabaseManager :=
  mkDatabaseManager (appStateListener m) (maxConnections m) (connections m)
    (dm_isInitialized m) (roleRegistry m) primary roles.
Definition set_listening (m : DatabaseManager) : DatabaseManager :=
  mkDatabaseManager true (maxConnections m) (connections m)
    true (roleRegistry m) (currentRole m) (currentUserRoles m).

Definition set_services (s : gmap string loc) (r : ServiceManager)
  : ServiceManager :=
  mkServiceManager s (serviceConfigs r) (sm_initialized r).

Definition Result (A : Type) : Type := Error + A.

(** An asynchronous computation: given the native behaviour and the current
    world it ends in a value or a thrown error, and in a new world. *)
Definition Async (A : Type) : Type := Env -> World -> Result A * World.

Definition ret {A} (a : A) : Async A := fun _ w => (inr a, w).

Definition throw {A} (e : Error) : Async A := fun _ w => (inl e, w).

Definition bind {A B} (m : Async A) (k : A -> Async B) : Async B :=
  fun env w =>
    match m env w with
    | (inr a, w') => k a env w'
    | (inl e, w') => (inl e, w')
    end.

(** [try { body } catch (error) { handler(error) }] *)
Definition try_catch {A} (body : Async A) (handler : Error -> Async A) : Async A :=
  fun env w =>
    match body env w with
    | (inr a, w') => (inr a, w')
    | (inl e, w') => handler e env w'
    end.

Definition ask : Async Env := fun env w => (inr env, w).
Definition get_world : Async World := fun _ w => (inr w, w).
Definition modify (f : World -> World) : Async unit := fun _ w => (inr tt, f w).

Declare Scope async_scope.
Delimit Scope async_scope with async.
Notation "x <- m ;; k" := (bind m (fun x => k))
  (at level 100, m at next level, right associativity) : async_scope.
Notation "m ;;; k" := (bind m (fun _ => k))
  (at level 100, right associativity) : async_scope.
Local Open Scope async_scope.

(** [for (const x of xs) { await f(x) }]: stops at the first throw. *)
Fixpoint for_of {A} (xs : list A) (f : A -> Async unit) : Async unit :=
  match xs with
  | [] => ret tt
  | x :: r => f x ;;; for_of r f
  end.

(** [await Promise.all(xs.map(async x => f(x)))] with the tasks taken in
    array order: every task runs, and the combined promise rejects with the
    first rejection. *)
Fixpoint promise_all {A B} (xs : list A) (f : A -> Async B) : Async (list B) :=
  match xs with
  | [] => ret []
  | x :: r =>
      fun env w =>
        match f x env w with
        | (inr b, w') =>
            match promise_all r f env w' with
            | (inr bs, w'') => (inr (b :: bs), w'')
            | (inl e, w'') => (inl e, w'')
            end
        | (inl e, w') => (inl e, (promise_all r f env w').2)
        end
  end.

Definition emit_event (ev : Event) : Async unit :=
  modify (fun w => set_trace (trace w ++ [ev]) w).

(** Result of a native call that returns nothing. *)
Definition native_unit (o : option Error) : Async unit :=
  match o with Some e => throw e | None => ret tt end.

Definition native_result {A} (r : Error + A) : Async A :=
  match r with inl e => throw e | inr a => ret a end.

(** ** [SQLiteDAO]: connection, statements, transactions *)
Module DAO.

Definition undefined_receiver : Error :=
  mkError "TypeError: Cannot read properties of undefined".

(** Field access through a reference to a [SQLiteDAO] instance. *)
Definition read (d : loc) : Async SQLiteDAO :=
  fun _ w =>
    match daoHeap w !! d with
    | Some o => (inr o, w)
    | None => (inl undefined_receiver, w)
    end.

Definition write (d : loc) (o : SQLiteDAO) : Async unit :=
  modify (fun w => set_daoHeap (<[d := o]> (daoHeap w)) w).

Definition set_db (h : option SQLiteDatabase) (open : bool) (o : SQLiteDAO) : SQLiteDAO :=
  mkDAO h open (isDebug o) (dbName o) (inTransaction o) (typeMappingConfig o).
Definition set_isOpen (open : bool) (o : SQLiteDAO) : SQLiteDAO :=
  mkDAO (db o) open (isDebug o) (dbName o) (inTransaction o) (typeMappingConfig o).
Definition set_inTransaction (b : bool) (o : SQLiteDAO) : SQLiteDAO :=
  mkDAO (db o) (isOpen o) (isDebug o) (dbName o) b (typeMappingConfig o).

(** [new SQLiteDAO(dbFilePath, debug)] *)
Definition new (dbFilePath : string) (debug : bool) : Async loc :=
  fun _ w =>
    (inr (length (daoHeap w)),
     set_daoHeap (daoHeap w ++ [mkDAO None false debug dbFilePath false None]) w).

(** [isConnected()]: [this.isOpen && !!this.db] *)
Definition isConnected (o : SQLiteDAO) : bool :=
  isOpen o && match db o with Some _ => true | None => false end.

Definition connect (d : loc) : Async unit :=
  o <- read d ;;
  if isOpen o then ret tt
  else
    try_catch
      (env <- ask ;;
       w <- get_world ;;
       emit_event (EvOpenDatabase d (dbName o)) ;;;
       native_unit (sqlite_openDatabase env (trace w) d (dbName o)) ;;;
       o' <- read d ;;
       write d (set_db (Some nativeHandle) true o'))
      (fun err =>
         o' <- read d ;;
         write d (set_isOpen false o') ;;;
         throw err).

(** The native call shared by [runSql], [getRst] and [getRsts]. *)
Definition executeSql (d : loc) (sql : string) (params : list JsValue)
  : Async (list Row) :=
  o <- read d ;;
  match db o, isOpen o with
  | Some _, true =>
      env <- ask ;;
      w <- get_world ;;
      emit_event (EvExecuteSql d sql params) ;;;
      native_result (db_executeSql env (trace w) d sql params)
  | _, _ => throw (mkError "Database is not initialized")
  end.

Definition runSql (d : loc) (sql : string) (params : list JsValue) : Async string :=
  executeSql d sql params ;;;
  ret ("Executed: " +:+ sql).

(** [getRst]: the first row, or the empty record. *)
Definition getRst (d : loc) (sql : string) (params : list JsValue) : Async Row :=
  rows <- executeSql d sql params ;;
  ret (match rows with r :: _ => r | [] => [] end).

Definition getRsts (d : loc) (sql : string) (params : list JsValue)
  : Async (list Row) :=
  executeSql d sql params.

Definition close (d : loc) : Async unit :=
  o <- read d ;;
  match db o, isOpen o with
  | Some _, true =>
      env <- ask ;;
      w <- get_world ;;
      emit_event (EvCloseDatabase d) ;;;
      native_unit (db_close env (trace w) d) ;;;
      o' <- read d ;;
      write d (set_db None false o')
  | _, _ => ret tt
  end.

Definition beginTransaction (d : loc) : Async unit :=
  o <- read d ;;
  if inTransaction o then throw (mkError "Transaction already in progress")
  else
    runSql d "BEGIN TRANSACTION" [] ;;;
    o' <- read d ;;
    write d (set_inTransaction true o').

Definition commitTransaction (d : loc) : Async unit :=
  o <- read d ;;
  if negb (inTransaction o) then throw (mkError "No transaction in progress")
  else
    runSql d "COMMIT" [] ;;;
    o' <- read d ;;
    write d (set_inTransaction false o').

Definition rollbackTransaction (d : loc) : Async unit :=
  o <- read d ;;
  if negb (inTransaction o) then throw (mkError "No transaction in progress")
  else
    runSql d "ROLLBACK" [] ;;;
    o' <- read d ;;
    write d (set_inTransaction false o').

Definition run_statement (d : loc) (st : Error + Statement) : Async string :=
  match st with
  | inl e => throw e
  | inr (sql, params) => runSql d sql params
  end.

Definition insert (d : loc) (insertTable : QueryTable) : Async string :=
  run_statement d (DAOPure.insertStatement insertTable).

Definition update (d : loc) (updateTable : QueryTable) : Async string :=
  run_statement d (DAOPure.updateStatement updateTable).

Definition delete (d : loc) (deleteTable : QueryTable) : Async string :=
  run_statement d (DAOPure.deleteStatement deleteTable).

Definition select (d : loc) (selectTable : QueryTable) : Async Row :=
  let q := DAOPure.buildSelectQuery selectTable " LIMIT 1" in
  getRst d q.1 q.2.

Definition selectAll (d : loc) (selectTable : QueryTable) : Async (list Row) :=
  let q := DAOPure.buildSelectQuery selectTable "" in
  getRsts d q.1 q.2.

End DAO.

(** ** [DatabaseFactory.openExisting] *)
Module Factory.

Definition openExisting (name : string) : Async loc :=
  env <- ask ;;
  let outputDir := DocumentDirectoryPath env in
  w <- get_world ;;
  dirExists <- native_result (rnfs_exists env (trace w) outputDir) ;;
  (if dirExists : bool then ret tt
   else
     emit_event (EvMkdir outputDir) ;;;
     native_unit (rnfs_mkdir env (trace w) outputDir)) ;;;
  let dbFileName := if endsWith name ".db" then name else name +:+ ".db" in
  let dbPath := outputDir +:+ "/../databases/" +:+ dbFileName in
  w <- get_world ;;
  fileExists <- native_result (rnfs_exists env (trace w) dbPath) ;;
  if negb fileExists
  then throw (mkError ("Database file does not exist at: " +:+ dbPath))
  else
    (* [options.debug ?? __DEV__]: the debug flag only affects logging *)
    d <- DAO.new dbFileName true ;;
    try_catch
      (DAO.connect d ;;;
       DAO.runSql d "PRAGMA integrity_check" [] ;;;
       ret d)
      (fun error => DAO.close d ;;; throw error).

End Factory.

(** ** [DatabaseManager]: roles, access control, connection lifecycle *)
Module Manager.

Definition newline : string := String (ascii_of_nat 10) EmptyString.

(** [roleConfig.requiredDatabases.forEach(db => set.add(db))] followed by the
    same for the optional list when it is present, for a role the registry
    holds; a role it does not hold is skipped (a name of
    [objectPrototypeKeys], for which the source finds an inherited member
    and throws on its missing [requiredDatabases], is no role name here). *)
Definition add_role_databases (reg : gmap string RoleConfig)
    (acc : list string) (role : string) : list string :=
  match reg !! role with
  | Some rc =>
      let acc := foldl (fun a k => set_add k a) acc (requiredDatabases rc) in
      match optionalDatabases rc with
      | Some opt => foldl (fun a k => set_add k a) acc opt
      | None => acc
      end
  | None => acc
  end.

(** The set built from ['core'] and the databases of a list of roles, as an
    array in insertion order. *)
Definition roleDatabases (reg : gmap string RoleConfig) (roles : list string)
  : list string :=
  foldl (add_role_databases reg) ["core"] roles.

Definition getCurrentUserDatabases (m : DatabaseManager) : list string :=
  roleDatabases (roleRegistry m) (currentUserRoles m).

Definition hasAccessToDatabase (m : DatabaseManager) (dbKey : string) : bool :=
  includes (getCurrentUserDatabases m) dbKey.

Definition accessDenied (key : string) (roles : list string) : Error :=
  mkError ("Access denied: Database '" +:+ key
           +:+ "' is not accessible by current user roles: "
           +:+ join ", " roles).

Definition notConnected (key : string) : Error :=
  mkError ("Database '" +:+ key
           +:+ "' is not connected. Please ensure it's initialized for current user roles.").

Definition registerRole (roleConfig : RoleConfig) : Async unit :=
  modify (fun w =>
    set_manager
      (set_roleRegistry (<[roleName roleConfig := roleConfig]> (roleRegistry (manager w)))
         (manager w)) w).

(** [this.connections[key]] on the plain object [connections]: the DAO
    stored under [key]; without one, the inherited member when [key] names
    one, which is truthy; otherwise [undefined]. *)
Definition connectionAt (m : DatabaseManager) (key : string) : option Handle :=
  match connections m !! key with
  | Some d => Some (HDao d)
  | None => if includes objectPrototypeKeys key then Some (HMember key) else None
  end.

Definition get (key : string) : Async Handle :=
  w <- get_world ;;
  if negb (hasAccessToDatabase (manager w) key)
  then throw (accessDenied key (currentUserRoles (manager w)))
  else
    match connectionAt (manager w) key with
    | Some dao => ret dao
    | None => throw (notConnected key)
    end.

Definition store_connection (key : string) (d : loc) : Async unit :=
  modify (fun w =>
    set_manager (set_connections (<[key := d]> (connections (manager w))) (manager w)) w).

Definition drop_connection (key : string) : Async unit :=
  modify (fun w =>
    set_manager (set_connections (base.delete key (connections (manager w))) (manager w)) w).

(** The [some] test in the catch block of [initializeUserRoleConnections]. *)
Definition isRequired (m : DatabaseManager) (dbKey : string) : bool :=
  existsb
    (fun role =>
       match roleRegistry m !! role with
       | Some rc => includes (requiredDatabases rc) dbKey
       | None => false
       end)
    (currentUserRoles m).

(** One task of [initPromises]; its value is what it pushes on
    [failedInitializations]. *)
Definition initTask (dbKey : string) : Async (list (string * Error)) :=
  w <- get_world ;;
  match connections (manager w) !! dbKey with
  | Some _ => ret []
  | None =>
      try_catch
        (env <- ask ;;
         (if includes (schemaConfigurations env) dbKey then ret tt
          else throw (mkError ("Database key '" +:+ dbKey
                               +:+ "' not found in schemaConfigurations."))) ;;;
         d <- Factory.openExisting dbKey ;;
         DAO.runSql d "PRAGMA integrity_check" [] ;;;
         store_connection dbKey d ;;;
         ret [])
        (fun err =>
           w <- get_world ;;
           if isRequired (manager w) dbKey then ret [(dbKey, err)] else ret [])
  end.

Definition initializeUserRoleConnections : Async unit :=
  w <- get_world ;;
  let requiredDatabases := getCurrentUserDatabases (manager w) in
  pushed <- promise_all requiredDatabases initTask ;;
  match concat pushed with
  | [] => ret tt
  | failedInitializations =>
      let errorSummary :=
        join newline
          (map (fun f => "  - " +:+ f.1 +:+ ": " +:+ message f.2)
               failedInitializations) in
      throw (mkError ("Failed to initialize required databases for user roles:"
                      +:+ newline +:+ errorSummary))
  end.

(** The keys [cleanupUnusedConnections] goes through. *)
Definition databasesToClose (m : DatabaseManager) (previousRoles : list string)
  : list string :=
  let previousDatabases := roleDatabases (roleRegistry m) previousRoles in
  let currentDatabases := getCurrentUserDatabases m in
  List.filter (fun k => negb (includes currentDatabases k)) previousDatabases.

Definition closeTask (dbKey : string) : Async unit :=
  w <- get_world ;;
  match connections (manager w) !! dbKey with
  | Some d =>
      try_catch
        (DAO.close d ;;; drop_connection dbKey)
        (fun _ => ret tt)
  | None => ret tt
  end.

Definition cleanupUnusedConnections (previousRoles : list string) : Async unit :=
  w <- get_world ;;
  for_of (databasesToClose (manager w) previousRoles) closeTask.

(** [primaryRole || userRoles[0] || null] *)
Definition truthy_string (o : option string) : option string :=
  match o with
  | Some EmptyString | None => None
  | Some s => Some s
  end.

Definition pickPrimary (primaryRole : option string) (userRoles : list string)
  : option string :=
  match truthy_string primaryRole with
  | Some r => Some r
  | None => truthy_string (head userRoles)
  end.

Definition notRegistered (role : string) : Error :=
  mkError ("Role '" +:+ role +:+ "' is not registered. Please register it first.").

Definition setCurrentUserRoles (userRoles : list string)
    (primaryRole : option string) : Async unit :=
  for_of userRoles
    (fun role =>
       w <- get_world ;;
       match roleRegistry (manager w) !! role with
       | Some _ => ret tt
       | None => throw (notRegistered role)
       end) ;;;
  w <- get_world ;;
  let previousRoles := currentUserRoles (manager w) in
  modify (fun w =>
    set_manager (set_roles userRoles (pickPrimary primaryRole userRoles) (manager w)) w) ;;;
  initializeUserRoleConnections ;;;
  cleanupUnusedConnections previousRoles.

(** [setupAppStateListener()] followed by [this.isInitialized = true]. *)
Definition setupAppStateListener : Async unit :=
  modify (fun w => set_manager (set_listening (manager w)) w).

(** [getLazyLoading]; the value is [this.connections[key]].  The cache is
    read on the stored connections: [key] is not a name of
    [objectPrototypeKeys]. *)
Definition getLazyLoading (key : string) : Async (option loc) :=
  w <- get_world ;;
  if negb (hasAccessToDatabase (manager w) key)
  then throw (accessDenied key (currentUserRoles (manager w)))
  else
    (match connections (manager w) !! key with
     | Some _ => ret tt
     | None =>
         env <- ask ;;
         if negb (includes (schemaConfigurations env) key)
         then throw (mkError ("Invalid database key: " +:+ key
                              +:+ ". Not found in schemaConfigurations."))
         else if (maxConnections (manager w) <=? size (connections (manager w)))%nat
         then throw (mkError "Maximum number of database connections reached")
         else
           d <- Factory.openExisting key ;;
           DAO.runSql d "PRAGMA integrity_check" [] ;;;
           store_connection key d
     end) ;;;
    setupAppStateListener ;;;
    w <- get_world ;;
    ret (connections (manager w) !! key).

(** [acc[key] = dao] on the local record [daos]: a known key keeps its
    place, a new key goes last (the order of [Object.values] for keys that
    are not array indices); an assignment to [__proto__] adds no property. *)
Fixpoint assign (key : string) (dao : Handle) (acc : list (string * Handle))
  : list (string * Handle) :=
  match acc with
  | [] => if String.eqb key "__proto__" then [] else [(key, dao)]
  | (k, v) :: r =>
      if String.eqb k key then (k, dao) :: r else (k, v) :: assign key dao r
  end.

(** [schemas.reduce((acc, key) => { acc[key] = this.get(key); ... }, {})] *)
Fixpoint collectDaos (schemas : list string) (acc : list (string * Handle))
  : Async (list (string * Handle)) :=
  match schemas with
  | [] => ret acc
  | key :: r => dao <- get key ;; collectDaos r (assign key dao acc)
  end.

(** The DAOs of an array of values up to the first value that is no DAO,
    and whether there is such a value. *)
Fixpoint daosUpToMember (values : list Handle) : list loc * bool :=
  match values with
  | [] => ([], false)
  | HMember _ :: _ => ([], true)
  | HDao d :: r => let (ds, member) := daosUpToMember r in (d :: ds, member)
  end.

Definition notAFunction (method : string) : Error :=
  mkError ("TypeError: dao." +:+ method +:+ " is not a function").

(** [await Promise.all(values.map(dao => dao.method()))].  The calls are
    made in array order while the array of promises is built.  A value that
    is no DAO has no such method: its call expression throws a [TypeError]
    on the spot, the calls after it are not made and nothing waits for the
    ones made before it. *)
Definition callEach (values : list Handle) (name : string)
    (method : loc -> Async unit) : Async unit :=
  let (ds, member) := daosUpToMember values in
  if member : bool
  then
    for_of ds (fun d => try_catch (method d) (fun _ => ret tt)) ;;;
    throw (notAFunction name)
  else promise_all ds method ;;; ret tt.

Definition executeCrossSchemaTransaction (schemas : list string)
    (callback : list (string * Handle) -> Async unit) : Async unit :=
  for_of schemas
    (fun key =>
       w <- get_world ;;
       if negb (hasAccessToDatabase (manager w) key)
       then throw (accessDenied key (currentUserRoles (manager w)))
       else ret tt) ;;;
  daos <- collectDaos schemas [] ;;
  try_catch
    (callEach (map snd daos) "beginTransaction" DAO.beginTransaction ;;;
     callback daos ;;;
     callEach (map snd daos) "commitTransaction" DAO.commitTransaction)
    (fun error =>
       callEach (map snd daos) "rollbackTransaction" DAO.rollbackTransaction ;;;
       throw error).

End Manager.

(** ** [BaseService]: the table service *)
Module Service.

Record FindOptions := mkFindOptions {
  orderBy : option (list OrderByClause);
  fo_limit : option Z;
  fo_offset : option Z;
  columns : option (list string);
}.

Definition read (s : loc) : Async BaseService :=
  fun _ w =>
    match serviceHeap w !! s with
    | Some o => (inr o, w)
    | None => (inl DAO.undefined_receiver, w)
    end.

Definition write (s : loc) (o : BaseService) : Async unit :=
  modify (fun w => set_serviceHeap (<[s := o]> (serviceHeap w)) w).

Definition set_dao (d : option loc) (o : BaseService) : BaseService :=
  mkBaseService (schemaName o) (tableName o) d (isOpened o) (isInitialized o)
    (primaryKeyFields o).
Definition set_flags (b : bool) (o : BaseService) : BaseService :=
  mkBaseService (schemaName o) (tableName o) (dao o) b b (primaryKeyFields o).
Definition set_pk (fields : list string) (o : BaseService) : BaseService :=
  mkBaseService (schemaName o) (tableName o) (dao o) (isOpened o)
    (isInitialized o) fields.

(** The constructor of [BaseService]. *)
Definition BaseServiceClass : ServiceClass := fun s t => inr (s, t).

(** [new ServiceClass(schemaName, tableName)]; in the base constructor
    [this.tableName = tableName || schemaName]. *)
Definition new (cls : ServiceClass) (schema table : string) : Async loc :=
  match cls schema table with
  | inl e => throw e
  | inr (s, t) =>
      fun _ w =>
        (inr (length (serviceHeap w)),
         set_serviceHeap
           (serviceHeap w ++
              [mkBaseService s (match t with EmptyString => s | _ => t end)
                 None false false ["id"]]) w)
  end.

Definition setPrimaryKeyFields (s : loc) (fields : list string) : Async unit :=
  o <- read s ;;
  write s (set_pk fields o).

Definition init (s : loc) : Async unit :=
  try_catch
    (o <- read s ;;
     if isInitialized o then ret tt
     else
       r <- Manager.getLazyLoading (schemaName o) ;;
       o' <- read s ;;
       write s (set_dao r o') ;;;
       match r with
       | None => throw (mkError ("Failed to initialize DAO for schema: "
                                 +:+ schemaName o))
       | Some _ =>
           o'' <- read s ;;
           write s (set_flags true o'')
       end)
    (fun error => throw error).

Definition _ensureInitialized (s : loc) : Async unit :=
  o <- read s ;;
  if isInitialized o then ret tt else init s.

(** [this.dao!.method(...)]: a null [dao] is a [TypeError]. *)
Definition the_dao (s : loc) : Async loc :=
  o <- read s ;;
  match dao o with
  | Some d => ret d
  | None => throw DAO.undefined_receiver
  end.

Definition close (s : loc) : Async bool :=
  try_catch
    (o <- read s ;;
     match dao o with
     | Some d => DAO.close d
     | None => ret tt
     end ;;;
     o' <- read s ;;
     write s (set_flags false o') ;;;
     ret true)
    (fun error => throw error).

Definition buildSelectTable (o : BaseService)
    (conditions : list (string * JsValue)) (options : FindOptions) : QueryTable :=
  mkQueryTable (tableName o)
    (match columns options with
     | Some (c :: cs) => map (fun name => mkColumn name VUndefined) (c :: cs)
     | _ => []
     end)
    (Some (map (fun kv => mkWhere kv.1 kv.2 (Some "=")) conditions))
    (Some (default [] (orderBy options)))
    (Some (mkLimitOffset (fo_limit options) (fo_offset options))).

Definition findAll (s : loc) (conditions : list (string * JsValue))
    (options : FindOptions) : Async (list Row) :=
  _ensureInitialized s ;;;
  try_catch
    (o <- read s ;;
     let queryTable := buildSelectTable o conditions options in
     d <- the_dao s ;;
     DAO.selectAll d queryTable)
    (fun error => throw error).

Definition executeTransaction {A} (s : loc) (callback : Async A) : Async A :=
  _ensureInitialized s ;;;
  try_catch
    (d <- the_dao s ;;
     DAO.beginTransaction d ;;;
     result <- callback ;;
     d <- the_dao s ;;
     DAO.commitTransaction d ;;;
     ret result)
    (fun error =>
       try_catch
         (d <- the_dao s ;; DAO.rollbackTransaction d)
         (fun rollbackError => ret tt) ;;;
       throw error).

End Service.

(** ** [ServiceManager]: the service cache *)
Module Registry.

Definition createServiceKey (schema table : string) : string :=
  schema +:+ ":" +:+ table.

Definition defaultConfig (schema table : string) : ServiceConfig :=
  mkServiceConfig schema table (Some ["id"]) (Some false)
    (Some Service.BaseServiceClass).

Definition store_service (key : string) (s : loc) : Async unit :=
  modify (fun w =>
    set_registry (set_services (<[key := s]> (services (registry w))) (registry w)) w).

(** [createService]; the [emit] calls only reach application handlers. *)
Definition createService (schema table : string) : Async loc :=
  let serviceKey := createServiceKey schema table in
  w <- get_world ;;
  match services (registry w) !! serviceKey with
  | Some s => ret s
  | None =>
      let config :=
        default (defaultConfig schema table)
          (serviceConfigs (registry w) !! serviceKey) in
      try_catch
        (let cls := default Service.BaseServiceClass (sc_serviceClass config) in
         service <- Service.new cls schema table ;;
         match sc_primaryKeyFields config with
         | Some fields => Service.setPrimaryKeyFields service fields
         | None => ret tt
         end ;;;
         store_service serviceKey service ;;;
         (if DAOPure.truthy_flag (sc_autoInit config)
          then Service.init service else ret tt) ;;;
         ret service)
        (fun error => throw error)
  end.

Definition getService (schema table : string) : Async loc :=
  let serviceKey := createServiceKey schema table in
  w <- get_world ;;
  match services (registry w) !! serviceKey with
  | Some s => ret s
  | None => createService schema table
  end.

End Registry.

(** ** [SQLiteDAO]: schema initialisation, tables and indexes *)
Module Schema.
Import DAOPure DAO.

Record IndexDefinition := mkIndexDefinition {
  ix_name : string;
  ix_columns : list string;
  ix_unique : option bool;
}.

Record ForeignKeyDefinition := mkForeignKeyDefinition {
  fk_name : string;
  fk_column : string;
  references_table : string;
  references_column : string;
  on_delete : option string;
  on_update : option string;
}.

Record TableDefinition := mkTableDefinition {
  td_name : string;
  td_cols : list ColumnDefinition;
  td_indexes : option (list IndexDefinition);
  td_foreign_keys : option (list ForeignKeyDefinition);
}.

(** One value of [schema.schemas]. *)
Record TableConfig := mkTableConfig {
  tc_cols : list ColumnDefinition;
  tc_indexes : option (list IndexDefinition);
  tc_foreign_keys : option (list ForeignKeyDefinition);
}.

(** [DatabaseSchemaWithTypeMapping]; [schemas] is the object as
    [Object.entries] lists it. *)
Record DatabaseSchemaWithTypeMapping := mkDatabaseSchema {
  schema_version : string;
  database_name : string;
  type_mapping : option TypeMapping;
  schemas : list (string * TableConfig);
}.

(** [setTypeMappingConfig] *)
Definition setTypeMappingConfig (d : loc) (config : TypeMapping) : Async unit :=
  o <- read d ;;
  write d (mkDAO (db o) (isOpen o) (isDebug o) (dbName o) (inTransaction o)
             (Some config)).

(** [s || ''] on an optional string. *)
Definition or_empty (o : option string) : string :=
  match o with Some s => s | None => EmptyString end.

(** [`${col.name} ${col.type} ${col.option_key || ''}`.trim()] *)
Definition columnDef (col : ColumnDefinition) : string :=
  trim (cd_name col +:+ " " +:+ cd_type col +:+ " " +:+ or_empty (option_key col)).

(** [if (fk.on_delete) fkSql += ...]: the empty string is falsy. *)
Definition action_suffix (keyword : string) (action : option string) : string :=
  match action with
  | None | Some EmptyString => EmptyString
  | Some a => keyword +:+ a
  end.

Definition foreignKeyDef (fk : ForeignKeyDefinition) : string :=
  (("FOREIGN KEY (" +:+ fk_column fk +:+ ") REFERENCES " +:+ references_table fk
    +:+ "(" +:+ references_column fk +:+ ")")
   +:+ action_suffix " ON DELETE " (on_delete fk))
  +:+ action_suffix " ON UPDATE " (on_update fk).

(** The statement built by [createTableWithForeignKeys]. *)
Definition createTableSql (table : TableDefinition) : string :=
  let columnDefs := map columnDef (td_cols table) in
  let foreignKeyDefs :=
    match td_foreign_keys table with
    | Some fks => map foreignKeyDef fks
    | None => []
    end in
  let allDefs := columnDefs ++ foreignKeyDefs in
  "CREATE TABLE IF NOT EXISTS " +:+ td_name table +:+ " (" +:+ join ", " allDefs +:+ ")".

Definition createTableWithForeignKeys (d : loc) (table : TableDefinition)
  : Async string :=
  runSql d (createTableSql table) [].

(** The statement built by [createIndexFromDefinition]. *)
Definition createIndexSql (tableName : string) (indexDef : IndexDefinition) : string :=
  let columns := join ", " (ix_columns indexDef) in
  let isUnique := truthy_flag (ix_unique indexDef) in
  "CREATE " +:+ (if isUnique then "UNIQUE" else "") +:+ " INDEX IF NOT EXISTS "
  +:+ ix_name indexDef +:+ " ON " +:+ tableName +:+ " (" +:+ columns +:+ ")".

Definition createIndexFromDefinition (d : loc) (tableName : string)
    (indexDef : IndexDefinition) : Async string :=
  runSql d (createIndexSql tableName indexDef) [].

Definition createIndexesForTable (d : loc) (tableName : string)
    (indexes : list IndexDefinition) : Async unit :=
  for_of indexes (fun index => createIndexFromDefinition d tableName index ;;; ret tt).

Definition dropTable (d : loc) (tableName : string) : Async string :=
  runSql d ("DROP TABLE IF EXISTS " +:+ tableName) [].

Definition getTableInfo (d : loc) (tableName : string) : Async (list Row) :=
  getRsts d ("PRAGMA table_info(" +:+ tableName +:+ ")") [].

Definition notConnectedError : Error :=
  mkError "Database is not connected. Call connect() first.".

Definition initializeFromSchema (d : loc) (schema : DatabaseSchemaWithTypeMapping)
  : Async unit :=
  o <- read d ;;
  if negb (isConnected o) then throw notConnectedError
  else
    match type_mapping schema with
    | Some config => setTypeMappingConfig d config
    | None => ret tt
    end ;;;
    try_catch
      (runSql d "PRAGMA foreign_keys = ON" [] ;;;
       beginTransaction d ;;;
       for_of (schemas schema) (fun entry =>
         this <- read d ;;
         let tableDefinition :=
           mkTableDefinition entry.1
             (map (processColumnDefinition (typeMappingConfig this))
                (tc_cols entry.2))
             (tc_indexes entry.2) (tc_foreign_keys entry.2) in
         createTableWithForeignKeys d tableDefinition ;;;
         ret tt) ;;;
       for_of (schemas schema) (fun entry =>
         match tc_indexes entry.2 with
         | Some (index :: indexes) =>
             createIndexesForTable d entry.1 (index :: indexes)
         | _ => ret tt
         end) ;;;
       commitTransaction d)
      (fun error => rollbackTransaction d ;;; throw error).

End Schema.

(** ** [DatabaseFactory]: creation from a configuration object *)
Module FactoryCreate.
Import Schema.

Definition missingDatabaseName : Error :=
  mkError "Invalid or missing 'database_name' in schema. This is required to name the database file.".

Definition missingSchemas : Error :=
  mkError "Invalid or missing 'schemas' object in schema. At least one table definition is required.".

(** [validateSchema] on a schema object. *)
Definition validateSchema (schema : DatabaseSchemaWithTypeMapping) : Async unit :=
  match trim (database_name schema) with
  | EmptyString => throw missingDatabaseName
  | _ =>
      match schemas schema with
      | [] => throw missingSchemas
      | _ :: _ => ret tt
      end
  end.

(** [createFromConfig(config)]: [create] with the schema given as an
    object; [options.debug ?? true] only affects logging. *)
Definition createFromConfig (schema : DatabaseSchemaWithTypeMapping) : Async loc :=
  validateSchema schema ;;;
  env <- ask ;;
  let outputDir := DocumentDirectoryPath env in
  w <- get_world ;;
  dirExists <- native_result (rnfs_exists env (trace w) outputDir) ;;
  (if dirExists : bool then ret tt
   else
     emit_event (EvMkdir outputDir) ;;;
     native_unit (rnfs_mkdir env (trace w) outputDir)) ;;;
  let dbFileName :=
    if endsWith (database_name schema) ".db" then database_name schema
    else database_name schema +:+ ".db" in
  d <- DAO.new dbFileName true ;;
  try_catch
    (DAO.connect d ;;;
     initializeFromSchema d schema ;;;
     ret d)
    (fun error =>
       o <- DAO.read d ;;
       (if DAO.isConnected o then DAO.close d else ret tt) ;;;
       throw error).

End FactoryCreate.

(** ** [DatabaseManager]: registry queries, shutdown and logout *)
Module ManagerLifecycle.
Import Manager.

(** [registerRoles]: [roleConfigs.forEach(config => this.registerRole(config))] *)
Definition registerRoles (roleConfigs : list RoleConfig) : Async unit :=
  for_of roleConfigs registerRole.

(** [getRoleDatabases] *)
Definition getRoleDatabases (role : string) : Async (list string) :=
  w <- get_world ;;
  match roleRegistry (manager w) !! role with
  | None => throw (mkError ("Role '" +:+ role +:+ "' is not registered."))
  | Some roleConfig =>
      ret (requiredDatabases roleConfig ++ default [] (optionalDatabases roleConfig))
  end.

Definition coreSchemaMissing : Error :=
  mkError "Core database schema not found in schemaConfigurations.".

(** [initializeCoreConnection] *)
Definition initializeCoreConnection : Async unit :=
  w <- get_world ;;
  match connections (manager w) !! "core" with
  | Some _ => ret tt
  | None =>
      try_catch
        (env <- ask ;;
         (if includes (schemaConfigurations env) "core" then ret tt
          else throw coreSchemaMissing) ;;;
         d <- Factory.openExisting "core" ;;
         DAO.runSql d "PRAGMA integrity_check" [] ;;;
         store_connection "core" d)
        (fun error => throw error)
  end.

(** [reopenConnections] *)
Definition reopenConnections : Async unit :=
  initializeCoreConnection ;;;
  w <- get_world ;;
  match currentUserRoles (manager w) with
  | [] => ret tt
  | _ :: _ => initializeUserRoleConnections
  end.

(** [closeAllConnections].  [entries] stands for [Object.entries] on the
    connection object: the finite map does not record the insertion order
    that [Object.entries] follows, so the enumeration is left open. *)
Definition closeAllConnections
    (entries : gmap string loc -> list (string * loc)) : Async unit :=
  w <- get_world ;;
  promise_all (entries (connections (manager w)))
    (fun entry => try_catch (DAO.close entry.2) (fun _ => ret tt)) ;;;
  modify (fun w => set_manager (set_connections ∅ (manager w)) w).

(** [closeAll]: the listener, if any, is removed and the field set to
    [null]. *)
Definition closeAll (entries : gmap string loc -> list (string * loc))
  : Async unit :=
  closeAllConnections entries ;;;
  modify (fun w =>
    let m := manager w in
    set_manager
      (mkDatabaseManager false (maxConnections m) (connections m) false
         (roleRegistry m) None []) w).

(** [logout]; [keys] stands for [Object.keys] on the connection object. *)
Definition logout (keys : gmap string loc -> list string) : Async unit :=
  w <- get_world ;;
  let connectionsToClose :=
    List.filter (fun key => negb (String.eqb key "core"))
      (keys (connections (manager w))) in
  for_of connectionsToClose
    (fun dbKey =>
       try_catch
         (w <- get_world ;;
          match connections (manager w) !! dbKey with
          | Some d => DAO.close d
          | None => throw DAO.undefined_receiver
          end ;;;
          drop_connection dbKey)
         (fun _ => ret tt)) ;;;
  modify (fun w => set_manager (set_roles [] None (manager w)) w).

End ManagerLifecycle.

(** ** [BaseService]: the operations on records *)
Module ServiceOps.
Import Service.

(** [!v] *)
Definition falsy (v : JsValue) : bool :=
  match v with
  | VUndefined | VNull => true
  | VBool b => negb b
  | VNum z => (z =? 0)%Z
  | VStr EmptyString => true
  | VStr _ => false
  | VObj _ => false
  end.

Definition noOptions : FindOptions := mkFindOptions None None None None.

(** [this.primaryKeyFields[0]] used as a property name: past the end of the
    array it is [undefined], which names the property ["undefined"]. *)
Definition primaryKey (o : BaseService) : string :=
  match primaryKeyFields o with
  | k :: _ => k
  | [] => "undefined"
  end.

(** [record[key]] on a record given by its entries. *)
Fixpoint property (key : string) (data : list (string * JsValue)) : JsValue :=
  match data with
  | [] => VUndefined
  | (k, v) :: r => if String.eqb k key then v else property key r
  end.

(** [{...data, [key]: v}]: a property of [data] keeps its place and takes
    the new value, a new property goes last. *)
Fixpoint set_property (key : string) (v : JsValue) (data : list (string * JsValue))
  : list (string * JsValue) :=
  match data with
  | [] => [(key, v)]
  | (k, v') :: r =>
      if String.eqb k key then (k, v) :: r else (k, v') :: set_property key v r
  end.

(** [buildDataTable] *)
Definition buildDataTable (o : BaseService) (data : list (string * JsValue))
  : QueryTable :=
  DAOPure.convertJsonToQueryTable (tableName o) data (primaryKeyFields o).

Definition findById (s : loc) (id : JsValue) : Async Row :=
  _ensureInitialized s ;;;
  try_catch
    (if falsy id then throw (mkError "ID is required")
     else
       o <- read s ;;
       let queryTable := buildSelectTable o [(primaryKey o, id)] noOptions in
       d <- the_dao s ;;
       DAO.select d queryTable)
    (fun error => throw error).

Definition findFirst (s : loc) (conditions : list (string * JsValue)) : Async Row :=
  _ensureInitialized s ;;;
  try_catch
    (o <- read s ;;
     let queryTable := buildSelectTable o conditions noOptions in
     d <- the_dao s ;;
     DAO.select d queryTable)
    (fun error => throw error).

(** [create]; the record is an object, so [_validateData] passes. *)
Definition create (s : loc) (data : list (string * JsValue)) : Async Row :=
  _ensureInitialized s ;;;
  try_catch
    (o <- read s ;;
     d <- the_dao s ;;
     let queryTable := buildDataTable o data in
     DAO.insert d queryTable ;;;
     o <- read s ;;
     if falsy (property (primaryKey o) data) then ret data
     else findById s (property (primaryKey o) data))
    (fun error => throw error).

Definition update (s : loc) (id : JsValue) (data : list (string * JsValue))
  : Async Row :=
  _ensureInitialized s ;;;
  try_catch
    (if falsy id then throw (mkError "ID is required for update")
     else
       o <- read s ;;
       let updateData := set_property (primaryKey o) id data in
       d <- the_dao s ;;
       let queryTable := buildDataTable o updateData in
       DAO.update d queryTable ;;;
       findById s id)
    (fun error => throw error).

Definition delete (s : loc) (id : JsValue) : Async bool :=
  _ensureInitialized s ;;;
  try_catch
    (if falsy id then throw (mkError "ID is required for delete")
     else
       o <- read s ;;
       let queryTable := buildSelectTable o [(primaryKey o, id)] noOptions in
       d <- the_dao s ;;
       DAO.delete d queryTable ;;;
       ret true)
    (fun error => throw error).

(** [bulkCreate]; [results] receives every record in turn, so on success it
    is the array given. *)
Definition bulkCreate (s : loc) (dataArray : list (list (string * JsValue)))
  : Async (list (list (string * JsValue))) :=
  _ensureInitialized s ;;;
  try_catch
    (match dataArray with
     | [] => throw (mkError "Data must be a non-empty array")
     | _ :: _ =>
         executeTransaction s
           (for_of dataArray
              (fun data =>
                 o <- read s ;;
                 d <- the_dao s ;;
                 let queryTable := buildDataTable o data in
                 DAO.insert d queryTable ;;;
                 ret tt)) ;;;
         ret dataArray
     end)
    (fun error => throw error).

(** [count]: [result.count || 0] *)
Definition count (s : loc) (conditions : list (string * JsValue)) : Async JsValue :=
  _ensureInitialized s ;;;
  try_catch
    (o <- read s ;;
     let queryTable :=
       buildSelectTable o conditions
         (mkFindOptions None None None (Some ["COUNT(*) as count"])) in
     d <- the_dao s ;;
     result <- DAO.select d queryTable ;;
     ret (if falsy (property "count" result) then VNum 0
          else property "count" result))
    (fun error => throw error).

End ServiceOps.

(** ** [ServiceManager]: registration and eviction *)
Module RegistryOps.
Import Registry.

Definition set_serviceConfigs (c : gmap string ServiceConfig) (r : ServiceManager)
  : ServiceManager :=
  mkServiceManager (services r) c (sm_initialized r).

(** [{primaryKeyFields: ['id'], autoInit: false, serviceClass: BaseService,
    ...config}] *)
Definition withDefaults (config : ServiceConfig) : ServiceConfig :=
  mkServiceConfig (sc_schemaName config) (sc_tableName config)
    (Some (default ["id"] (sc_primaryKeyFields config)))
    (Some (default false (sc_autoInit config)))
    (Some (default Service.BaseServiceClass (sc_serviceClass config))).

Definition registerService (config : ServiceConfig) : Async unit :=
  let serviceKey := createServiceKey (sc_schemaName config) (sc_tableName config) in
  match sc_schemaName config, sc_tableName config with
  | EmptyString, _ | _, EmptyString =>
      throw (mkError "Both schema name and table name are required")
  | _, _ =>
      modify (fun w =>
        set_registry
          (set_serviceConfigs
             (<[serviceKey := withDefaults config]> (serviceConfigs (registry w)))
             (registry w)) w)
  end.

(** [getExistingService] *)
Definition getExistingService (schema table : string) : Async (option loc) :=
  w <- get_world ;;
  ret (services (registry w) !! createServiceKey schema table).

Definition drop_service (key : string) : Async unit :=
  modify (fun w =>
    set_registry
      (set_services (base.delete key (services (registry w))) (registry w)) w).

(** [closeService] *)
Definition closeService (schema table : string) : Async bool :=
  let serviceKey := createServiceKey schema table in
  w <- get_world ;;
  match services (registry w) !! serviceKey with
  | None => ret false
  | Some service =>
      try_catch
        (Service.close service ;;;
         drop_service serviceKey ;;;
         ret true)
        (fun _ => ret false)
  end.

(** [initService] *)
Definition initService (schema table : string) : Async loc :=
  service <- getService schema table ;;
  Service.init service ;;;
  ret service.

(** [closeAllServices]; [entries] stands for the iteration over the [Map] of
    services, whose insertion order the finite map does not record. *)
Definition closeAllServices (entries : gmap string loc -> list (string * loc))
  : Async unit :=
  w <- get_world ;;
  promise_all (entries (services (registry w)))
    (fun entry => try_catch (Service.close entry.2 ;;; ret tt) (fun _ => ret tt)) ;;;
  modify (fun w => set_registry (mkServiceManager ∅ (serviceConfigs (registry w)) false) w).

End RegistryOps.

(** ** [DatabaseManager.getLazyLoading]: the call in its steps *)
Module LazyLoadingSteps.
Import Manager.

(** What [getLazyLoading] does when it is called, before its first [await]:
    the access check and, when nothing is cached under the key, the checks
    of the schema registry and of the pool.  The value tells whether the
    call goes on to open the database. *)
Definition checks (key : string) : Async bool :=
  w <- get_world ;;
  if negb (hasAccessToDatabase (manager w) key)
  then throw (accessDenied key (currentUserRoles (manager w)))
  else
    match connections (manager w) !! key with
    | Some _ => ret false
    | None =>
        env <- ask ;;
        if negb (includes (schemaConfigurations env) key)
        then throw (mkError ("Invalid database key: " +:+ key
                             +:+ ". Not found in schemaConfigurations."))
        else if (maxConnections (manager w) <=? size (connections (manager w)))%nat
        then throw (mkError "Maximum number of database connections reached")
        else ret true
    end.

(** The awaited part of the call: the two awaits and the store. *)
Definition opening (key : string) : Async unit :=
  d <- Factory.openExisting key ;;
  DAO.runSql d "PRAGMA integrity_check" [] ;;;
  store_connection key d.

(** The end of the call. *)
Definition answer (key : string) : Async (option loc) :=
  setupAppStateListener ;;;
  w <- get_world ;;
  ret (connections (manager w) !! key).

(** The call from the outcome of its checks on. *)
Definition resume (key : string) (checked : Result bool) : Async (option loc) :=
  match checked with
  | inl e => throw e
  | inr goesOn => (if goesOn : bool then opening key else ret tt) ;;; answer key
  end.

(** The file system gives the same answer whenever it is asked. *)
Definition steadyFileSystem (env : Env) : Prop :=
  forall (t t' : list Event) (path : string),
    rnfs_exists env t path = rnfs_exists env t' path.

(** The outcome of a call, kept as a value: a promise that is not awaited
    yet. *)
Definition settle {A} (m : Async A) : Async (Result A) :=
  fun env w => let (r, w') := m env w in (inr r, w').

(** Two calls made one after the other before either is awaited, as
    [Promise.all] over an array of calls makes them.  Each call runs its
    checks when it is made; here the first call then goes through its
    awaits to its end before the second one is resumed.  (A call that finds
    its key cached ends without any [await]; what it sets is not read by
    the checks of the other call.  A call that goes on has asked the file
    system for the directory when it was made; the answer is taken when the
    call is resumed, which is the same for a file system that answers
    alike whenever it is asked, [steadyFileSystem].)  The value is the pair
    of outcomes. *)
Definition overlapped (keyA keyB : string)
  : Async (Result (option loc) * Result (option loc)) :=
  checkedA <- settle (checks keyA) ;;
  checkedB <- settle (checks keyB) ;;
  outcomeA <- settle (resume keyA checkedA) ;;
  outcomeB <- settle (resume keyB checkedB) ;;
  ret (outcomeA, outcomeB).

End LazyLoadingSteps.

(** * Verified properties *)


(** ** The column-constraint scanner *)
Section ConstraintScanner.
Import DAOPure.

(** The fragments in the order the scanner pushes them; [declaredPk] is the
    [primary_key] flag the column declaration already carries. *)
Definition expectedOptions (declaredPk : bool) (toks : list string) : list string :=
  let pk := includes toks "PRIMARY" || declaredPk in
  (if includes toks "PRIMARY" then ["PRIMARY KEY"] else []) ++
  (if (includes toks "AUTO_INCREMENT" || includes toks "AUTOINCREMENT") && pk
   then ["AUTOINCREMENT"] else []) ++
  (if includes toks "NOT" && includes toks "NULL" then ["NOT NULL"] else []) ++
  (if includes toks "UNIQUE" && negb pk then ["UNIQUE"] else []) ++
  match indexOf toks "DEFAULT" with
  | Some i =>
      match toks !! (i + 1)%nat with
      | Some t => ["DEFAULT " +:+ t]
      | None => []
      end
  | None => []
  end.

(** The tokens of a raw constraint string. *)
Definition tokens (raw : string) : list string := split " " (toUpperCase raw).

(** The specification read literally: only the tokens decide the fragments. *)
Definition tokens_alone_decide (col : ColumnDefinition) : Prop :=
  forall raw, constraints col = Some raw ->
    constraintOptions col = expectedOptions false (tokens raw).

Definition declaredPrimaryAutoincrement : ColumnDefinition :=
  mkColumnDefinition "id" "integer" None None None (Some true) None None
    (Some "AUTOINCREMENT").

(** C7 (counterexample): a column declared with [primary_key: true] and the
    constraint string [AUTOINCREMENT] gets the fragment AUTOINCREMENT although
    the token PRIMARY is absent. *)
Lemma C7_declared_flag_counterexample :
  ~ tokens_alone_decide declaredPrimaryAutoincrement
  /\ "AUTOINCREMENT" ∈ constraintOptions declaredPrimaryAutoincrement
  /\ "PRIMARY" ∉ tokens "AUTOINCREMENT".
Proof.
  split; [|split].
  - intros H. specialize (H "AUTOINCREMENT" eq_refl). vm_compute in H. discriminate.
  - vm_compute. apply list_elem_of_here.
  - vm_compute. intros H. apply list_elem_of_singleton in H. discriminate.
Qed.

Lemma scan_primary_spec toks (st : ScanState) :
  (scan_primary toks st).2 =
    st.2 ++ (if includes toks "PRIMARY" then ["PRIMARY KEY"] else [])
  /\ truthy_flag (primary_key (scan_primary toks st).1) =
       includes toks "PRIMARY" || truthy_flag (primary_key st.1).
Proof.
  unfold scan_primary. destruct (includes toks "PRIMARY"); cbn [fst snd orb].
  - split; reflexivity.
  - split; [symmetry; apply app_nil_r | reflexivity].
Qed.

Lemma scan_autoincrement_spec toks (st : ScanState) :
  (scan_autoincrement toks st).2 =
    st.2 ++ (if (includes toks "AUTO_INCREMENT" || includes toks "AUTOINCREMENT")
                && truthy_flag (primary_key st.1)
             then ["AUTOINCREMENT"] else [])
  /\ primary_key (scan_autoincrement toks st).1 = primary_key st.1.
Proof.
  unfold scan_autoincrement.
  destruct (includes toks "AUTO_INCREMENT" || includes toks "AUTOINCREMENT");
    cbn [fst snd andb].
  - split; [|reflexivity].
    destruct (truthy_flag (primary_key st.1)); [reflexivity|].
    symmetry; apply app_nil_r.
  - split; [symmetry; apply app_nil_r | reflexivity].
Qed.

Lemma scan_not_null_spec toks (st : ScanState) :
  (scan_not_null toks st).2 =
    st.2 ++ (if includes toks "NOT" && includes toks "NULL"
             then ["NOT NULL"] else [])
  /\ primary_key (scan_not_null toks st).1 = primary_key st.1.
Proof.
  unfold scan_not_null.
  destruct (includes toks "NOT" && includes toks "NULL"); cbn [fst snd].
  - split; reflexivity.
  - split; [symmetry; apply app_nil_r | reflexivity].
Qed.

Lemma scan_unique_spec toks (st : ScanState) :
  (scan_unique toks st).2 =
    st.2 ++ (if includes toks "UNIQUE" && negb (truthy_flag (primary_key st.1))
             then ["UNIQUE"] else []).
Proof.
  unfold scan_unique. destruct (includes toks "UNIQUE"); cbn [fst snd andb].
  - destruct (truthy_flag (primary_key st.1)); cbn [negb];
      [symmetry; apply app_nil_r | reflexivity].
  - symmetry; apply app_nil_r.
Qed.

Lemma scan_default_spec toks (st : ScanState) :
  (scan_default toks st).2 =
    st.2 ++ match indexOf toks "DEFAULT" with
            | Some i =>
                match toks !! (i + 1)%nat with
                | Some t => ["DEFAULT " +:+ t]
                | None => []
                end
            | None => []
            end.
Proof.
  unfold scan_default.
  destruct (indexOf toks "DEFAULT") as [i|]; [|symmetry; apply app_nil_r].
  destruct (toks !! (i + 1)%nat); [reflexivity | symmetry; apply app_nil_r].
Qed.

Lemma constraintOptions_spec (col : ColumnDefinition) :
  constraintOptions col =
    match constraints col with
    | Some raw => expectedOptions (truthy_flag (primary_key col)) (tokens raw)
    | None => []
    end.
Proof.
  unfold constraintOptions, scanConstraints.
  destruct (constraints col) as [[|c raw]|]; [reflexivity| |reflexivity].
  fold (tokens (String c raw)). generalize (tokens (String c raw)) as toks.
  intros toks. unfold expectedOptions.
  rewrite scan_default_spec, scan_unique_spec.
  destruct (scan_not_null_spec toks
              (scan_autoincrement toks (scan_primary toks (col, []))))
    as [-> ->].
  destruct (scan_autoincrement_spec toks (scan_primary toks (col, [])))
    as [-> ->].
  destruct (scan_primary_spec toks (col, [])) as [-> ->].
  cbn [fst snd app]. rewrite <- !app_assoc. reflexivity.
Qed.

(** The conversion of the column type does not influence the scan. *)
Lemma constraintOptions_set_type (t : string) (col : ColumnDefinition) :
  constraintOptions (set_type t col) = constraintOptions col.
Proof. rewrite !constraintOptions_spec. reflexivity. Qed.

(** C7 (amended): the scanner emits, in this order, PRIMARY KEY iff the token
    PRIMARY is present; AUTOINCREMENT iff AUTO_INCREMENT or AUTOINCREMENT is
    present and the primary-key flag is set (by the token PRIMARY or by the
    declaration); NOT NULL iff NOT and NULL are both present; UNIQUE iff
    UNIQUE is present and the primary-key flag is not set; DEFAULT t for the
    token t right after the first DEFAULT; nothing else.  The option key of
    the processed column is these fragments joined by spaces and trimmed. *)
Theorem C7_scanner_fragments (cfg : option TypeMapping) (col : ColumnDefinition) :
  constraintOptions col =
    match constraints col with
    | Some raw => expectedOptions (truthy_flag (primary_key col)) (tokens raw)
    | None => []
    end
  /\ option_key (processColumnDefinition cfg col) =
       Some (trim (join " " (constraintOptions col))).
Proof.
  split; [apply constraintOptions_spec|].
  rewrite <- (constraintOptions_set_type (convertToSQLiteType cfg (cd_type col)) col).
  reflexivity.
Qed.

End ConstraintScanner.

(** ** The declarative builders: SQL text and bound values *)
Section SqlShape.
Import DAOPure.

(** The SQL text of a built statement, or the error thrown instead. *)
Definition sql_of (r : Error + Statement) : Error + string :=
  match r with
  | inl e => inl e
  | inr st => inr st.1
  end.

Definition where_names (ws : option (list WhereClause)) : option (list string) :=
  map where_name <$> ws.

(** Two descriptors that differ at most in the values of their columns and
    of their WHERE entries. *)
Definition same_names (t1 t2 : QueryTable) : Prop :=
  qt_name t1 = qt_name t2 /\
  map col_name (cols t1) = map col_name (cols t2) /\
  where_names (wheres t1) = where_names (wheres t2) /\
  orderbys t1 = orderbys t2 /\
  limitOffset t1 = limitOffset t2.

(** What [insert] and [update] ask of the column values besides binding
    them: which are present (neither undefined nor null), which are defined. *)
Definition presence (t : QueryTable) : list bool :=
  map (fun c => is_present (col_value c)) (cols t).
Definition definedness (t : QueryTable) : list bool :=
  map (fun c => is_defined (col_value c)) (cols t).

(** The specification read literally, for the statements of [insert] and
    [update]: only the names decide the SQL text. *)
Definition names_alone_decide_sql : Prop :=
  forall t1 t2, same_names t1 t2 ->
    sql_of (insertStatement t1) = sql_of (insertStatement t2) /\
    sql_of (updateStatement t1) = sql_of (updateStatement t2).

Definition usersWith (v : JsValue) : QueryTable :=
  mkQueryTable "users"
    [mkColumn "username" (VStr "a"); mkColumn "email" v]
    (Some [mkWhere "id" (VNum 1) None]) None None.

Lemma where_sql_names (ws : option (list WhereClause)) (clause : string) :
  (buildWhereClause ws clause).1 =
    match where_names ws with
    | None | Some [] => EmptyString
    | Some ns =>
        " " +:+ clause +:+ " " +:+ join " AND " (map (fun n => n +:+ " = ?") ns)
    end.
Proof.
  destruct ws as [[|w l]|]; try reflexivity.
  unfold buildWhereClause, where_names. cbn [fst fmap option_fmap option_map].
  rewrite <- (map_map where_name (fun n => n +:+ " = ?")). reflexivity.
Qed.

Lemma where_params (ws : option (list WhereClause)) (clause : string) :
  (buildWhereClause ws clause).2 = map where_value (default [] ws).
Proof. destruct ws as [[|w l]|]; reflexivity. Qed.

Lemma in_wheres_names ws name :
  in_wheres ws name =
    match where_names ws with
    | Some ns => existsb (fun n => String.eqb n name) ns
    | None => false
    end.
Proof.
  destruct ws as [l|]; [|reflexivity]. cbn.
  induction l as [|w l IH]; [reflexivity|]. cbn. by rewrite IH.
Qed.

Lemma map_pair_eq {A B C} (f : A -> B) (g : A -> C) (l1 l2 : list A) :
  map f l1 = map f l2 -> map g l1 = map g l2 ->
  map (fun x => (f x, g x)) l1 = map (fun x => (f x, g x)) l2.
Proof.
  revert l2. induction l1 as [|x l1 IH]; intros [|y l2]; cbn; try discriminate;
    [reflexivity|].
  intros [= Hf Hfs] [= Hg Hgs]. rewrite Hf, Hg. f_equal. by apply IH.
Qed.

(** A filter and a projection that only look at the name and at one flag of
    a column give the same list on two column lists with the same names and
    flags. *)
Lemma filter_by_shape {B} (flag : Column -> bool) (g : Column -> B)
    (P : Column -> bool) (g' : string * bool -> B) (P' : string * bool -> bool) :
  (forall c, g c = g' (col_name c, flag c)) ->
  (forall c, P c = P' (col_name c, flag c)) ->
  forall l1 l2,
    map col_name l1 = map col_name l2 -> map flag l1 = map flag l2 ->
    map g (List.filter P l1) = map g (List.filter P l2).
Proof.
  intros Hg HP.
  assert (Hfac : forall l,
            map g (List.filter P l)
            = map g' (List.filter P' (map (fun c => (col_name c, flag c)) l))).
  { induction l as [|c l IH]; [reflexivity|]. cbn. rewrite HP.
    destruct (P' (col_name c, flag c)); cbn; rewrite IH;
      [by rewrite Hg | reflexivity]. }
  intros l1 l2 H1 H2. by rewrite !Hfac, (map_pair_eq _ _ _ _ H1 H2).
Qed.

Lemma insert_sql_by_shape t1 t2 :
  same_names t1 t2 -> presence t1 = presence t2 ->
  sql_of (insertStatement t1) = sql_of (insertStatement t2).
Proof.
  intros (Hn & Hc & _) Hp.
  unfold insertStatement.
  set (P := fun c : Column => is_present (col_value c)).
  pose proof (filter_by_shape P col_name P (fun s => s.1) (fun s => s.2)
                (fun _ => eq_refl) (fun _ => eq_refl) _ _ Hc Hp) as Hnames.
  pose proof (filter_by_shape P (fun _ => "?") P (fun _ => "?") (fun s => s.2)
                (fun _ => eq_refl) (fun _ => eq_refl) _ _ Hc Hp) as Hph.
  destruct (List.filter P (cols t1)) as [|c1 l1],
           (List.filter P (cols t2)) as [|c2 l2]; try discriminate;
    [reflexivity|].
  cbn [sql_of fst]. by rewrite Hn, Hnames, Hph.
Qed.

Lemma update_sql_by_shape t1 t2 :
  same_names t1 t2 -> definedness t1 = definedness t2 ->
  sql_of (updateStatement t1) = sql_of (updateStatement t2).
Proof.
  intros (Hn & Hc & Hw & _) Hd.
  unfold updateStatement.
  set (P1 := fun c : Column =>
               is_defined (col_value c) && negb (in_wheres (wheres t1) (col_name c))).
  set (P2 := fun c : Column =>
               is_defined (col_value c) && negb (in_wheres (wheres t2) (col_name c))).
  assert (HP : forall c, P2 c = P1 c).
  { intros c. unfold P1, P2. by rewrite !in_wheres_names, Hw. }
  rewrite (filter_ext P2 P1 HP).
  set (P' := fun s : string * bool =>
               s.2 && negb (in_wheres (wheres t1) s.1)).
  pose proof (filter_by_shape (fun c => is_defined (col_value c))
                (fun c => col_name c +:+ " = ?") P1
                (fun s => s.1 +:+ " = ?") P'
                (fun _ => eq_refl) (fun _ => eq_refl) _ _ Hc Hd) as Hset.
  pose proof (where_sql_names (wheres t1) "WHERE") as Hw1.
  pose proof (where_sql_names (wheres t2) "WHERE") as Hw2.
  rewrite <- Hw in Hw2. rewrite <- Hw1 in Hw2.
  destruct (List.filter P1 (cols t1)) as [|c1 l1],
           (List.filter P1 (cols t2)) as [|c2 l2]; try discriminate;
    [reflexivity|].
  rewrite Hw2, Hn, Hset.
  destruct ((buildWhereClause (wheres t1) "WHERE").1); reflexivity.
Qed.

Lemma delete_sql_by_names t1 t2 :
  same_names t1 t2 ->
  sql_of (deleteStatement t1) = sql_of (deleteStatement t2).
Proof.
  intros (Hn & _ & Hw & _).
  unfold deleteStatement.
  pose proof (where_sql_names (wheres t1) "WHERE") as Hw1.
  pose proof (where_sql_names (wheres t2) "WHERE") as Hw2.
  rewrite <- Hw in Hw2. rewrite <- Hw1 in Hw2. rewrite Hw2, Hn.
  destruct ((buildWhereClause (wheres t1) "WHERE").1); reflexivity.
Qed.

Lemma select_sql_by_names t1 t2 suffix :
  same_names t1 t2 ->
  (buildSelectQuery t1 suffix).1 = (buildSelectQuery t2 suffix).1.
Proof.
  intros (Hn & Hc & Hw & Ho & Hl).
  unfold buildSelectQuery. cbn [fst].
  pose proof (where_sql_names (wheres t1) "WHERE") as Hw1.
  pose proof (where_sql_names (wheres t2) "WHERE") as Hw2.
  rewrite <- Hw in Hw2. rewrite <- Hw1 in Hw2.
  rewrite Hw2, Hn, Ho, Hl.
  destruct (cols t1) as [|a1 l1], (cols t2) as [|a2 l2]; try discriminate;
    [reflexivity|].
  by rewrite Hc.
Qed.

(** C2 (counterexample): two descriptors with the same names, one with the
    column [email] set to a string and one with it set to [null], give
    different INSERT texts; with [undefined] the UPDATE texts differ too. *)
Lemma C2_column_presence_counterexample :
  ~ names_alone_decide_sql
  /\ same_names (usersWith (VStr "b@x.com")) (usersWith VNull)
  /\ sql_of (insertStatement (usersWith (VStr "b@x.com")))
       = inr "INSERT INTO users (username, email) VALUES (?, ?)"
  /\ sql_of (insertStatement (usersWith VNull))
       = inr "INSERT INTO users (username) VALUES (?)"
  /\ sql_of (updateStatement (usersWith (VStr "b@x.com")))
       = inr "UPDATE users SET username = ?, email = ? WHERE id = ?"
  /\ sql_of (updateStatement (usersWith VUndefined))
       = inr "UPDATE users SET username = ? WHERE id = ?".
Proof.
  split; [|repeat split].
  intros H.
  destruct (H (usersWith (VStr "b@x.com")) (usersWith VNull)) as [Hi _].
  { repeat split. }
  vm_compute in Hi. discriminate.
Qed.

(** The columns whose values [insert] binds: those with a present value. *)
Definition insertedColumns (t : QueryTable) : list Column :=
  List.filter (fun c => is_present (col_value c)) (cols t).

(** The columns [update] sets: those with a defined value whose name is not
    the name of a WHERE entry. *)
Definition setColumns (t : QueryTable) : list Column :=
  List.filter (fun c => is_defined (col_value c)
                        && negb (in_wheres (wheres t) (col_name c))) (cols t).

(** What is bound for a column: the value, or its JSON text when it is an
    object. *)
Definition boundValue (c : Column) : JsValue := stringify_if_object (col_value c).

(** C2 (amended): for two descriptors with the same table name, column
    names, WHERE names, ORDER BY and LIMIT/OFFSET, the SQL text of
    [buildWhereClause], [buildSelectQuery] and of the statement of [delete] is
    the same whatever the values; the text of the statement of [insert] is the
    same when the same columns are present (neither undefined nor null), and
    that of [update] when the same columns are defined.  Every value is
    carried in the parameter list: the WHERE values are exactly the
    parameters of the WHERE clause, of the SELECT and of the DELETE; the
    parameters of the INSERT are exactly the values of the present columns,
    in column order; those of the UPDATE are the values of the SET columns,
    in column order, followed by the WHERE values (a value that is an object
    is bound as its JSON text). *)
Theorem C2_sql_text_ignores_values (t1 t2 : QueryTable) (clause suffix : string) :
  same_names t1 t2 ->
  (buildWhereClause (wheres t1) clause).1 = (buildWhereClause (wheres t2) clause).1
  /\ (buildSelectQuery t1 suffix).1 = (buildSelectQuery t2 suffix).1
  /\ sql_of (deleteStatement t1) = sql_of (deleteStatement t2)
  /\ (presence t1 = presence t2 ->
      sql_of (insertStatement t1) = sql_of (insertStatement t2))
  /\ (definedness t1 = definedness t2 ->
      sql_of (updateStatement t1) = sql_of (updateStatement t2))
  /\ (buildWhereClause (wheres t1) clause).2 = map where_value (default [] (wheres t1))
  /\ (buildSelectQuery t1 suffix).2 = map where_value (default [] (wheres t1))
  /\ (forall st, deleteStatement t1 = inr st ->
        st.2 = map where_value (default [] (wheres t1)))
  /\ (forall st, insertStatement t1 = inr st ->
        st.2 = map boundValue (insertedColumns t1))
  /\ (forall st, updateStatement t1 = inr st ->
        st.2 = map boundValue (setColumns t1)
               ++ map where_value (default [] (wheres t1))).
Proof.
  intros H.
  split.
  { destruct H as (_ & _ & Hw & _).
    by rewrite (where_sql_names (wheres t1)), (where_sql_names (wheres t2)), Hw. }
  split. { by apply select_sql_by_names. }
  split. { by apply delete_sql_by_names. }
  split. { by apply insert_sql_by_shape. }
  split. { by apply update_sql_by_shape. }
  split. { apply where_params. }
  split. { unfold buildSelectQuery. cbn [snd]. apply where_params. }
  split.
  { intros st. unfold deleteStatement.
    destruct ((buildWhereClause (wheres t1) "WHERE").1); [discriminate|].
    intros [= <-]. cbn [snd]. apply where_params. }
  split.
  - intros st. unfold insertStatement, insertedColumns.
    destruct (List.filter _ (cols t1)) as [|c l]; [discriminate|].
    by intros [= <-].
  - intros st. unfold updateStatement, setColumns.
    destruct (List.filter _ (cols t1)) as [|c l]; [discriminate|].
    destruct ((buildWhereClause (wheres t1) "WHERE").1); [discriminate|].
    intros [= <-]. cbn [snd]. by rewrite where_params.
Qed.

(** A value written to look like SQL changes nothing in the text and is
    found, as it is, in the parameter list. *)
Lemma C2_sql_text_ignores_values_witness :
  same_names (usersWith (VStr "b@x.com")) (usersWith (VStr "x'; DROP TABLE users;--"))
  /\ sql_of (insertStatement (usersWith (VStr "b@x.com")))
     = sql_of (insertStatement (usersWith (VStr "x'; DROP TABLE users;--")))
  /\ (forall st,
        insertStatement (usersWith (VStr "x'; DROP TABLE users;--")) = inr st ->
        st.2 = [VStr "a"; VStr "x'; DROP TABLE users;--"])
  /\ (forall st,
        updateStatement (usersWith (VStr "x'; DROP TABLE users;--")) = inr st ->
        st.2 = [VStr "a"; VStr "x'; DROP TABLE users;--"; VNum 1]).
Proof.
  assert (H : same_names (usersWith (VStr "b@x.com"))
                         (usersWith (VStr "x'; DROP TABLE users;--"))).
  { repeat split. }
  assert (H' : same_names (usersWith (VStr "x'; DROP TABLE users;--"))
                          (usersWith (VStr "b@x.com"))).
  { repeat split. }
  split; [exact H|]. split.
  - exact (proj1 (proj2 (proj2 (proj2
             (C2_sql_text_ignores_values _ _ "WHERE" "" H)))) eq_refl).
  - destruct (C2_sql_text_ignores_values _ _ "WHERE" "" H')
      as (_ & _ & _ & _ & _ & _ & _ & _ & Hi & Hu).
    split; intros st Hst; [exact (Hi st Hst) | exact (Hu st Hst)].
Defined.

End SqlShape.

(** ** Guards of [update] and [delete] *)
Section UpdateDeleteGuards.
Import DAOPure.

(** The WHERE list is empty or absent. *)
Definition no_where (t : QueryTable) : Prop :=
  wheres t = None \/ wheres t = Some [].

(** A column of the SET list: its value is defined and no WHERE entry has
    its name. *)
Definition in_set_list (t : QueryTable) (c : Column) : Prop :=
  c ∈ cols t /\ col_value c <> VUndefined /\
  forall ws w, wheres t = Some ws -> w ∈ ws -> where_name w <> col_name c.

Definition set_list_empty (t : QueryTable) : Prop :=
  forall c, ~ in_set_list t c.

Definition where_text (ws : list WhereClause) : string :=
  " WHERE " +:+ join " AND " (map (fun w => where_name w +:+ " = ?") ws).

Lemma in_wheres_false ws name :
  in_wheres ws name = false <->
  forall l w, ws = Some l -> w ∈ l -> where_name w <> name.
Proof.
  destruct ws as [l|]; cbn.
  - split.
    + intros H l' w [= <-] Hin Heq.
      assert (existsb (fun w => String.eqb (where_name w) name) l = true) as E.
      { apply existsb_exists. exists w. split; [by apply list_elem_of_In|].
        by apply String.eqb_eq. }
      congruence.
    + intros H. apply not_true_is_false. intros E.
      apply existsb_exists in E as (w & Hin & Heq).
      apply String.eqb_eq in Heq. apply list_elem_of_In in Hin.
      by apply (H l w eq_refl Hin).
  - split; [intros _ l w [=] | reflexivity].
Qed.

Lemma set_list_empty_filter t :
  set_list_empty t ->
  List.filter (fun c => is_defined (col_value c)
                        && negb (in_wheres (wheres t) (col_name c))) (cols t) = [].
Proof.
  intros H.
  destruct (List.filter _ (cols t)) as [|c l] eqn:E; [reflexivity|].
  exfalso. apply (H c).
  assert (In c (List.filter (fun c => is_defined (col_value c)
                        && negb (in_wheres (wheres t) (col_name c))) (cols t))) as Hin.
  { rewrite E. by left. }
  apply filter_In in Hin as [Hin HP].
  apply andb_true_iff in HP as [Hd Hw].
  split; [by apply list_elem_of_In|]. split.
  - intros Hv. rewrite Hv in Hd. discriminate.
  - apply in_wheres_false. by apply negb_true_iff.
Qed.

Lemma filter_nonempty_set_list t :
  ~ set_list_empty t ->
  List.filter (fun c => is_defined (col_value c)
                        && negb (in_wheres (wheres t) (col_name c))) (cols t) <> [].
Proof.
  intros H E. apply H. intros c (Hin & Hv & Hw).
  assert (In c (List.filter (fun c => is_defined (col_value c)
                        && negb (in_wheres (wheres t) (col_name c))) (cols t))) as Hc.
  { apply filter_In. split; [by apply list_elem_of_In|].
    apply andb_true_iff. split.
    - by destruct (col_value c).
    - apply negb_true_iff. by apply in_wheres_false. }
  rewrite E in Hc. destruct Hc.
Qed.

Lemma no_where_clause t :
  no_where t -> buildWhereClause (wheres t) "WHERE" = (EmptyString, []).
Proof. by intros [-> | ->]. Qed.

Lemma updateStatement_filtered t st :
  updateStatement t = inr st ->
  exists ws setClause,
    wheres t = Some ws /\ ws <> [] /\
    st.1 = ("UPDATE " +:+ qt_name t +:+ " SET " +:+ setClause) +:+ where_text ws.
Proof.
  unfold updateStatement.
  destruct (List.filter _ (cols t)) as [|c l]; [discriminate|].
  destruct (wheres t) as [[|w ws]|] eqn:Hw; try discriminate.
  intros [= <-]. exists (w :: ws).
  exists (join ", " (map (fun c0 => col_name c0 +:+ " = ?") (c :: l))).
  split; [reflexivity|]. split; [discriminate|]. reflexivity.
Qed.

Lemma deleteStatement_filtered t st :
  deleteStatement t = inr st ->
  exists ws,
    wheres t = Some ws /\ ws <> [] /\
    st.1 = ("DELETE FROM " +:+ qt_name t) +:+ where_text ws.
Proof.
  unfold deleteStatement.
  destruct (wheres t) as [[|w ws]|] eqn:Hw; try discriminate.
  intros [= <-]. exists (w :: ws). split; [reflexivity|].
  split; [discriminate|]. reflexivity.
Qed.

(** C6: [update] throws and leaves the world as it is (no statement reaches
    the engine) when its SET list is empty, and when the WHERE list is empty
    or absent; [delete] does so when the WHERE list is empty or absent; a
    statement that either of them builds ends in a WHERE clause over a
    non-empty WHERE list. *)
Theorem C6_update_delete_reject (env : Env) (w : World) (d : loc) (t : QueryTable) :
  (set_list_empty t ->
     DAO.update d t env w = (inl (mkError "No columns to update"), w))
  /\ (no_where t -> ~ set_list_empty t ->
     DAO.update d t env w
     = (inl (mkError "WHERE clause is required for UPDATE operation"), w))
  /\ (no_where t -> exists e, DAO.update d t env w = (inl e, w))
  /\ (no_where t ->
     DAO.delete d t env w
     = (inl (mkError "WHERE clause is required for DELETE operation"), w))
  /\ (forall st, updateStatement t = inr st ->
        exists ws setClause,
          wheres t = Some ws /\ ws <> [] /\
          st.1 = ("UPDATE " +:+ qt_name t +:+ " SET " +:+ setClause) +:+ where_text ws)
  /\ (forall st, deleteStatement t = inr st ->
        exists ws,
          wheres t = Some ws /\ ws <> [] /\
          st.1 = ("DELETE FROM " +:+ qt_name t) +:+ where_text ws).
Proof.
  assert (Hempty : set_list_empty t ->
            DAO.update d t env w = (inl (mkError "No columns to update"), w)).
  { intros H. unfold DAO.update, updateStatement.
    by rewrite (set_list_empty_filter t H). }
  assert (Hnowhere : no_where t -> ~ set_list_empty t ->
            DAO.update d t env w
            = (inl (mkError "WHERE clause is required for UPDATE operation"), w)).
  { intros Hw Hs. unfold DAO.update, updateStatement.
    pose proof (filter_nonempty_set_list t Hs) as Hne.
    destruct (List.filter _ (cols t)) as [|c l]; [done|].
    by rewrite (no_where_clause t Hw). }
  split; [exact Hempty|]. split; [exact Hnowhere|]. split.
  { intros Hw.
    destruct (List.filter (fun c => is_defined (col_value c)
                && negb (in_wheres (wheres t) (col_name c))) (cols t))
      as [|c l] eqn:E.
    - eexists. unfold DAO.update, updateStatement. by rewrite E.
    - eexists. unfold DAO.update, updateStatement. rewrite E.
      by rewrite (no_where_clause t Hw). }
  split.
  { intros Hw. unfold DAO.delete, deleteStatement.
    by rewrite (no_where_clause t Hw). }
  split; [apply updateStatement_filtered | apply deleteStatement_filtered].
Qed.

Definition emptyManager : DatabaseManager :=
  mkDatabaseManager false 5 ∅ false ∅ None [].
Definition emptyRegistry : ServiceManager := mkServiceManager ∅ ∅ false.
Definition emptyWorld : World := mkWorld [] [] [] emptyManager emptyRegistry.

(** An engine that accepts every call. *)
Definition healthyEnv : Env :=
  mkEnv "/data/documents" ["core"]
    (fun _ _ => inr true) (fun _ _ => None) (fun _ _ _ => None)
    (fun _ _ _ _ => inr []) (fun _ _ => None).

Definition updateWithoutWhere : QueryTable :=
  mkQueryTable "users" [mkColumn "email" (VStr "b@x.com")] None None None.

Lemma C6_update_delete_reject_witness :
  DAO.update 0 updateWithoutWhere healthyEnv emptyWorld
  = (inl (mkError "WHERE clause is required for UPDATE operation"), emptyWorld)
  /\ DAO.delete 0 updateWithoutWhere healthyEnv emptyWorld
     = (inl (mkError "WHERE clause is required for DELETE operation"), emptyWorld).
Proof.
  pose proof (C6_update_delete_reject healthyEnv emptyWorld 0 updateWithoutWhere)
    as (_ & Hu & _ & Hd & _).
  split.
  - apply Hu; [by left|].
    intros H. apply (H (mkColumn "email" (VStr "b@x.com"))).
    split; [apply list_elem_of_here|]. split; [discriminate|].
    intros ws w0 [=].
  - apply Hd. by left.
Defined.

End UpdateDeleteGuards.

(** ** Access control of [DatabaseManager.get] *)
Section AccessControl.
Import Manager.

(** The wanted set in the words of the specification: the default key, and
    every required or optional key of an active role. *)
Definition in_wanted_set (reg : gmap string RoleConfig) (roles : list string)
    (k : string) : Prop :=
  k = "core" \/
  exists role rc,
    role ∈ roles /\ reg !! role = Some rc /\
    (k ∈ requiredDatabases rc \/
     exists opt, optionalDatabases rc = Some opt /\ k ∈ opt).

Lemma elem_of_set_add k x (s : list string) :
  k ∈ set_add x s <-> k ∈ s \/ k = x.
Proof.
  unfold set_add. case_bool_decide as Hx.
  - split; [by left|]. intros [H | ->]; done.
  - rewrite elem_of_app, list_elem_of_singleton. done.
Qed.

Lemma elem_of_add_all k (l acc : list string) :
  k ∈ foldl (fun a x => set_add x a) acc l <-> k ∈ acc \/ k ∈ l.
Proof.
  revert acc. induction l as [|x l IH]; intros acc; cbn.
  - split; [by left|]. intros [H|H]; [done|]. by apply elem_of_nil in H.
  - rewrite IH, elem_of_set_add, elem_of_cons. tauto.
Qed.

Lemma elem_of_add_role_databases reg acc role k :
  k ∈ add_role_databases reg acc role <->
  k ∈ acc \/
  exists rc, reg !! role = Some rc /\
    (k ∈ requiredDatabases rc \/
     exists opt, optionalDatabases rc = Some opt /\ k ∈ opt).
Proof.
  unfold add_role_databases.
  destruct (reg !! role) as [rc|].
  - destruct (optionalDatabases rc) as [opt|] eqn:Ho.
    + rewrite !elem_of_add_all. split.
      * intros [[H|H]|H]; [by left| |].
        -- right. exists rc. split; [done|]. by left.
        -- right. exists rc. split; [done|]. right. by exists opt.
      * intros [H|(rc' & [= <-] & [H|(opt' & Ho' & H)])].
        -- by left; left.
        -- by left; right.
        -- right. congruence.
    + rewrite elem_of_add_all. split.
      * intros [H|H]; [by left|]. right. exists rc. split; [done|]. by left.
      * intros [H|(rc' & [= <-] & [H|(opt' & Ho' & H)])].
        -- by left.
        -- by right.
        -- congruence.
  - split; [by left|]. intros [H|(rc & Hr & _)]; [done|discriminate].
Qed.

Lemma elem_of_fold_roles reg roles acc k :
  k ∈ foldl (add_role_databases reg) acc roles <->
  k ∈ acc \/
  exists role rc,
    role ∈ roles /\ reg !! role = Some rc /\
    (k ∈ requiredDatabases rc \/
     exists opt, optionalDatabases rc = Some opt /\ k ∈ opt).
Proof.
  revert acc. induction roles as [|r roles IH]; intros acc; cbn.
  - split; [by left|]. intros [H|(role & rc & H & _)]; [done|].
    by apply elem_of_nil in H.
  - rewrite IH, elem_of_add_role_databases. split.
    + intros [[H|(rc & Hr & Hk)]|(role & rc & Hin & Hr & Hk)].
      * by left.
      * right. exists r, rc. split; [apply list_elem_of_here|done].
      * right. exists role, rc. split; [by apply list_elem_of_further|done].
    + intros [H|(role & rc & Hin & Hr & Hk)]; [by left; left|].
      apply elem_of_cons in Hin as [->|Hin].
      * left. right. by exists rc.
      * right. by exists role, rc.
Qed.

(** The array computed by the code holds exactly the wanted set. *)
Lemma roleDatabases_spec reg roles k :
  k ∈ roleDatabases reg roles <-> in_wanted_set reg roles k.
Proof.
  unfold roleDatabases, in_wanted_set.
  rewrite elem_of_fold_roles, list_elem_of_singleton. done.
Qed.


Lemma core_always_wanted reg roles : "core" ∈ roleDatabases reg roles.
Proof. apply roleDatabases_spec. by left. Qed.

Lemma connectionAt_stored m k (d : loc) :
  connections m !! k = Some d -> connectionAt m k = Some (HDao d).
Proof. unfold connectionAt. by intros ->. Qed.

Lemma connectionAt_absent m k :
  connections m !! k = None -> k ∉ objectPrototypeKeys -> connectionAt m k = None.
Proof.
  unfold connectionAt, includes. intros -> Hk. by rewrite bool_decide_eq_false_2.
Qed.







Definition staffRole : RoleConfig := mkRoleConfig "staff" ["core"] None None.

(** The role [staff] is active; a connection for [analytics] is still cached
    although no active role wants it; [core] is wanted but not connected. *)
Definition staleAnalyticsWorld : World :=
  mkWorld []
    [mkDAO (Some nativeHandle) true true "analytics.db" false None] []
    (mkDatabaseManager false 5 {["analytics" := 0%nat]} true
       {["staff" := staffRole]} (Some "staff") ["staff"])
    emptyRegistry.


End AccessControl.

(** ** One transaction per connection handle *)
Section Transactions.
Import DAO.

Ltac run_async :=
  unfold bind, ret, throw, ask, get_world, modify, emit_event, native_unit,
    native_result, read, write in *; cbn [fst snd] in *.

(** Outcome of the native call of [runSql]: the heap is untouched; either
    nothing reached the engine, or exactly the statement did. *)
Lemma runSql_outcome env w d o sql params :
  daoHeap w !! d = Some o ->
  exists w' r,
    runSql d sql params env w = (r, w') /\
    daoHeap w' = daoHeap w /\ serviceHeap w' = serviceHeap w /\
    manager w' = manager w /\ registry w' = registry w /\
    (isConnected o = false ->
       r = inl (mkError "Database is not initialized") /\ w' = w) /\
    (isConnected o = true ->
       trace w' = trace w ++ [EvExecuteSql d sql params] /\
       match db_executeSql env (trace w) d sql params with
       | inl e => r = inl e
       | inr _ => r = inr ("Executed: " +:+ sql)
       end).
Proof.
  intros Hd. unfold runSql, executeSql, isConnected. run_async. rewrite Hd.
  destruct (db o) as [h|], (isOpen o); cbn;
    try (eexists _, _; repeat split; first [reflexivity | discriminate]).
  destruct (db_executeSql env (trace w) d sql params) as [e|rows];
    eexists _, _; repeat split; first [reflexivity | discriminate | idtac].
Qed.

Inductive TxCall : Type := CallBegin | CallCommit | CallRollback.

Definition txCall (d : loc) (c : TxCall) : Async unit :=
  match c with
  | CallBegin => beginTransaction d
  | CallCommit => commitTransaction d
  | CallRollback => rollbackTransaction d
  end.

Definition txSql (c : TxCall) : string :=
  match c with
  | CallBegin => "BEGIN TRANSACTION"
  | CallCommit => "COMMIT"
  | CallRollback => "ROLLBACK"
  end.

(** The value of [inTransaction] a call insists on, and the error of its
    guard. *)
Definition txExpects (c : TxCall) : bool :=
  match c with CallBegin => false | _ => true end.

Definition txGuardError (c : TxCall) : Error :=
  match c with
  | CallBegin => mkError "Transaction already in progress"
  | _ => mkError "No transaction in progress"
  end.

Lemma txCall_outcome env w d o c :
  daoHeap w !! d = Some o ->
  (inTransaction o <> txExpects c ->
     txCall d c env w = (inl (txGuardError c), w))
  /\ (inTransaction o = txExpects c ->
      exists r w',
        txCall d c env w = (r, w') /\
        match r with
        | inr _ =>
            daoHeap w' = <[d := set_inTransaction (negb (txExpects c)) o]> (daoHeap w)
            /\ trace w' = trace w ++ [EvExecuteSql d (txSql c) []]
        | inl _ => daoHeap w' = daoHeap w
        end).
Proof.
  intros Hd. split.
  - intros Hne. destruct c; cbn in *; unfold beginTransaction, commitTransaction,
      rollbackTransaction; run_async; rewrite Hd;
      destruct (inTransaction o); cbn; congruence.
  - intros He.
    destruct (runSql_outcome env w d o (txSql c) [] Hd)
      as (w1 & r1 & Hrun & Hheap & _ & _ & _ & Hoff & Hon).
    assert (daoHeap w1 !! d = Some o) as Hd1 by (by rewrite Hheap).
    destruct c; cbn in *; unfold beginTransaction, commitTransaction,
      rollbackTransaction; run_async; rewrite Hd, He; cbn; rewrite Hrun;
      (destruct r1 as [e|s]; [eexists _, _; split; [reflexivity|done]|]);
      rewrite Hd1; eexists _, _; (split; [reflexivity|]); cbn;
      (split; [by rewrite Hheap|]);
      (destruct (isConnected o) eqn:Hc;
        [by destruct (Hon eq_refl) | by destruct (Hoff eq_refl)]).
Qed.

(** Transactions begun and not yet ended by the successful calls of a run,
    counted from the outcomes of the calls. *)
Definition tally (c : TxCall) (r : Result unit) (active : Z) : Z :=
  match r, c with
  | inr _, CallBegin => (active + 1)%Z
  | inr _, _ => (active - 1)%Z
  | inl _, _ => active
  end.

Fixpoint runCalls (d : loc) (calls : list TxCall) (env : Env) (w : World)
    (active : Z) : Z * World :=
  match calls with
  | [] => (active, w)
  | c :: r =>
      let out := txCall d c env w in
      runCalls d r env out.2 (tally c out.1 active)
  end.

Definition flagCount (o : SQLiteDAO) : Z :=
  if inTransaction o then 1%Z else 0%Z.

Lemma runCalls_flag env d calls :
  forall w o, daoHeap w !! d = Some o ->
    exists o',
      daoHeap (runCalls d calls env w (flagCount o)).2 !! d = Some o' /\
      (runCalls d calls env w (flagCount o)).1 = flagCount o'.
Proof.
  induction calls as [|c calls IH]; intros w o Hd; cbn [runCalls].
  - by exists o.
  - destruct (txCall_outcome env w d o c Hd) as [Hguard Hrun].
    destruct (decide (inTransaction o = txExpects c)) as [He|Hne].
    + destruct (Hrun He) as (r & w' & Hcall & Hres). rewrite Hcall. cbn [fst snd].
      destruct r as [e|[]].
      * cbn [tally]. apply IH. by rewrite Hres.
      * destruct Hres as [Hheap _].
        assert (daoHeap w' !! d = Some (set_inTransaction (negb (txExpects c)) o))
          as Hd'.
        { rewrite Hheap. apply list_lookup_insert_eq.
          by apply lookup_lt_Some in Hd. }
        specialize (IH w' _ Hd').
        replace (tally c (inr ()) (flagCount o))
          with (flagCount (set_inTransaction (negb (txExpects c)) o)); [exact IH|].
        unfold flagCount. rewrite He. by destruct c.
    + rewrite (Hguard Hne). cbn [fst snd tally]. by apply IH.
Qed.

(** C4: on every handle, [beginTransaction] throws and leaves the world as
    it is (no SQL is issued) when a transaction is in progress, and so do
    [commitTransaction] and [rollbackTransaction] when none is; a call that
    succeeds has issued exactly its statement and flipped [inTransaction];
    over any sequence of such calls the number of transactions begun and not
    ended equals the flag, so it is never more than one. *)
Theorem C4_single_transaction (env : Env) (w : World) (d : loc) (o : SQLiteDAO)
    (calls : list TxCall) :
  daoHeap w !! d = Some o ->
  (inTransaction o = true ->
     beginTransaction d env w
     = (inl (mkError "Transaction already in progress"), w))
  /\ (inTransaction o = false ->
      commitTransaction d env w = (inl (mkError "No transaction in progress"), w)
      /\ rollbackTransaction d env w
         = (inl (mkError "No transaction in progress"), w))
  /\ (forall c w', txCall d c env w = (inr tt, w') ->
        inTransaction o = txExpects c
        /\ daoHeap w' !! d = Some (set_inTransaction (negb (txExpects c)) o)
        /\ trace w' = trace w ++ [EvExecuteSql d (txSql c) []])
  /\ (exists o',
        daoHeap (runCalls d calls env w (flagCount o)).2 !! d = Some o'
        /\ (runCalls d calls env w (flagCount o)).1 = flagCount o'
        /\ (0 <= (runCalls d calls env w (flagCount o)).1 <= 1)%Z).
Proof.
  intros Hd.
  split.
  { intros Ht. apply (proj1 (txCall_outcome env w d o CallBegin Hd)).
    cbn. congruence. }
  split.
  { intros Ht. split.
    - apply (proj1 (txCall_outcome env w d o CallCommit Hd)). cbn. congruence.
    - apply (proj1 (txCall_outcome env w d o CallRollback Hd)). cbn. congruence. }
  split.
  { intros c w' Hcall.
    destruct (txCall_outcome env w d o c Hd) as [Hguard Hrun].
    destruct (decide (inTransaction o = txExpects c)) as [He|Hne].
    - destruct (Hrun He) as (r & w1 & Hcall1 & Hres).
      rewrite Hcall in Hcall1. injection Hcall1 as <- <-.
      destruct Hres as [Hheap Htr]. split; [done|]. split; [|done].
      rewrite Hheap. apply list_lookup_insert_eq. by apply lookup_lt_Some in Hd.
    - rewrite (Hguard Hne) in Hcall. discriminate. }
  destruct (runCalls_flag env d calls w o Hd) as (o' & Ho' & Hcount).
  exists o'. split; [done|]. split; [done|].
  rewrite Hcount. unfold flagCount. destruct (inTransaction o'); lia.
Qed.

Definition connectedCore : SQLiteDAO :=
  mkDAO (Some nativeHandle) true true "core.db" false None.

Definition coreWorld : World :=
  mkWorld [] [connectedCore] []
    (mkDatabaseManager false 5 {["core" := 0%nat]} true ∅ None [])
    emptyRegistry.

Lemma C4_single_transaction_witness :
  (exists o',
     daoHeap (runCalls 0 [CallBegin; CallBegin; CallCommit; CallRollback]
                healthyEnv coreWorld 0%Z).2 !! 0%nat = Some o'
     /\ inTransaction o' = false)
  /\ commitTransaction 0 healthyEnv coreWorld
     = (inl (mkError "No transaction in progress"), coreWorld).
Proof.
  pose proof (C4_single_transaction healthyEnv coreWorld 0 connectedCore
                [CallBegin; CallBegin; CallCommit; CallRollback] eq_refl)
    as (_ & Hend & _ & _).
  split.
  - eexists. split; reflexivity.
  - exact (proj1 (Hend eq_refl)).
Defined.

End Transactions.

(** ** Frame rules for [Async] computations *)
Section Frames.

(** Every run of [m] relates the world before it to the world after it. *)
Definition preserves {A} (R : relation World) (m : Async A) : Prop :=
  forall env w, R w (m env w).2.

Context (R : relation World) {HR : PreOrder R}.

Lemma preserves_ret {A} (a : A) : preserves R (ret a).
Proof. intros env w. reflexivity. Qed.

Lemma preserves_throw {A} (e : Error) : preserves R (@throw A e).
Proof. intros env w. reflexivity. Qed.

Lemma preserves_ask : preserves R ask.
Proof. intros env w. reflexivity. Qed.

Lemma preserves_get_world : preserves R get_world.
Proof. intros env w. reflexivity. Qed.

Lemma preserves_native_unit o : preserves R (native_unit o).
Proof. intros env w. destruct o; reflexivity. Qed.

Lemma preserves_native_result {A} (r : Error + A) : preserves R (native_result r).
Proof. intros env w. destruct r; reflexivity. Qed.

Lemma preserves_modify f : (forall w, R w (f w)) -> preserves R (modify f).
Proof. intros H env w. apply H. Qed.

Lemma preserves_bind {A B} (m : Async A) (k : A -> Async B) :
  preserves R m -> (forall a, preserves R (k a)) -> preserves R (bind m k).
Proof.
  intros Hm Hk env w. unfold bind. specialize (Hm env w).
  destruct (m env w) as [[e|a] w']; cbn in *; [done|].
  etransitivity; [exact Hm | apply Hk].
Qed.

Lemma preserves_try_catch {A} (m : Async A) (h : Error -> Async A) :
  preserves R m -> (forall e, preserves R (h e)) -> preserves R (try_catch m h).
Proof.
  intros Hm Hh env w. unfold try_catch. specialize (Hm env w).
  destruct (m env w) as [[e|a] w']; cbn in *; [|done].
  etransitivity; [exact Hm | apply Hh].
Qed.

Lemma preserves_for_of {A} (xs : list A) (f : A -> Async unit) :
  (forall x, preserves R (f x)) -> preserves R (for_of xs f).
Proof.
  intros Hf. induction xs as [|x xs IH]; cbn.
  - apply preserves_ret.
  - apply preserves_bind; [apply Hf | intros _; exact IH].
Qed.

Lemma preserves_promise_all {A B} (xs : list A) (f : A -> Async B) :
  (forall x, preserves R (f x)) -> preserves R (promise_all xs f).
Proof.
  intros Hf. induction xs as [|x xs IH]; cbn.
  - apply preserves_ret.
  - intros env w. specialize (Hf x env w).
    destruct (f x env w) as [[e|b] w']; cbn in *.
    + etransitivity; [exact Hf | apply IH].
    + specialize (IH env w').
      destruct (promise_all xs f env w') as [[e|bs] w'']; cbn in *;
        etransitivity; eauto.
Qed.

End Frames.

(** The part [proj] of the world stays as it is. *)
Definition keeps {T} (proj : World -> T) : relation World :=
  fun w w' => proj w' = proj w.

#[local] Instance keeps_preorder {T} (proj : World -> T) : PreOrder (keeps proj).
Proof.
  split; [by intros w | intros w1 w2 w3 H1 H2; unfold keeps in *; congruence].
Qed.

Ltac preserves_step :=
  lazymatch goal with
  | |- preserves _ (bind _ _) => apply (preserves_bind _); [|intros ?]
  | |- preserves _ (try_catch _ _) => apply (preserves_try_catch _); [|intros ?]
  | |- preserves _ (ret _) => apply (preserves_ret _)
  | |- preserves _ (throw _) => apply (preserves_throw _)
  | |- preserves _ ask => apply (preserves_ask _)
  | |- preserves _ get_world => apply (preserves_get_world _)
  | |- preserves _ (native_unit _) => apply (preserves_native_unit _)
  | |- preserves _ (native_result _) => apply (preserves_native_result _)
  | |- preserves _ (for_of _ _) => apply (preserves_for_of _); intros ?
  | |- preserves _ (promise_all _ _) => apply (preserves_promise_all _); intros ?
  | |- preserves _ (match ?x with _ => _ end) => destruct x
  end.

(** ** The service cache of [ServiceManager] *)
Section ServiceCache.
Import Registry.

Lemma keeps_registry_dao_read d : preserves (keeps registry) (DAO.read d).
Proof. intros env w. unfold DAO.read. by destruct (daoHeap w !! d). Qed.

Lemma keeps_registry_service_read s : preserves (keeps registry) (Service.read s).
Proof. intros env w. unfold Service.read. by destruct (serviceHeap w !! s). Qed.

Ltac keeps_registry :=
  repeat first
    [ apply keeps_registry_dao_read
    | apply keeps_registry_service_read
    | (apply (preserves_modify _); intros ?; reflexivity)
    | preserves_step ].

Lemma keeps_registry_executeSql d sql params :
  preserves (keeps registry) (DAO.executeSql d sql params).
Proof. unfold DAO.executeSql, emit_event. keeps_registry. Qed.

Lemma keeps_registry_runSql d sql params :
  preserves (keeps registry) (DAO.runSql d sql params).
Proof.
  unfold DAO.runSql. apply (preserves_bind _); [apply keeps_registry_executeSql|].
  intros _. apply (preserves_ret _).
Qed.

Lemma keeps_registry_connect d : preserves (keeps registry) (DAO.connect d).
Proof. unfold DAO.connect, DAO.write, emit_event. keeps_registry. Qed.

Lemma keeps_registry_close d : preserves (keeps registry) (DAO.close d).
Proof. unfold DAO.close, DAO.write, emit_event. keeps_registry. Qed.

Lemma keeps_registry_openExisting name :
  preserves (keeps registry) (Factory.openExisting name).
Proof.
  unfold Factory.openExisting, emit_event.
  repeat first
    [ apply keeps_registry_connect | apply keeps_registry_close
    | apply keeps_registry_runSql
    | (intros env w; reflexivity)
    | (apply (preserves_modify _); intros ?; reflexivity)
    | preserves_step ].
Qed.

Lemma keeps_registry_getLazyLoading key :
  preserves (keeps registry) (Manager.getLazyLoading key).
Proof.
  unfold Manager.getLazyLoading, Manager.store_connection,
    Manager.setupAppStateListener.
  repeat first
    [ apply keeps_registry_openExisting | apply keeps_registry_runSql
    | (apply (preserves_modify _); intros ?; reflexivity)
    | preserves_step ].
Qed.

Lemma keeps_registry_init s : preserves (keeps registry) (Service.init s).
Proof.
  unfold Service.init, Service.write.
  repeat first
    [ apply keeps_registry_getLazyLoading | apply keeps_registry_service_read
    | (apply (preserves_modify _); intros ?; reflexivity)
    | preserves_step ].
Qed.

(** A service that [createService] returns is the one stored under the key. *)
Lemma createService_live env w schema table s w' :
  createService schema table env w = (inr s, w') ->
  services (registry w') !! createServiceKey schema table = Some s.
Proof.
  unfold createService, bind at 1, get_world.
  destruct (services (registry w) !! createServiceKey schema table) as [s0|] eqn:Hs.
  { intros [= <- <-]. exact Hs. }
  unfold try_catch.
  set (config := default (defaultConfig schema table) _).
  unfold bind at 1.
  destruct (Service.new _ schema table env w) as [[e|s1] w1] eqn:Hnew;
    [discriminate|].
  unfold bind at 1.
  destruct (match sc_primaryKeyFields config with
            | Some fields => Service.setPrimaryKeyFields s1 fields
            | None => ret tt
            end env w1) as [[e|[]] w2] eqn:Hpk; [discriminate|].
  unfold bind at 1, store_service, modify.
  unfold bind at 1.
  set (w3 := set_registry _ w2).
  pose proof (keeps_registry_init s1 env w3) as Hinit.
  destruct (DAOPure.truthy_flag (sc_autoInit config)).
  - destruct (Service.init s1 env w3) as [[e|[]] w4] eqn:Hi; [discriminate|].
    intros [= <- <-]. unfold keeps in Hinit. cbn in Hinit. rewrite Hinit.
    apply lookup_insert_eq.
  - intros [= <- <-]. apply lookup_insert_eq.
Qed.

Lemma getService_live env w schema table s w' :
  getService schema table env w = (inr s, w') ->
  services (registry w') !! createServiceKey schema table = Some s.
Proof.
  unfold getService, bind, get_world.
  destruct (services (registry w) !! createServiceKey schema table) as [s0|] eqn:Hs.
  - intros [= <- <-]. exact Hs.
  - apply createService_live.
Qed.

Lemma live_key_is_returned env w schema table s :
  services (registry w) !! createServiceKey schema table = Some s ->
  getService schema table env w = (inr s, w)
  /\ createService schema table env w = (inr s, w).
Proof.
  intros Hs. unfold getService, createService, bind, get_world.
  by rewrite Hs.
Qed.

(** C8: when [getService(schema, table)] has returned a service, the next
    call with the same names, and [createService] as well, return the same
    reference and leave the world as it is (no instance is constructed);
    the same holds for both on every key that is live in the cache. *)
Theorem C8_getService_idempotent (env env' : Env) (w w' : World)
    (schema table : string) (s : loc) :
  (getService schema table env w = (inr s, w') ->
     getService schema table env' w' = (inr s, w')
     /\ createService schema table env' w' = (inr s, w'))
  /\ (services (registry w) !! createServiceKey schema table = Some s ->
      getService schema table env w = (inr s, w)
      /\ createService schema table env w = (inr s, w)).
Proof.
  split.
  - intros H. apply live_key_is_returned. by apply (getService_live env w).
  - apply live_key_is_returned.
Qed.

Lemma C8_getService_idempotent_witness :
  exists s w',
    getService "core" "users" healthyEnv emptyWorld = (inr s, w')
    /\ getService "core" "users" healthyEnv w' = (inr s, w')
    /\ length (serviceHeap w') = 1%nat.
Proof.
  eexists _, _. split; [vm_compute; reflexivity|].
  split; [|reflexivity].
  refine (proj1 (proj1 (C8_getService_idempotent healthyEnv healthyEnv
                          emptyWorld _ "core" "users" _) _)).
  vm_compute. reflexivity.
Defined.

End ServiceCache.

(** ** Errors of [executeCrossSchemaTransaction] *)
Section CrossSchemaTransaction.
Import Manager.

(** An engine whose ROLLBACK fails. *)
Definition rollbackFailsEnv : Env :=
  mkEnv "/data/documents" ["core"]
    (fun _ _ => inr true) (fun _ _ => None) (fun _ _ _ => None)
    (fun _ _ sql _ =>
       if String.eqb sql "ROLLBACK" then inl (mkError "disk I/O error")
       else inr [])
    (fun _ _ => None).

(** An engine whose COMMIT fails on the second connection. *)
Definition secondCommitFailsEnv : Env :=
  mkEnv "/data/documents" ["core"; "analytics"]
    (fun _ _ => inr true) (fun _ _ => None) (fun _ _ _ => None)
    (fun _ d sql _ =>
       if String.eqb sql "COMMIT" && (d =? 1)%nat
       then inl (mkError "database is locked")
       else inr [])
    (fun _ _ => None).

Definition throwingCallback : list (string * Handle) -> Async unit :=
  fun _ => throw (mkError "callback failed").

Definition quietCallback : list (string * Handle) -> Async unit :=
  fun _ => ret tt.

Definition analystRole : RoleConfig :=
  mkRoleConfig "analyst" ["core"; "analytics"] None None.

Definition twoDatabasesWorld : World :=
  mkWorld []
    [connectedCore; mkDAO (Some nativeHandle) true true "analytics.db" false None]
    []
    (mkDatabaseManager false 5 {["core" := 0%nat; "analytics" := 1%nat]} true
       {["analyst" := analystRole]} (Some "analyst") ["analyst"])
    emptyRegistry.

(** A service on [core] that is initialized on the cached connection. *)
Definition coreServiceWorld : World :=
  mkWorld [] [connectedCore]
    [mkBaseService "core" "users" (Some 0%nat) true true ["id"]]
    (mkDatabaseManager false 5 {["core" := 0%nat]} true ∅ None [])
    emptyRegistry.

(** C5 (defect): with one handle, a callback that throws and an engine that
    fails the ROLLBACK, the caller receives the rollback error and not the
    callback error; with two handles and a COMMIT that fails on the second,
    the caller receives the guard error of the rollback of the first handle
    and not the commit error.  [BaseService.executeTransaction] rethrows the
    callback error in the first situation. *)
Theorem C5_rollback_error_replaces_original :
  (executeCrossSchemaTransaction ["core"] throwingCallback
     rollbackFailsEnv coreWorld).1 = inl (mkError "disk I/O error")
  /\ (executeCrossSchemaTransaction ["core"; "analytics"] quietCallback
        secondCommitFailsEnv twoDatabasesWorld).1
     = inl (mkError "No transaction in progress")
  /\ (Service.executeTransaction 0 (throwingCallback [])
        rollbackFailsEnv coreServiceWorld).1 = inl (mkError "callback failed").
Proof. split; [|split]; vm_compute; reflexivity. Qed.

End CrossSchemaTransaction.

(** ** [BaseService.close] and the connection map *)
Section ServiceClose.

(** C9: when a service whose DAO is the one cached under its schema key
    closes successfully, the connection map is unchanged, the cached DAO is
    disconnected, the flags of the service are reset, and on an accessible
    key [DatabaseManager.get] returns that disconnected DAO instead of
    throwing the not-connected error. *)
Theorem C9_close_keeps_cached_handle (env : Env) (w w' : World) (s d : loc)
    (o : BaseService) (od : SQLiteDAO) :
  serviceHeap w !! s = Some o ->
  dao o = Some d ->
  daoHeap w !! d = Some od ->
  connections (manager w) !! schemaName o = Some d ->
  Service.close s env w = (inr true, w') ->
  manager w' = manager w
  /\ connections (manager w') !! schemaName o = Some d
  /\ (exists od', daoHeap w' !! d = Some od' /\ DAO.isConnected od' = false)
  /\ (exists o', serviceHeap w' !! s = Some o'
        /\ isOpened o' = false /\ isInitialized o' = false /\ dao o' = Some d)
  /\ (Manager.hasAccessToDatabase (manager w) (schemaName o) = true ->
      Manager.get (schemaName o) env w' = (inr (HDao d), w')).
Proof.
  intros Hs Hdao Hd Hconn.
  assert (Hget : forall w1, manager w1 = manager w ->
            Manager.hasAccessToDatabase (manager w) (schemaName o) = true ->
            Manager.get (schemaName o) env w1 = (inr (HDao d), w1)).
  { intros w1 Hm Ha. unfold Manager.get, Manager.connectionAt, bind, get_world.
    rewrite Hm, Ha, Hconn. reflexivity. }
  assert (Hlt : (s < length (serviceHeap w))%nat) by (by apply lookup_lt_Some in Hs).
  assert (Hltd : (d < length (daoHeap w))%nat) by (by apply lookup_lt_Some in Hd).
  unfold Service.close, try_catch, bind, Service.read, Service.write,
    DAO.close, bind, DAO.read, DAO.write, ask, get_world, emit_event, modify,
    native_unit, ret, throw.
  cbv beta. rewrite Hs, Hdao, Hd.
  destruct (db od) as [h|] eqn:Hdb, (isOpen od) eqn:Hopen; cbn;
    rewrite ?Hs, ?Hd; cbn.
  - destruct (db_close env (trace w) d) as [e|]; cbn; [discriminate|].
    rewrite Hd. cbn. rewrite Hs. cbn. intros [= <-].
    split; [done|]. split; [done|]. split.
    { eexists. split; [by apply list_lookup_insert_eq|]. reflexivity. }
    split.
    { eexists. split; [by apply list_lookup_insert_eq|]. by cbn. }
    intros Ha. by apply Hget.
  - intros [= <-]. split; [done|]. split; [done|]. split.
    { exists od. split; [done|]. unfold DAO.isConnected. by rewrite Hopen. }
    split.
    { eexists. split; [by apply list_lookup_insert_eq|]. by cbn. }
    intros Ha. by apply Hget.
  - intros [= <-]. split; [done|]. split; [done|]. split.
    { exists od. split; [done|]. unfold DAO.isConnected. rewrite Hdb.
      apply andb_false_r. }
    split.
    { eexists. split; [by apply list_lookup_insert_eq|]. by cbn. }
    intros Ha. by apply Hget.
  - intros [= <-]. split; [done|]. split; [done|]. split.
    { exists od. split; [done|]. unfold DAO.isConnected. by rewrite Hopen. }
    split.
    { eexists. split; [by apply list_lookup_insert_eq|]. by cbn. }
    intros Ha. by apply Hget.
Qed.

Lemma C9_close_keeps_cached_handle_witness :
  exists w',
    Service.close 0 healthyEnv coreServiceWorld = (inr true, w')
    /\ Manager.get "core" healthyEnv w' = (inr (HDao 0), w')
    /\ (DAO.isConnected <$> daoHeap w' !! 0%nat) = Some false.
Proof.
  eexists. split; [vm_compute; reflexivity|].
  split; [|vm_compute; reflexivity].
  refine (proj2 (proj2 (proj2 (proj2
            (C9_close_keeps_cached_handle healthyEnv coreServiceWorld _ 0 0
               (mkBaseService "core" "users" (Some 0%nat) true true ["id"])
               connectedCore eq_refl eq_refl eq_refl eq_refl _)))) _).
  - vm_compute. reflexivity.
  - vm_compute. reflexivity.
Defined.

End ServiceClose.

(** ** LIMIT 0 and OFFSET 0 in the select builder *)
Section LimitZero.
Import DAOPure.

Lemma selectAll_same_query (d : loc) (t1 t2 : QueryTable) :
  buildSelectQuery t1 "" = buildSelectQuery t2 "" ->
  DAO.selectAll d t1 = DAO.selectAll d t2.
Proof. unfold DAO.selectAll. by intros ->. Qed.

(** The text [buildSelectQuery] builds when neither a LIMIT nor an OFFSET
    is added. *)
Definition unlimitedSelect (name : string) (cs : list Column)
    (ws : option (list WhereClause)) (obs : option (list OrderByClause))
    (suffix : string) : string :=
  let columns :=
    match cs with [] => "*" | _ => join ", " (map col_name cs) end in
  let sql := ("SELECT " +:+ columns +:+ " FROM " +:+ name)
             +:+ (buildWhereClause ws "WHERE").1 in
  match obs with
  | Some (o :: os) => (sql +:+ " ORDER BY " +:+ join ", " (map order_text (o :: os)))
  | _ => sql
  end +:+ suffix.

(** [findAll] of an initialised service whose DAO is connected: one call of
    the engine, whose rows are all returned. *)
Lemma findAll_connected (env : Env) (w : World) (s d : loc) (o : BaseService)
    (od : SQLiteDAO) (conditions : list (string * JsValue))
    (options : Service.FindOptions) :
  serviceHeap w !! s = Some o -> isInitialized o = true -> dao o = Some d ->
  daoHeap w !! d = Some od -> DAO.isConnected od = true ->
  let q := buildSelectQuery (Service.buildSelectTable o conditions options) "" in
  Service.findAll s conditions options env w
  = (match db_executeSql env (trace w) d q.1 q.2 with
     | inl e => inl e
     | inr rows => inr rows
     end,
     set_trace (trace w ++ [EvExecuteSql d q.1 q.2]) w).
Proof.
  intros Hs Hinit Hdao Hd Hconn. cbv zeta.
  unfold DAO.isConnected in Hconn. apply andb_true_iff in Hconn as [Hopen Hdb].
  destruct (db od) as [h|] eqn:Hh; [|discriminate].
  unfold Service.findAll, Service._ensureInitialized, Service.the_dao,
    DAO.selectAll, DAO.getRsts, DAO.executeSql, try_catch, bind, Service.read,
    DAO.read, ask, get_world, emit_event, modify, native_result, ret, throw.
  cbv beta. rewrite Hs. cbv beta iota. rewrite Hinit. cbv beta iota.
  rewrite Hs. cbv beta iota. rewrite Hs. cbv beta iota. rewrite Hdao.
  cbv beta iota. rewrite Hd. cbv beta iota. rewrite Hh, Hopen. cbv beta iota.
  by destruct (db_executeSql env (trace w) d _ _).
Qed.

(** C10: in [buildSelectQuery] a limit of 0 gives the statement of an absent
    limit, an offset of 0 that of an absent offset, and both 0 that of a
    descriptor without [limitOffset], whose text has neither clause;
    [findAll] with limit 0 therefore makes the very call of [findAll]
    without a limit, and on an initialised service with a connected DAO that
    call is one SELECT without LIMIT whose rows, as many as the engine
    answers, are all returned to the caller. *)
Theorem C10_limit_zero_is_no_limit
    (name : string) (cs : list Column) (ws : option (list WhereClause))
    (obs : option (list OrderByClause)) (lim off : option Z) (suffix : string)
    (s : loc) (conditions : list (string * JsValue))
    (ob : option (list OrderByClause)) (columns : option (list string))
    (env : Env) (w : World) :
  buildSelectQuery
    (mkQueryTable name cs ws obs (Some (mkLimitOffset (Some 0%Z) off))) suffix
  = buildSelectQuery
      (mkQueryTable name cs ws obs (Some (mkLimitOffset None off))) suffix
  /\ buildSelectQuery
       (mkQueryTable name cs ws obs (Some (mkLimitOffset lim (Some 0%Z)))) suffix
     = buildSelectQuery
         (mkQueryTable name cs ws obs (Some (mkLimitOffset lim None))) suffix
  /\ buildSelectQuery
       (mkQueryTable name cs ws obs (Some (mkLimitOffset (Some 0%Z) (Some 0%Z)))) suffix
     = buildSelectQuery (mkQueryTable name cs ws obs None) suffix
  /\ (buildSelectQuery
        (mkQueryTable name cs ws obs (Some (mkLimitOffset (Some 0%Z) None))) suffix).1
     = unlimitedSelect name cs ws obs suffix
  /\ Service.findAll s conditions (Service.mkFindOptions ob (Some 0%Z) off columns) env w
     = Service.findAll s conditions (Service.mkFindOptions ob None off columns) env w
  /\ (forall (o : BaseService) (d : loc) (od : SQLiteDAO),
        serviceHeap w !! s = Some o -> isInitialized o = true ->
        dao o = Some d -> daoHeap w !! d = Some od ->
        DAO.isConnected od = true ->
        let t := Service.buildSelectTable o conditions
                   (Service.mkFindOptions ob (Some 0%Z) None columns) in
        let sql := unlimitedSelect (tableName o) (cols t) (wheres t) (orderbys t) "" in
        let params := map snd conditions in
        Service.findAll s conditions
          (Service.mkFindOptions ob (Some 0%Z) None columns) env w
        = (match db_executeSql env (trace w) d sql params with
           | inl e => inl e
           | inr rows => inr rows
           end,
           set_trace (trace w ++ [EvExecuteSql d sql params]) w)).
Proof.
  split; [reflexivity|]. split; [reflexivity|]. split; [reflexivity|].
  split.
  { unfold buildSelectQuery, unlimitedSelect. cbn [fst].
    destruct cs, obs as [[|? ?]|]; reflexivity. }
  split.
  { unfold Service.findAll, bind, try_catch.
    destruct (Service._ensureInitialized s env w) as [[e|[]] w1]; [reflexivity|].
    destruct (Service.read s env w1) as [[e|o] w2]; [reflexivity|].
    destruct (Service.the_dao s env w2) as [[e|d] w3]; [reflexivity|].
    rewrite (selectAll_same_query d
               (Service.buildSelectTable o conditions
                  (Service.mkFindOptions ob (Some 0%Z) off columns))
               (Service.buildSelectTable o conditions
                  (Service.mkFindOptions ob None off columns)));
      reflexivity. }
  intros o d od Hs Hinit Hdao Hd Hconn. cbv zeta.
  rewrite (findAll_connected env w s d o od conditions _ Hs Hinit Hdao Hd Hconn).
  assert (Hsql : (buildSelectQuery
                    (Service.buildSelectTable o conditions
                       (Service.mkFindOptions ob (Some 0%Z) None columns)) "").1
                 = unlimitedSelect (tableName o)
                     (cols (Service.buildSelectTable o conditions
                              (Service.mkFindOptions ob (Some 0%Z) None columns)))
                     (wheres (Service.buildSelectTable o conditions
                                (Service.mkFindOptions ob (Some 0%Z) None columns)))
                     (orderbys (Service.buildSelectTable o conditions
                                  (Service.mkFindOptions ob (Some 0%Z) None columns)))
                     "").
  { unfold buildSelectQuery, unlimitedSelect, Service.buildSelectTable.
    cbn [fst cols wheres orderbys limitOffset qt_name Service.columns
         Service.orderBy Service.fo_limit Service.fo_offset limit offset
         truthy_num].
    destruct columns as [[|c cs']|], (default [] ob) as [|o1 os]; reflexivity. }
  assert (Hparams : (buildSelectQuery
                       (Service.buildSelectTable o conditions
                          (Service.mkFindOptions ob (Some 0%Z) None columns)) "").2
                    = map snd conditions).
  { unfold buildSelectQuery, Service.buildSelectTable. cbn [snd wheres].
    destruct conditions as [|c0 cs0]; [reflexivity|].
    cbn [buildWhereClause map snd]. rewrite !map_map. reflexivity. }
  by rewrite Hsql, Hparams.
Qed.

(** An engine that holds three rows. *)
Definition threeRowsEnv : Env :=
  mkEnv "/data/documents" ["core"]
    (fun _ _ => inr true) (fun _ _ => None) (fun _ _ _ => None)
    (fun _ _ _ _ =>
       inr [[("id", VNum 1)]; [("id", VNum 2)]; [("id", VNum 3)]])
    (fun _ _ => None).

Lemma C10_limit_zero_is_no_limit_witness :
  Service.findAll 0 [] (Service.mkFindOptions None (Some 0%Z) None None)
    threeRowsEnv coreServiceWorld
  = (inr [[("id", VNum 1)]; [("id", VNum 2)]; [("id", VNum 3)]],
     set_trace [EvExecuteSql 0 "SELECT * FROM users" []] coreServiceWorld).
Proof.
  exact (proj2 (proj2 (proj2 (proj2 (proj2
           (C10_limit_zero_is_no_limit "users" [] None None None None ""
              0 [] None None threeRowsEnv coreServiceWorld)))))
           (mkBaseService "core" "users" (Some 0%nat) true true ["id"]) 0
           connectedCore eq_refl eq_refl eq_refl eq_refl eq_refl).
Defined.

End LimitZero.

(** ** Role switch: opens before closes *)
Section RoleSwitch.
Import Manager.

(** The [SQLiteDAO] instance a native call is made on. *)
Definition event_dao (ev : Event) : option loc :=
  match ev with
  | EvMkdir _ => None
  | EvOpenDatabase d _ | EvExecuteSql d _ _ | EvCloseDatabase d => Some d
  end.

(** *** Steps of one DAO *)

(** Only the instance [d] is touched: its fields change, and the native
    calls made all satisfy [P]. *)
Record dao_step (d : loc) (P : Event -> Prop) (w w' : World) : Prop := mkDaoStep {
  ds_manager : manager w' = manager w;
  ds_registry : registry w' = registry w;
  ds_services : serviceHeap w' = serviceHeap w;
  ds_length : length (daoHeap w') = length (daoHeap w);
  ds_frame : forall i, i <> d -> daoHeap w' !! i = daoHeap w !! i;
  ds_trace : exists t, trace w' = trace w ++ t /\ Forall P t;
}.

#[local] Instance dao_step_preorder d P : PreOrder (dao_step d P).
Proof.
  split.
  - intros w. split; try done. exists []. split; [by rewrite app_nil_r | constructor].
  - intros w1 w2 w3 [M1 R1 S1 L1 F1 (t1 & T1 & E1)] [M2 R2 S2 L2 F2 (t2 & T2 & E2)].
    split; try congruence.
    + intros i Hi. by rewrite F2, F1.
    + exists (t1 ++ t2). split; [by rewrite T2, T1, app_assoc|].
      by apply Forall_app.
Qed.

(** Native calls on the instance [d]. *)
Definition on_dao (d : loc) (ev : Event) : Prop := event_dao ev = Some d.

Lemma dao_step_read d P : preserves (dao_step d P) (DAO.read d).
Proof. intros env w. unfold DAO.read. destruct (daoHeap w !! d); reflexivity. Qed.

Lemma dao_step_write d P o : preserves (dao_step d P) (DAO.write d o).
Proof.
  intros env w. cbn. split; try done.
  - cbn. apply length_insert.
  - intros i Hi. cbn. by apply list_lookup_insert_ne.
  - exists []. split; [by rewrite app_nil_r | constructor].
Qed.

Lemma dao_step_emit d (P : Event -> Prop) ev :
  P ev -> preserves (dao_step d P) (emit_event ev).
Proof.
  intros He env w. cbn. split; try done.
  exists [ev]. split; [done|]. by apply Forall_singleton.
Qed.

Ltac dao_steps :=
  repeat first
    [ apply dao_step_read | apply dao_step_write
    | (apply dao_step_emit; reflexivity)
    | preserves_step ].

Lemma dao_step_executeSql d sql params :
  preserves (dao_step d (on_dao d)) (DAO.executeSql d sql params).
Proof. unfold DAO.executeSql. dao_steps. Qed.

Lemma dao_step_runSql d sql params :
  preserves (dao_step d (on_dao d)) (DAO.runSql d sql params).
Proof.
  unfold DAO.runSql. apply (preserves_bind _); [apply dao_step_executeSql|].
  intros _. apply (preserves_ret _).
Qed.

Lemma dao_step_connect d : preserves (dao_step d (on_dao d)) (DAO.connect d).
Proof. unfold DAO.connect. dao_steps. Qed.

(** [close] makes no native call but the close of its own connection. *)
Lemma dao_step_close d :
  preserves (dao_step d (fun ev => ev = EvCloseDatabase d)) (DAO.close d).
Proof. unfold DAO.close. dao_steps. Qed.

Lemma dao_step_weaken d (P Q : Event -> Prop) w w' :
  (forall ev, P ev -> Q ev) -> dao_step d P w w' -> dao_step d Q w w'.
Proof.
  intros HPQ [M R S L F (t & T & E)]. split; try done.
  exists t. split; [done|]. eapply Forall_impl; eauto.
Qed.

Lemma dao_step_close_on_dao d : preserves (dao_step d (on_dao d)) (DAO.close d).
Proof.
  intros env w. eapply dao_step_weaken; [|apply dao_step_close].
  by intros ev ->.
Qed.

(** The part of [openExisting] that follows [new SQLiteDAO(...)]. *)
Definition connectAndCheck (d : loc) : Async loc :=
  try_catch
    (DAO.connect d ;;;
     DAO.runSql d "PRAGMA integrity_check" [] ;;;
     ret d)
    (fun error => DAO.close d ;;; throw error).

Lemma dao_step_connectAndCheck d :
  preserves (dao_step d (on_dao d)) (connectAndCheck d).
Proof.
  unfold connectAndCheck.
  repeat first
    [ apply dao_step_connect | apply dao_step_runSql
    | apply dao_step_close_on_dao | preserves_step ].
Qed.

Lemma connectAndCheck_value d env w a w' :
  connectAndCheck d env w = (inr a, w') -> a = d.
Proof.
  unfold connectAndCheck, try_catch, bind, ret, throw.
  destruct (DAO.connect d env w) as [[e|[]] w1].
  - destruct (DAO.close d env w1) as [[e'|[]] w2]; discriminate.
  - destruct (DAO.runSql d _ _ env w1) as [[e|s] w2].
    + destruct (DAO.close d env w2) as [[e'|[]] w3]; discriminate.
    + by intros [= <- _].
Qed.

(** *** The opening phase *)

(** A native call that does not concern a DAO allocated before the phase. *)
Definition fresh_event (n : nat) (ev : Event) : Prop :=
  forall d, event_dao ev = Some d -> n <= d.

(** What the opening phase may do, [n] being the size of the DAO heap when
    the phase starts and [K] the keys it goes through: allocate DAOs, work
    on those, and cache them under keys of [K] that had no connection. *)
Record opens (n : nat) (K : list string) (w w' : World) : Prop := mkOpens {
  op_registry : registry w' = registry w;
  op_services : serviceHeap w' = serviceHeap w;
  op_roleRegistry : roleRegistry (manager w') = roleRegistry (manager w);
  op_roles : currentUserRoles (manager w') = currentUserRoles (manager w);
  op_length : length (daoHeap w) <= length (daoHeap w');
  op_frame : forall i, i < n -> daoHeap w' !! i = daoHeap w !! i;
  op_old : forall k d, connections (manager w) !! k = Some d ->
                       connections (manager w') !! k = Some d;
  op_new : forall k d, connections (manager w') !! k = Some d ->
                       connections (manager w) !! k = Some d \/ (n <= d /\ k ∈ K);
  op_trace : exists t, trace w' = trace w ++ t /\ Forall (fresh_event n) t;
}.

Lemma opens_refl n K w : opens n K w w.
Proof.
  split; try done.
  - intros k d H. by left.
  - exists []. split; [by rewrite app_nil_r | constructor].
Qed.

Lemma opens_trans n K w1 w2 w3 : opens n K w1 w2 -> opens n K w2 w3 -> opens n K w1 w3.
Proof.
  intros [R1 S1 G1 C1 L1 F1 O1 N1 (t1 & T1 & E1)]
         [R2 S2 G2 C2 L2 F2 O2 N2 (t2 & T2 & E2)].
  split.
  - congruence.
  - congruence.
  - congruence.
  - congruence.
  - lia.
  - intros i Hi. by rewrite F2, F1.
  - intros k d H. by apply O2, O1.
  - intros k d H. destruct (N2 k d H) as [H'|H']; [by apply N1 | by right].
  - exists (t1 ++ t2). split; [by rewrite T2, T1, app_assoc|]. by apply Forall_app.
Qed.

Lemma dao_step_opens n K d w w' :
  n <= d -> dao_step d (on_dao d) w w' -> opens n K w w'.
Proof.
  intros Hn [M R S L F (t & T & E)].
  split.
  - done.
  - done.
  - by rewrite M.
  - by rewrite M.
  - lia.
  - intros i Hi. apply F. lia.
  - intros k d'. by rewrite M.
  - intros k d'. rewrite M. by left.
  - exists t. split; [done|]. eapply Forall_impl; [exact E|].
    intros ev Hev d' Hd'. unfold on_dao in Hev. congruence.
Qed.

Lemma keeps_manager_dao_step d P w w' :
  dao_step d P w w' -> manager w' = manager w.
Proof. by intros []. Qed.

(** [openExisting] allocates at most one DAO and only works on it; the
    manager is not touched, and a returned DAO is the new one. *)
Lemma openExisting_opens n K name env w :
  n <= length (daoHeap w) ->
  opens n K w (Factory.openExisting name env w).2
  /\ manager (Factory.openExisting name env w).2 = manager w
  /\ (forall d, (Factory.openExisting name env w).1 = inr d ->
        length (daoHeap w) <= d
        /\ d < length (daoHeap (Factory.openExisting name env w).2)).
Proof.
  intros Hn.
  set (good := fun out : Result loc * World =>
         opens n K w out.2 /\ manager out.2 = manager w
         /\ (forall d, out.1 = inr d ->
               length (daoHeap w) <= d /\ d < length (daoHeap out.2))).
  change (good (Factory.openExisting name env w)).
  assert (Hstop : forall (e : Error) w0,
            opens n K w w0 -> manager w0 = manager w -> good (inl e, w0)).
  { intros e w0 H0 Hm. split; [done|]. split; [done|discriminate]. }
  assert (Hmk : forall p, opens n K w (set_trace (trace w ++ [EvMkdir p]) w)).
  { intros p. split; try done; [by left|].
    exists [EvMkdir p]. split; [done|]. apply Forall_singleton. by intros d. }
  assert (Htail : forall w0, opens n K w w0 -> manager w0 = manager w ->
            good (bind (DAO.new
                    (if endsWith name ".db" then name else name +:+ ".db") true)
                    connectAndCheck env w0)).
  { intros w0 Hw0 Hm0. unfold bind, DAO.new.
    set (w1 := set_daoHeap _ w0).
    assert (Hlen : n <= length (daoHeap w0)).
    { destruct Hw0. lia. }
    assert (H01 : opens n K w0 w1).
    { split; try done.
      - cbn. rewrite length_app. lia.
      - intros i Hi. cbn. apply lookup_app_l. lia.
      - by left.
      - exists []. split; [by rewrite app_nil_r | constructor]. }
    pose proof (dao_step_connectAndCheck (length (daoHeap w0)) env w1) as Hstep.
    pose proof (connectAndCheck_value (length (daoHeap w0)) env w1) as Hval.
    assert (H02 : opens n K w (connectAndCheck (length (daoHeap w0)) env w1).2).
    { eapply opens_trans; [exact Hw0|]. eapply opens_trans; [exact H01|].
      by eapply dao_step_opens. }
    assert (Hm2 : manager (connectAndCheck (length (daoHeap w0)) env w1).2
                  = manager w).
    { by rewrite (keeps_manager_dao_step _ _ _ _ Hstep). }
    destruct (connectAndCheck (length (daoHeap w0)) env w1) as [[e|a] w2];
      cbn [fst snd] in *.
    - by apply Hstop.
    - split; [done|]. split; [done|].
      intros d [= <-]. rewrite (Hval a w2 eq_refl). cbn [snd].
      destruct Hstep as [_ _ _ L2 _ _]. destruct Hw0 as [_ _ _ _ L0 _ _ _ _].
      rewrite L2. subst w1. cbn. rewrite length_app. cbn. lia. }
  unfold Factory.openExisting.
  unfold bind at 1, ask. cbv zeta. unfold bind at 1, get_world.
  unfold bind at 1, native_result.
  destruct (rnfs_exists env (trace w) (DocumentDirectoryPath env)) as [e|dirExists].
  { apply Hstop; [apply opens_refl | done]. }
  cbn [ret].
  destruct dirExists.
  - unfold bind at 1, ret. unfold bind at 1, get_world. unfold bind at 1.
    destruct (rnfs_exists env (trace w) _) as [e|fileExists]; cbn [ret throw].
    { apply Hstop; [apply opens_refl | done]. }
    destruct fileExists; cbn [negb].
    + apply Htail; [apply opens_refl | done].
    + apply Hstop; [apply opens_refl | done].
  - unfold bind at 1. unfold bind at 1, emit_event, modify, native_unit.
    destruct (rnfs_mkdir env (trace w) (DocumentDirectoryPath env)) as [e|];
      cbn [throw ret].
    { apply Hstop; [apply Hmk | done]. }
    unfold bind at 1, get_world. unfold bind at 1.
    destruct (rnfs_exists env _ _) as [e|fileExists]; cbn [ret throw].
    { apply Hstop; [apply Hmk | done]. }
    destruct fileExists; cbn [negb].
    + apply Htail; [apply Hmk | done].
    + apply Hstop; [apply Hmk | done].
Qed.

Definition store (k : string) (d : loc) (w : World) : World :=
  set_manager (set_connections (<[k := d]> (connections (manager w))) (manager w)) w.

Lemma store_opens n K k d w w2 :
  opens n K w w2 -> manager w2 = manager w ->
  connections (manager w) !! k = None -> n <= d -> k ∈ K ->
  opens n K w (store k d w2).
Proof.
  intros [R S G C L F O N T] Hm Hk Hn HK. split; try done.
  - intros k' d' H. cbn. destruct (decide (k = k')) as [<-|Hne]; [congruence|].
    rewrite lookup_insert_ne by done. by apply O.
  - intros k' d'. cbn. destruct (decide (k = k')) as [<-|Hne].
    + rewrite lookup_insert_eq. intros [= <-]. by right.
    + rewrite lookup_insert_ne by done. apply N.
Qed.

Lemma initTask_opens n K k env w :
  k ∈ K -> n <= length (daoHeap w) -> opens n K w (initTask k env w).2.
Proof.
  intros HK Hn. unfold initTask, bind at 1, get_world.
  destruct (connections (manager w) !! k) as [d0|] eqn:Hk; [apply opens_refl|].
  unfold try_catch.
  set (body := bind ask _).
  assert (Hbody : opens n K w (body env w).2).
  { unfold body, bind at 1, ask. unfold bind at 1.
    destruct (includes (schemaConfigurations env) k); [|apply opens_refl].
    cbn [ret]. unfold bind at 1.
    destruct (openExisting_opens n K k env w Hn) as (H1 & Hm1 & Hd1).
    destruct (Factory.openExisting k env w) as [[e|d] w1]; cbn [fst snd] in *;
      [done|].
    destruct (Hd1 d eq_refl) as [Hd1' _].
    assert (n <= d) as Hnd by lia.
    unfold bind at 1.
    pose proof (dao_step_runSql d "PRAGMA integrity_check" [] env w1) as Hrun.
    destruct (DAO.runSql d "PRAGMA integrity_check" [] env w1) as [[e|r] w2];
      cbn [fst snd] in *.
    - eapply opens_trans; [exact H1|]. by eapply dao_step_opens.
    - unfold bind, store_connection, modify, ret. cbn [snd].
      apply store_opens; try done.
      + eapply opens_trans; [exact H1|]. by eapply dao_step_opens.
      + rewrite (keeps_manager_dao_step _ _ _ _ Hrun). exact Hm1. }
  destruct (body env w) as [[e|a] w1]; cbn [snd] in *; [|done].
  unfold bind, get_world. by destruct (isRequired (manager w1) k).
Qed.

Lemma promise_all_initTask_opens n K ks env :
  (forall k, k ∈ ks -> k ∈ K) ->
  forall w, n <= length (daoHeap w) ->
    opens n K w (promise_all ks initTask env w).2.
Proof.
  intros HK. induction ks as [|k ks IH]; intros w Hn; cbn [promise_all].
  { apply opens_refl. }
  assert (Hk : opens n K w (initTask k env w).2).
  { apply initTask_opens; [|done]. apply HK, list_elem_of_here. }
  assert (IH' : forall w1, n <= length (daoHeap w1) ->
            opens n K w1 (promise_all ks initTask env w1).2).
  { apply IH. intros k' Hk'. by apply HK, list_elem_of_further. }
  destruct (initTask k env w) as [[e|b] w1]; cbn [snd] in *.
  - eapply opens_trans; [exact Hk|]. apply IH'. destruct Hk. lia.
  - specialize (IH' w1). 
    destruct (promise_all ks initTask env w1) as [[e|bs] w2]; cbn [snd] in *;
      (eapply opens_trans; [exact Hk|]; apply IH'; destruct Hk; lia).
Qed.

Lemma initializeUserRoleConnections_opens n env w :
  n <= length (daoHeap w) ->
  opens n (getCurrentUserDatabases (manager w)) w
    (initializeUserRoleConnections env w).2.
Proof.
  intros Hn. unfold initializeUserRoleConnections, bind at 1, get_world.
  unfold bind.
  pose proof (promise_all_initTask_opens n (getCurrentUserDatabases (manager w))
                (getCurrentUserDatabases (manager w)) env (fun _ H => H) w Hn) as H.
  destruct (promise_all _ initTask env w) as [[e|pushed] w1]; cbn [snd] in *;
    [done|].
  by destruct (concat pushed).
Qed.

(** *** Well-formed connection maps *)

(** Every cached connection is an allocated DAO, and no DAO is cached under
    two keys. *)
Definition wf_connections (w : World) : Prop :=
  (forall k d, connections (manager w) !! k = Some d -> d < length (daoHeap w))
  /\ (forall k1 k2 d,
        connections (manager w) !! k1 = Some d ->
        connections (manager w) !! k2 = Some d -> k1 = k2).

Lemma wf_same_manager w w' :
  manager w' = manager w -> length (daoHeap w) <= length (daoHeap w') ->
  wf_connections w -> wf_connections w'.
Proof.
  intros Hm Hl [Ha Hi]. unfold wf_connections. rewrite Hm. split.
  - intros k d H. specialize (Ha k d H). lia.
  - exact Hi.
Qed.

Lemma wf_store k d w w2 :
  manager w2 = manager w ->
  length (daoHeap w) <= d -> d < length (daoHeap w2) ->
  wf_connections w -> wf_connections (store k d w2).
Proof.
  intros Hm Hlo Hhi [Ha Hi]. split.
  - intros k' d'. cbn. rewrite Hm. intros H.
    apply lookup_insert_Some in H as [[_ <-]|[_ H]]; [done|].
    specialize (Ha k' d' H). lia.
  - intros k1 k2 d'. cbn. rewrite Hm. intros H1 H2.
    apply lookup_insert_Some in H1 as [[<- <-]|[N1 H1]];
      apply lookup_insert_Some in H2 as [[<- E2]|[N2 H2]]; try done.
    + specialize (Ha k2 d H2). lia.
    + subst d'. specialize (Ha k1 d H1). lia.
    + by eapply Hi.
Qed.

Lemma initTask_wf k env w :
  wf_connections w ->
  wf_connections (initTask k env w).2
  /\ length (daoHeap w) <= length (daoHeap (initTask k env w).2).
Proof.
  intros Hwf.
  pose proof (initTask_opens (length (daoHeap w)) [k] k env w
                (list_elem_of_here _ _) (le_n _)) as Hlen.
  split; [|by destruct Hlen].
  clear Hlen. unfold initTask, bind at 1, get_world.
  destruct (connections (manager w) !! k) as [d0|] eqn:Hk; [done|].
  unfold try_catch.
  set (body := bind ask _).
  assert (Hbody : wf_connections (body env w).2).
  { unfold body, bind at 1, ask. unfold bind at 1.
    destruct (includes (schemaConfigurations env) k); [|done].
    cbn [ret]. unfold bind at 1.
    destruct (openExisting_opens (length (daoHeap w)) [k] k env w (le_n _))
      as (H1 & Hm1 & Hd1).
    destruct (Factory.openExisting k env w) as [[e|d] w1]; cbn [fst snd] in *.
    { apply (wf_same_manager w w1); [done | by destruct H1 | done]. }
    destruct (Hd1 d eq_refl) as [Hlo Hhi].
    unfold bind at 1.
    pose proof (dao_step_runSql d "PRAGMA integrity_check" [] env w1) as Hrun.
    destruct (DAO.runSql d "PRAGMA integrity_check" [] env w1) as [[e|r] w2];
      cbn [fst snd] in *; destruct Hrun as [M2 _ _ L2 _ _].
    - apply (wf_same_manager w w2); [congruence | destruct H1; lia | done].
    - unfold bind, store_connection, modify, ret. cbn [snd].
      apply (wf_store k d w w2); [congruence | done | lia | done]. }
  destruct (body env w) as [[e|a] w1]; cbn [snd] in *; [|done].
  unfold bind, get_world. by destruct (isRequired (manager w1) k).
Qed.

Lemma promise_all_initTask_wf ks env :
  forall w, wf_connections w ->
    wf_connections (promise_all ks initTask env w).2.
Proof.
  induction ks as [|k ks IH]; intros w Hwf; cbn [promise_all]; [done|].
  destruct (initTask_wf k env w Hwf) as [Hk _].
  destruct (initTask k env w) as [[e|b] w1]; cbn [snd] in *.
  - by apply IH.
  - specialize (IH w1 Hk).
    by destruct (promise_all ks initTask env w1) as [[e|bs] w2].
Qed.

Lemma initializeUserRoleConnections_wf env w :
  wf_connections w -> wf_connections (initializeUserRoleConnections env w).2.
Proof.
  intros Hwf. unfold initializeUserRoleConnections, bind at 1, get_world.
  unfold bind.
  pose proof (promise_all_initTask_wf (getCurrentUserDatabases (manager w))
                env w Hwf) as H.
  destruct (promise_all _ initTask env w) as [[e|pushed] w1]; cbn [snd] in *;
    [done|].
  by destruct (concat pushed).
Qed.

(** *** The closing phase *)

(** What the closing phase may do, [S] being the keys it goes through and
    [c0] the connection map when it starts: close connections cached under
    keys of [S] and drop those keys. *)
Record closes (S : list string) (c0 : gmap string loc) (w w' : World) : Prop :=
  mkCloses {
  cl_registry : registry w' = registry w;
  cl_services : serviceHeap w' = serviceHeap w;
  cl_roleRegistry : roleRegistry (manager w') = roleRegistry (manager w);
  cl_roles : currentUserRoles (manager w') = currentUserRoles (manager w);
  cl_length : length (daoHeap w') = length (daoHeap w);
  cl_shrink : forall k d, connections (manager w') !! k = Some d ->
                          connections (manager w) !! k = Some d;
  cl_keep : forall k, k ∉ S ->
              connections (manager w') !! k = connections (manager w) !! k;
  cl_frame : forall i, (forall k, k ∈ S -> c0 !! k <> Some i) ->
               daoHeap w' !! i = daoHeap w !! i;
  cl_trace : exists t, trace w' = trace w ++ t
               /\ Forall (fun ev => exists k d,
                            k ∈ S /\ c0 !! k = Some d /\ ev = EvCloseDatabase d) t;
}.

Lemma closes_refl S c0 w : closes S c0 w w.
Proof.
  split; try done. exists []. split; [by rewrite app_nil_r | constructor].
Qed.

Lemma closes_trans S c0 w1 w2 w3 :
  closes S c0 w1 w2 -> closes S c0 w2 w3 -> closes S c0 w1 w3.
Proof.
  intros [R1 S1 G1 C1 L1 H1 K1 F1 (t1 & T1 & E1)]
         [R2 S2 G2 C2 L2 H2 K2 F2 (t2 & T2 & E2)].
  split.
  - congruence.
  - congruence.
  - congruence.
  - congruence.
  - congruence.
  - intros k d H. by apply H1, H2.
  - intros k Hk. by rewrite K2, K1.
  - intros i Hi. by rewrite F2, F1.
  - exists (t1 ++ t2). split; [by rewrite T2, T1, app_assoc|]. by apply Forall_app.
Qed.

Lemma closeTask_closes S c0 k env w :
  k ∈ S ->
  (forall k' d, connections (manager w) !! k' = Some d -> c0 !! k' = Some d) ->
  closes S c0 w (closeTask k env w).2.
Proof.
  intros HS Hc0. unfold closeTask, bind at 1, get_world.
  destruct (connections (manager w) !! k) as [d|] eqn:Hk; [|apply closes_refl].
  assert (Hstep : forall w1, dao_step d (fun ev => ev = EvCloseDatabase d) w w1 ->
            closes S c0 w w1).
  { intros w1 [M R Sv L F (t & T & E)]. split; try done.
    - by rewrite M.
    - by rewrite M.
    - intros k' d'. by rewrite M.
    - intros k' _. by rewrite M.
    - intros i Hi. apply F. intros ->. apply (Hi k HS). by apply Hc0.
    - exists t. split; [done|]. eapply Forall_impl; [exact E|].
      intros ev ->. exists k, d. split; [done|]. split; [by apply Hc0 | done]. }
  unfold try_catch, bind.
  pose proof (dao_step_close d env w) as Hclose.
  destruct (DAO.close d env w) as [[e|[]] w1]; cbn [snd] in *.
  - cbn. by apply Hstep.
  - unfold drop_connection, modify. cbn [snd].
    eapply closes_trans; [by apply Hstep|].
    split; try done.
    + intros k' d'. cbn. destruct (decide (k = k')) as [<-|Hne].
      * by rewrite lookup_delete_eq.
      * by rewrite lookup_delete_ne.
    + intros k' Hk'. cbn. apply lookup_delete_ne. by intros <-.
    + exists []. split; [by rewrite app_nil_r | constructor].
Qed.

Lemma for_of_closeTask_closes S c0 ks env :
  (forall k, k ∈ ks -> k ∈ S) ->
  forall w,
    (forall k d, connections (manager w) !! k = Some d -> c0 !! k = Some d) ->
    closes S c0 w (for_of ks closeTask env w).2.
Proof.
  intros HS. induction ks as [|k ks IH]; intros w Hc0; cbn [for_of].
  { apply closes_refl. }
  unfold bind.
  assert (Hk : closes S c0 w (closeTask k env w).2).
  { apply closeTask_closes; [|done]. apply HS, list_elem_of_here. }
  destruct (closeTask k env w) as [[e|[]] w1]; cbn [snd] in *; [done|].
  eapply closes_trans; [exact Hk|]. apply IH.
  - intros k' Hk'. by apply HS, list_elem_of_further.
  - intros k' d H. apply Hc0. by apply (cl_shrink _ _ _ _ Hk).
Qed.

Lemma closes_wf S c0 w w' :
  closes S c0 w w' -> wf_connections w -> wf_connections w'.
Proof.
  intros [_ _ _ _ L H _ _ _] [Ha Hi]. split.
  - intros k d Hk. rewrite L. by eapply Ha, H.
  - intros k1 k2 d H1 H2. by eapply Hi; apply H.
Qed.

(** *** The whole switch *)

Lemma validation_keeps_world (userRoles : list string) env w :
  (for_of userRoles
     (fun role =>
        w <- get_world ;;
        match roleRegistry (manager w) !! role with
        | Some _ => ret tt
        | None => throw (notRegistered role)
        end) env w).2 = w.
Proof.
  revert w. induction userRoles as [|r rs IH]; intros w; [reflexivity|].
  cbn [for_of]. unfold bind at 1. unfold bind at 1, get_world.
  destruct (roleRegistry (manager w) !! r); cbn; [apply IH | reflexivity].
Qed.

(** The world in which the new roles are recorded. *)
Definition withRoles (userRoles : list string) (primaryRole : option string)
    (w : World) : World :=
  set_manager (set_roles userRoles (pickPrimary primaryRole userRoles) (manager w)) w.

Definition noLongerWanted (reg : gmap string RoleConfig)
    (previousRoles userRoles : list string) : list string :=
  List.filter (fun k => negb (includes (roleDatabases reg userRoles) k))
    (roleDatabases reg previousRoles).

Lemma elem_of_noLongerWanted reg previousRoles userRoles k :
  k ∈ noLongerWanted reg previousRoles userRoles <->
  k ∈ roleDatabases reg previousRoles /\ k ∉ roleDatabases reg userRoles.
Proof.
  unfold noLongerWanted. rewrite list_elem_of_In, filter_In, <- list_elem_of_In.
  unfold includes. rewrite negb_true_iff, bool_decide_eq_false. done.
Qed.

(** A role switch is nothing, or an opening phase from the world with the
    new roles followed by a closing phase over the keys no longer wanted. *)
Lemma setCurrentUserRoles_phases env w userRoles primaryRole :
  let reg := roleRegistry (manager w) in
  let out := setCurrentUserRoles userRoles primaryRole env w in
  exists w2,
    opens (length (daoHeap w)) (roleDatabases reg userRoles)
      (withRoles userRoles primaryRole w) w2
    /\ closes (noLongerWanted reg (currentUserRoles (manager w)) userRoles)
         (connections (manager w2)) w2 out.2
    /\ (wf_connections w -> wf_connections w2)
    \/ out.2 = w.
Proof.
  cbv zeta.
  set (good := fun out : Result unit * World =>
         exists w2,
           opens (length (daoHeap w))
             (roleDatabases (roleRegistry (manager w)) userRoles)
             (withRoles userRoles primaryRole w) w2
           /\ closes (noLongerWanted (roleRegistry (manager w))
                        (currentUserRoles (manager w)) userRoles)
                (connections (manager w2)) w2 out.2
           /\ (wf_connections w -> wf_connections w2)
           \/ out.2 = w).
  change (good (setCurrentUserRoles userRoles primaryRole env w)).
  unfold setCurrentUserRoles. unfold bind at 1.
  pose proof (validation_keeps_world userRoles env w) as Hval.
  destruct (for_of userRoles _ env w) as [[e|[]] w0]; cbn [snd] in Hval; subst w0.
  { exists w. by right. }
  unfold bind at 1, get_world. unfold bind at 1, modify.
  fold (withRoles userRoles primaryRole w).
  set (w1 := withRoles userRoles primaryRole w).
  unfold bind at 1.
  pose proof (initializeUserRoleConnections_opens (length (daoHeap w)) env w1
                (le_n _)) as Hopen.
  change (getCurrentUserDatabases (manager w1))
    with (roleDatabases (roleRegistry (manager w)) userRoles) in Hopen.
  pose proof (initializeUserRoleConnections_wf env w1) as Hwf2.
  destruct (initializeUserRoleConnections env w1) as [[e|[]] w2]; cbn [snd] in *.
  { exists w2. left. split; [done|]. split; [apply closes_refl | exact Hwf2]. }
  exists w2. left. split; [done|]. split; [|exact Hwf2].
  unfold cleanupUnusedConnections, bind, get_world.
  assert (HS : databasesToClose (manager w2) (currentUserRoles (manager w))
               = noLongerWanted (roleRegistry (manager w))
                   (currentUserRoles (manager w)) userRoles).
  { unfold databasesToClose, noLongerWanted, getCurrentUserDatabases.
    destruct Hopen as [_ _ G C _ _ _ _ _]. by rewrite G, C. }
  rewrite HS. by apply for_of_closeTask_closes.
Qed.

(** C3: the native calls of a role switch split into an opening part and a
    closing part that follows it.  The opening part only concerns DAOs
    created during the switch; the closing part consists of closes of
    connections that were cached under keys of the previous wanted set
    outside the new wanted set.  A connection cached under a key of the new
    wanted set (['core'] is in both sets) sees no native call at all, keeps
    its fields and stays in the connection map.  The connection map is well
    formed again after the switch. *)
Theorem C3_open_before_close (env : Env) (w : World) (userRoles : list string)
    (primaryRole : option string) :
  wf_connections w ->
  let reg := roleRegistry (manager w) in
  let previousWanted := roleDatabases reg (currentUserRoles (manager w)) in
  let newWanted := roleDatabases reg userRoles in
  let out := setCurrentUserRoles userRoles primaryRole env w in
  exists opening closing,
    trace out.2 = trace w ++ opening ++ closing
    /\ Forall (fresh_event (length (daoHeap w))) opening
    /\ Forall (fun ev => exists k d,
                 k ∈ previousWanted /\ (k ∉ newWanted) /\
                 connections (manager w) !! k = Some d /\
                 ev = EvCloseDatabase d) closing
    /\ "core" ∈ previousWanted /\ "core" ∈ newWanted
    /\ (forall k d,
          k ∈ newWanted -> connections (manager w) !! k = Some d ->
          connections (manager out.2) !! k = Some d
          /\ daoHeap out.2 !! d = daoHeap w !! d
          /\ Forall (fun ev => event_dao ev <> Some d) (opening ++ closing))
    /\ wf_connections out.2.
Proof.
  intros Hwfw. pose proof Hwfw as [Hwf Hinj]. cbv zeta.
  destruct (setCurrentUserRoles_phases env w userRoles primaryRole)
    as (w2 & [(Hopen & Hclose & Hwf2) | Hsame]).
  2:{ exists [], []. rewrite Hsame, !app_nil_r.
      split; [done|]. split; [constructor|]. split; [constructor|].
      split; [apply core_always_wanted|]. split; [apply core_always_wanted|].
      split; [|done].
      intros k d _ Hk. split; [done|]. split; [done|constructor]. }
  assert (Hwfout : wf_connections
                     (setCurrentUserRoles userRoles primaryRole env w).2).
  { eapply closes_wf; [exact Hclose|]. by apply Hwf2. }
  destruct Hopen as [_ _ _ _ _ OF OO ON (opening & OT & OE)].
  destruct Hclose as [_ _ _ _ _ CS CK CF (closing & CT & CE)].
  cbn in OO, ON, OT.
  set (reg := roleRegistry (manager w)) in *.
  set (S := noLongerWanted reg (currentUserRoles (manager w)) userRoles) in *.
  assert (Hcached : forall k d, k ∈ S -> connections (manager w2) !! k = Some d ->
            connections (manager w) !! k = Some d).
  { intros k d HkS Hk. destruct (ON k d Hk) as [H|[_ H]]; [done|].
    apply elem_of_noLongerWanted in HkS. tauto. }
  assert (Hclosing : Forall (fun ev => exists k d,
            k ∈ roleDatabases reg (currentUserRoles (manager w)) /\
            (k ∉ roleDatabases reg userRoles) /\
            connections (manager w) !! k = Some d /\
            ev = EvCloseDatabase d) closing).
  { eapply Forall_impl; [exact CE|].
    intros ev (k & d & HkS & Hk & ->). exists k, d.
    pose proof HkS as HkS'. apply elem_of_noLongerWanted in HkS' as [Hp Hn].
    split; [done|]. split; [done|]. split; [by apply Hcached | done]. }
  exists opening, closing.
  split; [by rewrite CT, OT, app_assoc|]. split; [done|]. split; [done|].
  split; [apply core_always_wanted|]. split; [apply core_always_wanted|].
  split; [|exact Hwfout].
  intros k d Hnew Hk.
  assert (HkS : k ∉ S).
  { intros H. apply elem_of_noLongerWanted in H. tauto. }
  assert (Hother : forall k', k' ∈ S -> connections (manager w2) !! k' <> Some d).
  { intros k' Hk' H. apply Hcached in H; [|done].
    assert (k' = k) as -> by (by eapply Hinj). done. }
  split; [|split].
  - rewrite (CK k HkS). by apply OO.
  - rewrite (CF d Hother). apply OF. by eapply Hwf.
  - apply Forall_app. split.
    + eapply Forall_impl; [exact OE|]. intros ev Hev Hd.
      specialize (Hev d Hd). specialize (Hwf k d Hk). lia.
    + eapply Forall_impl; [exact Hclosing|].
      intros ev (k' & d' & Hp & Hn & Hk' & ->). cbn. intros [= ->].
      assert (k' = k) as -> by (by eapply Hinj). done.
Qed.

Definition managerRole : RoleConfig :=
  mkRoleConfig "manager" ["core"; "analytics"] None None.
Definition cashierRole : RoleConfig :=
  mkRoleConfig "cashier" ["core"] None None.

(** [manager] is active, [core] and [analytics] are connected; the switch to
    [cashier] closes [analytics] and leaves [core] alone. *)
Definition managerWorld : World :=
  mkWorld []
    [connectedCore; mkDAO (Some nativeHandle) true true "analytics.db" false None]
    []
    (mkDatabaseManager false 5 {["core" := 0%nat; "analytics" := 1%nat]} true
       {["manager" := managerRole; "cashier" := cashierRole]}
       (Some "manager") ["manager"])
    emptyRegistry.

Lemma two_connections_lookup (k1 k2 : string) (d1 d2 : loc) k d :
  (<[k1 := d1]> (<[k2 := d2]> (∅ : gmap string loc))) !! k = Some d ->
  (k = k1 /\ d = d1) \/ (k = k2 /\ d = d2).
Proof.
  intros H. apply lookup_insert_Some in H as [[<- <-]|[_ H]]; [by left|].
  apply lookup_insert_Some in H as [[<- <-]|[_ H]]; [by right|].
  by rewrite lookup_empty in H.
Qed.

Lemma managerWorld_wf : wf_connections managerWorld.
Proof.
  split.
  - intros k d H. apply two_connections_lookup in H as [[_ ->]|[_ ->]]; cbn; lia.
  - intros k1 k2 d H1 H2.
    apply two_connections_lookup in H1 as [[-> E1]|[-> E1]];
      apply two_connections_lookup in H2 as [[-> E2]|[-> E2]]; congruence.
Qed.

Lemma C3_open_before_close_witness :
  wf_connections managerWorld
  /\ trace (setCurrentUserRoles ["cashier"] None healthyEnv managerWorld).2
     = [EvCloseDatabase 1%nat]
  /\ exists opening closing,
       trace (setCurrentUserRoles ["cashier"] None healthyEnv managerWorld).2
       = trace managerWorld ++ opening ++ closing
       /\ Forall (fresh_event 2) opening.
Proof.
  split; [exact managerWorld_wf|]. split; [vm_compute; reflexivity|].
  destruct (C3_open_before_close healthyEnv managerWorld ["cashier"] None
              managerWorld_wf) as (opening & closing & Ht & Ho & _).
  exists opening, closing. split; [exact Ht | exact Ho].
Defined.

End RoleSwitch.

(** * Further properties of the sources *)

(** ** Type mapping of [SQLiteDAO] *)
Section TypeMappingFacts.
Import DAOPure.

(** The storage classes the built-in table maps to. *)
Definition storageClasses : list string := ["TEXT"; "INTEGER"; "REAL"; "BLOB"].

Lemma assoc_In k v l : assoc k l = Some v -> In (k, v) l.
Proof.
  induction l as [|[k' v'] l IH]; cbn; [discriminate|].
  destruct (String.eqb k' k) eqn:E.
  - apply String.eqb_eq in E as ->. intros [= ->]. by left.
  - intros H. right. by apply IH.
Qed.

Lemma lower_upper_ascii c : lower_ascii (upper_ascii c) = lower_ascii c.
Proof. destruct c as [[] [] [] [] [] [] [] []]; reflexivity. Qed.

Lemma toLowerCase_toUpperCase s : toLowerCase (toUpperCase s) = toLowerCase s.
Proof.
  unfold toLowerCase, toUpperCase.
  induction s as [|c s IH]; cbn; [reflexivity|].
  by rewrite lower_upper_ascii, IH.
Qed.

(** Lower-case names that every JavaScript object inherits: a lookup of
    one of them in the literal table finds the inherited member, which the
    association list does not hold. *)
Definition inheritedKeys : list string := ["constructor"; "__proto__"].

(** X1: [getDefaultSQLiteType], on a type name of ASCII characters whose
    lower-case form is not an inherited name, always answers with one of
    the four storage classes, answers TEXT for a type the table does not
    list, and does not look at the case of the letters of its argument;
    without a type mapping [convertToSQLiteType] is
    [getDefaultSQLiteType]. *)
Theorem getDefaultSQLiteType_storage_class (genericType : string) :
  isAscii genericType = true ->
  toLowerCase genericType ∉ inheritedKeys ->
  getDefaultSQLiteType genericType ∈ storageClasses
  /\ (assoc (toLowerCase genericType) defaultMapping = None ->
      getDefaultSQLiteType genericType = "TEXT")
  /\ getDefaultSQLiteType (toUpperCase genericType)
     = getDefaultSQLiteType genericType
  /\ convertToSQLiteType None genericType = getDefaultSQLiteType genericType.
Proof.
  intros _ _. split; [|split; [|split]].
  - unfold getDefaultSQLiteType.
    destruct (assoc (toLowerCase genericType) defaultMapping) as [v|] eqn:E;
      [|apply list_elem_of_here].
    apply assoc_In in E.
    assert (Hall : forallb (fun kv : string * string =>
                      bool_decide (kv.2 ∈ storageClasses)
                      && negb (String.eqb kv.2 "")) defaultMapping = true)
      by reflexivity.
    rewrite forallb_forall in Hall. specialize (Hall _ E). cbn [snd] in Hall.
    apply andb_true_iff in Hall as [Hin Hne].
    apply bool_decide_eq_true in Hin.
    destruct v; [discriminate | exact Hin].
  - unfold getDefaultSQLiteType. by intros ->.
  - unfold getDefaultSQLiteType. by rewrite toLowerCase_toUpperCase.
  - reflexivity.
Qed.

Lemma getDefaultSQLiteType_storage_class_witness :
  getDefaultSQLiteType "geometry" = "TEXT"
  /\ getDefaultSQLiteType "VARCHAR" = getDefaultSQLiteType "varchar".
Proof.
  assert (Hnot : forall s, bool_decide (toLowerCase s ∈ inheritedKeys) = false ->
                 toLowerCase s ∉ inheritedKeys).
  { intros s H. by apply bool_decide_eq_false in H. }
  split.
  - apply (proj1 (proj2 (getDefaultSQLiteType_storage_class "geometry"
                           eq_refl (Hnot "geometry" eq_refl)))).
    reflexivity.
  - exact (proj1 (proj2 (proj2 (getDefaultSQLiteType_storage_class "varchar"
                                  eq_refl (Hnot "varchar" eq_refl))))).
Defined.

End TypeMappingFacts.

(** ** Records turned into descriptors *)
Section RecordTables.
Import DAOPure.

(** Entries of a record that an UPDATE sets: defined and not an id field. *)
Definition setEntries (idFields : list string) (json : list (string * JsValue))
  : list (string * JsValue) :=
  List.filter (fun kv => is_defined kv.2 && negb (includes idFields kv.1)) json.

(** Entries of a record that identify the row: a defined id field. *)
Definition idEntries (idFields : list string) (json : list (string * JsValue))
  : list (string * JsValue) :=
  List.filter (fun kv => includes idFields kv.1 && is_defined kv.2) json.

Lemma filter_map_comm {A B} (f : A -> B) (P : B -> bool) (l : list A) :
  List.filter P (map f l) = map f (List.filter (fun x => P (f x)) l).
Proof.
  induction l as [|x l IH]; cbn; [reflexivity|].
  destruct (P (f x)); cbn; by rewrite IH.
Qed.

Lemma in_wheres_idEntries idFields json kv :
  In kv json -> is_defined kv.2 = true ->
  in_wheres (Some (map (fun e => mkWhere e.1 e.2 None) (idEntries idFields json))) kv.1
  = includes idFields kv.1.
Proof.
  intros Hin Hdef. cbn [in_wheres].
  destruct (includes idFields kv.1) eqn:Hid.
  - apply existsb_exists. exists (mkWhere kv.1 kv.2 None).
    split; [|apply String.eqb_refl].
    apply (in_map (fun e => mkWhere e.1 e.2 None)).
    apply filter_In. split; [done|]. by rewrite Hid, Hdef.
  - apply not_true_is_false. intros H.
    apply existsb_exists in H as (wh & Hwh & Heq).
    apply in_map_iff in Hwh as (e & <- & He). cbn in Heq.
    apply filter_In in He as [_ He]. apply andb_true_iff in He as [He _].
    apply String.eqb_eq in Heq. rewrite Heq in He. congruence.
Qed.

Lemma update_set_columns name json idFields :
  List.filter
    (fun c => is_defined (col_value c)
              && negb (in_wheres (wheres (convertJsonToQueryTable name json idFields))
                         (col_name c)))
    (cols (convertJsonToQueryTable name json idFields))
  = map (fun kv => mkColumn kv.1 kv.2) (setEntries idFields json).
Proof.
  cbn [convertJsonToQueryTable cols wheres].
  rewrite filter_map_comm. f_equal. apply filter_ext_in.
  intros kv Hin. cbn [col_value col_name].
  destruct (is_defined kv.2) eqn:Hdef; [|reflexivity]. cbn [andb].
  f_equal. by apply (in_wheres_idEntries idFields json kv).
Qed.

Lemma updateStatement_of_record name json idFields :
  updateStatement (convertJsonToQueryTable name json idFields)
  = match setEntries idFields json, idEntries idFields json with
    | [], _ => inl (mkError "No columns to update")
    | _, [] => inl (mkError "WHERE clause is required for UPDATE operation")
    | s, i =>
        inr (("UPDATE " +:+ name +:+ " SET "
                +:+ join ", " (map (fun kv => kv.1 +:+ " = ?") s))
               +:+ " WHERE " +:+ join " AND " (map (fun kv => kv.1 +:+ " = ?") i),
             map (fun kv => stringify_if_object kv.2) s ++ map snd i)
    end.
Proof.
  unfold updateStatement. rewrite update_set_columns.
  destruct (setEntries idFields json) as [|s0 s]; [reflexivity|].
  cbn [map]. cbn [convertJsonToQueryTable wheres qt_name].
  fold (idEntries idFields json).
  destruct (idEntries idFields json) as [|i0 i]; [reflexivity|].
  cbn [map buildWhereClause fst snd]. rewrite !map_map. reflexivity.
Qed.

Lemma insertStatement_of_record name json idFields :
  insertStatement (convertJsonToQueryTable name json idFields)
  = match List.filter (fun kv => is_present kv.2) json with
    | [] => inl (mkError "No valid columns to insert")
    | p =>
        inr ("INSERT INTO " +:+ name +:+ " (" +:+ join ", " (map fst p)
               +:+ ") VALUES (" +:+ join ", " (map (fun _ => "?") p) +:+ ")",
             map (fun kv => stringify_if_object kv.2) p)
    end.
Proof.
  unfold insertStatement. cbn [convertJsonToQueryTable cols qt_name].
  rewrite filter_map_comm. cbn [col_value].
  destruct (List.filter (fun kv => is_present kv.2) json) as [|p0 p];
    [reflexivity|].
  cbn [map]. rewrite !map_map. reflexivity.
Qed.

(** X2: The UPDATE built from a record sets exactly the defined entries that are
    not id fields and filters on exactly the defined id fields; it is
    rejected when either list is empty, so an id field is never assigned.
    The INSERT built from a record lists exactly its present entries. *)
Theorem statements_of_record (name : string) (json : list (string * JsValue))
    (idFields : list string) :
  updateStatement (convertJsonToQueryTable name json idFields)
  = match setEntries idFields json, idEntries idFields json with
    | [], _ => inl (mkError "No columns to update")
    | _, [] => inl (mkError "WHERE clause is required for UPDATE operation")
    | s, i =>
        inr (("UPDATE " +:+ name +:+ " SET "
                +:+ join ", " (map (fun kv => kv.1 +:+ " = ?") s))
               +:+ " WHERE " +:+ join " AND " (map (fun kv => kv.1 +:+ " = ?") i),
             map (fun kv => stringify_if_object kv.2) s ++ map snd i)
    end
  /\ insertStatement (convertJsonToQueryTable name json idFields)
     = match List.filter (fun kv => is_present kv.2) json with
       | [] => inl (mkError "No valid columns to insert")
       | p =>
           inr ("INSERT INTO " +:+ name +:+ " (" +:+ join ", " (map fst p)
                  +:+ ") VALUES (" +:+ join ", " (map (fun _ => "?") p) +:+ ")",
                map (fun kv => stringify_if_object kv.2) p)
       end
  /\ Forall (fun kv => kv.1 ∉ idFields) (setEntries idFields json).
Proof.
  split; [apply updateStatement_of_record|].
  split; [apply insertStatement_of_record|].
  apply Forall_forall. intros kv Hin. apply list_elem_of_In in Hin.
  apply filter_In in Hin as [_ H]. apply andb_true_iff in H as [_ H].
  apply negb_true_iff in H. unfold includes in H.
  by apply bool_decide_eq_false in H.
Qed.

End RecordTables.

(** ** The role registry *)
Section RoleRegistryFacts.
Import ManagerLifecycle.
Import Manager.

Lemma registerRoles_world roleConfigs env w :
  registerRoles roleConfigs env w
  = (inr tt,
     set_manager
       (set_roleRegistry
          (foldl (fun reg rc => <[roleName rc := rc]> reg)
             (roleRegistry (manager w)) roleConfigs)
          (manager w)) w).
Proof.
  unfold registerRoles. revert w.
  induction roleConfigs as [|rc rcs IH]; intros w.
  - cbn. by destruct w as [? ? ? [] ?].
  - cbn [for_of foldl]. unfold bind. cbn. rewrite IH. reflexivity.
Qed.

Lemma foldl_register_lookup (rcs : list RoleConfig) (reg : gmap string RoleConfig)
    (rc : RoleConfig) :
  (forall rc', rc' ∈ rcs -> roleName rc' <> roleName rc) ->
  foldl (fun reg rc => <[roleName rc := rc]> reg) (<[roleName rc := rc]> reg) rcs
    !! roleName rc = Some rc.
Proof.
  revert reg. induction rcs as [|rc0 rcs IH]; intros reg Hlater; cbn.
  - apply lookup_insert_eq.
  - rewrite insert_insert_ne.
    + apply IH. intros rc' H. apply Hlater. by apply list_elem_of_further.
    + intros E. apply (Hlater rc0); [apply list_elem_of_here | done].
Qed.

(** X3: After [registerRoles], [getRoleDatabases] on the name of a registered
    role answers with the required keys followed by the optional keys of the
    last configuration given under that name, and the world is otherwise as
    [registerRoles] left it; on a name that is not registered it throws. *)
Theorem registered_role_databases (env : Env) (w : World)
    (before after : list RoleConfig) (rc : RoleConfig) (other : string) :
  (forall rc', rc' ∈ after -> roleName rc' <> roleName rc) ->
  let w' := (registerRoles (before ++ rc :: after) env w).2 in
  getRoleDatabases (roleName rc) env w'
  = (inr (requiredDatabases rc ++ default [] (optionalDatabases rc)), w')
  /\ (roleRegistry (manager w') !! other = None ->
      getRoleDatabases other env w'
      = (inl (mkError ("Role '" +:+ other +:+ "' is not registered.")), w'))
  /\ connections (manager w') = connections (manager w)
  /\ currentUserRoles (manager w') = currentUserRoles (manager w).
Proof.
  intros Hlast. cbv zeta. rewrite registerRoles_world. cbn [snd].
  unfold getRoleDatabases, bind, get_world. cbn [manager set_manager
    roleRegistry set_roleRegistry].
  rewrite foldl_app. cbn [foldl].
  rewrite (foldl_register_lookup after _ rc Hlast).
  split; [reflexivity|]. split; [by intros ->|]. split; reflexivity.
Qed.

Lemma registered_role_databases_witness :
  getRoleDatabases "staff" healthyEnv
    (registerRoles [staffRole] healthyEnv emptyWorld).2
  = (inr ["core"], (registerRoles [staffRole] healthyEnv emptyWorld).2).
Proof.
  refine (proj1 (registered_role_databases healthyEnv emptyWorld [] []
                   staffRole "x" _)).
  intros rc' H. by apply elem_of_nil in H.
Defined.

Lemma NoDup_set_add x (s : list string) : NoDup s -> NoDup (set_add x s).
Proof.
  intros H. unfold set_add. case_bool_decide as Hx; [done|].
  apply NoDup_app. split; [done|]. split; [|apply NoDup_singleton].
  intros y Hy Hy'. apply list_elem_of_singleton in Hy'. by subst.
Qed.

Lemma NoDup_add_all (l acc : list string) :
  NoDup acc -> NoDup (foldl (fun a x => set_add x a) acc l).
Proof.
  revert acc. induction l as [|x l IH]; intros acc H; cbn; [done|].
  by apply IH, NoDup_set_add.
Qed.

Lemma set_add_head x y (s : list string) : head (set_add x (y :: s)) = Some y.
Proof. unfold set_add. by case_bool_decide. Qed.

Lemma add_all_head (l : list string) y s :
  exists s', foldl (fun a x => set_add x a) (y :: s) l = y :: s'.
Proof.
  revert s. induction l as [|x l IH]; intros s; cbn; [by exists s|].
  unfold set_add. case_bool_decide; [apply IH|]. cbn. apply IH.
Qed.

(** X4: The array of [getCurrentUserDatabases] has no duplicate, starts with
    ['core'], and holds a key exactly when [hasAccessToDatabase] accepts
    it. *)
Theorem current_databases_unique (m : DatabaseManager) :
  NoDup (getCurrentUserDatabases m)
  /\ head (getCurrentUserDatabases m) = Some "core"
  /\ (forall k, k ∈ getCurrentUserDatabases m <-> hasAccessToDatabase m k = true).
Proof.
  unfold getCurrentUserDatabases, roleDatabases.
  split; [|split].
  - generalize (currentUserRoles m). intros roles.
    assert (H : NoDup ["core"]) by apply NoDup_singleton.
    revert H. generalize ["core"]. induction roles as [|r roles IH];
      intros acc H; cbn; [done|].
    apply IH. unfold add_role_databases.
    destruct (roleRegistry m !! r) as [rc|]; [|done].
    destruct (optionalDatabases rc); by repeat apply NoDup_add_all.
  - generalize (currentUserRoles m). intros roles.
    assert (H : exists s, ["core"] = "core" :: s) by (by exists []).
    revert H. generalize ["core"]. induction roles as [|r roles IH];
      intros acc [s ->]; cbn; [done|].
    apply IH. unfold add_role_databases.
    destruct (roleRegistry m !! r) as [rc|]; [|by exists s].
    destruct (add_all_head (requiredDatabases rc) "core" s) as [s1 ->].
    destruct (optionalDatabases rc) as [opt|]; [|by exists s1].
    apply add_all_head.
  - intros k. unfold hasAccessToDatabase, includes, getCurrentUserDatabases,
      roleDatabases. by rewrite bool_decide_eq_true.
Qed.

End RoleRegistryFacts.

(** ** Connection life cycle of a [SQLiteDAO] *)
Section DaoLifeCycle.
Import DAO.

(** A call is refused: it throws and the world, trace included, is as
    before. *)
Definition refused {A} (m : Async A) (env : Env) (w : World) : Prop :=
  (m env w).2 = w /\ exists e, (m env w).1 = inl e.

Lemma executeSql_disconnected env w d o sql params :
  daoHeap w !! d = Some o -> isConnected o = false ->
  executeSql d sql params env w
  = (inl (mkError "Database is not initialized"), w).
Proof.
  intros Hd Hc. unfold executeSql, bind, read. rewrite Hd.
  unfold isConnected in Hc. by destruct (db o), (isOpen o).
Qed.

Lemma executeSql_connected env w d o sql params :
  daoHeap w !! d = Some o -> isConnected o = true ->
  executeSql d sql params env w
  = (db_executeSql env (trace w) d sql params,
     set_trace (trace w ++ [EvExecuteSql d sql params]) w).
Proof.
  intros Hd Hc. unfold executeSql, bind, read. rewrite Hd.
  unfold isConnected in Hc. destruct (db o), (isOpen o); try done.
  unfold ask, get_world, emit_event, modify, native_result. cbn.
  by destruct (db_executeSql env (trace w) d sql params).
Qed.

Lemma run_statement_disconnected env w d o st :
  daoHeap w !! d = Some o -> isConnected o = false ->
  refused (run_statement d st) env w.
Proof.
  intros Hd Hc. destruct st as [e|[sql params]]; unfold refused, run_statement.
  - split; [done | by exists e].
  - unfold runSql, bind. rewrite (executeSql_disconnected env w d o) by done.
    split; [done | by eexists].
Qed.

(** X5: Through a DAO that is not connected nothing reaches the engine: every
    statement-issuing method throws and leaves the world as it is. *)
Theorem disconnected_dao_refuses (env : Env) (w : World) (d : loc) (o : SQLiteDAO)
    (sql : string) (params : list JsValue) (t : QueryTable) :
  daoHeap w !! d = Some o -> isConnected o = false ->
  refused (runSql d sql params) env w
  /\ refused (getRst d sql params) env w
  /\ refused (getRsts d sql params) env w
  /\ refused (insert d t) env w
  /\ refused (update d t) env w
  /\ refused (delete d t) env w
  /\ refused (select d t) env w
  /\ refused (selectAll d t) env w
  /\ refused (beginTransaction d) env w
  /\ refused (commitTransaction d) env w
  /\ refused (rollbackTransaction d) env w.
Proof.
  intros Hd Hc.
  pose proof (fun sql params => executeSql_disconnected env w d o sql params Hd Hc)
    as Hex.
  assert (Hrun : forall sql params, refused (runSql d sql params) env w).
  { intros s p. unfold refused, runSql, bind. rewrite Hex.
    split; [done | by eexists]. }
  repeat split; try apply Hrun;
    try (by apply (run_statement_disconnected env w d o));
    try (unfold getRst, getRsts, select, selectAll, getRst, getRsts, bind;
         rewrite Hex; cbn; first [done | by eexists]).
  all: unfold beginTransaction, commitTransaction, rollbackTransaction,
         bind at 1, read; rewrite Hd; destruct (inTransaction o); cbn [negb];
         first [ done | by eexists
               | (unfold bind, runSql, bind; rewrite Hex; cbn;
                  first [done | by eexists]) ].
Qed.

Definition closedCore : SQLiteDAO := mkDAO None false true "core.db" false None.

Lemma disconnected_dao_refuses_witness :
  refused (runSql 0 "SELECT 1" []) healthyEnv
    (mkWorld [] [closedCore] [] emptyManager emptyRegistry).
Proof.
  exact (proj1 (disconnected_dao_refuses healthyEnv
                  (mkWorld [] [closedCore] [] emptyManager emptyRegistry)
                  0 closedCore "SELECT 1" [] updateWithoutWhere eq_refl eq_refl)).
Defined.

Lemma connect_closed env w d o :
  daoHeap w !! d = Some o -> isOpen o = false ->
  connect d env w
  = match sqlite_openDatabase env (trace w) d (dbName o) with
    | Some e =>
        (inl e,
         set_daoHeap (<[d := set_isOpen false o]> (daoHeap w))
           (set_trace (trace w ++ [EvOpenDatabase d (dbName o)]) w))
    | None =>
        (inr tt,
         set_daoHeap (<[d := set_db (Some nativeHandle) true o]> (daoHeap w))
           (set_trace (trace w ++ [EvOpenDatabase d (dbName o)]) w))
    end.
Proof.
  intros Hd Ho. unfold connect, bind at 1, read. rewrite Hd, Ho.
  unfold try_catch, bind, ask, get_world, emit_event, modify, native_unit,
    read, write, ret, throw. cbn.
  destruct (sqlite_openDatabase env (trace w) d (dbName o)) as [e|]; cbn;
    by rewrite Hd.
Qed.

Lemma close_connected env w d o :
  daoHeap w !! d = Some o -> isConnected o = true ->
  close d env w
  = match db_close env (trace w) d with
    | Some e => (inl e, set_trace (trace w ++ [EvCloseDatabase d]) w)
    | None =>
        (inr tt,
         set_daoHeap (<[d := set_db None false o]> (daoHeap w))
           (set_trace (trace w ++ [EvCloseDatabase d]) w))
    end.
Proof.
  intros Hd Hc. unfold close, bind at 1, read. rewrite Hd.
  unfold isConnected in Hc. destruct (db o), (isOpen o); try done.
  unfold bind, ask, get_world, emit_event, modify, native_unit, read, write,
    ret, throw. cbn.
  destruct (db_close env (trace w) d) as [e|]; cbn; [done|]. by rewrite Hd.
Qed.

Lemma close_disconnected env w d o :
  daoHeap w !! d = Some o -> isConnected o = false ->
  close d env w = (inr tt, w).
Proof.
  intros Hd Hc. unfold close, bind, read. rewrite Hd.
  unfold isConnected in Hc. by destruct (db o), (isOpen o).
Qed.

(** X6: [connect] on an open DAO and [close] on a DAO that is not connected do
    nothing; a successful [connect] of a closed DAO makes it connected with
    one native open; a successful [close] after it makes one native close
    and leaves the DAO without handle; a failed [connect] leaves it closed
    and rethrows the error of the engine. *)
Theorem connect_close_cycle (env : Env) (w : World) (d : loc) (o : SQLiteDAO) :
  daoHeap w !! d = Some o ->
  (isOpen o = true -> connect d env w = (inr tt, w))
  /\ (isConnected o = false -> close d env w = (inr tt, w))
  /\ (isOpen o = false ->
      match sqlite_openDatabase env (trace w) d (dbName o) with
      | Some e =>
          connect d env w
          = (inl e,
             set_daoHeap (<[d := set_isOpen false o]> (daoHeap w))
               (set_trace (trace w ++ [EvOpenDatabase d (dbName o)]) w))
      | None =>
          let w1 := (connect d env w).2 in
          (connect d env w).1 = inr tt
          /\ trace w1 = trace w ++ [EvOpenDatabase d (dbName o)]
          /\ daoHeap w1 !! d = Some (set_db (Some nativeHandle) true o)
          /\ (db_close env (trace w1) d = None ->
              (close d env w1).1 = inr tt
              /\ trace (close d env w1).2 = trace w1 ++ [EvCloseDatabase d]
              /\ daoHeap (close d env w1).2 !! d = Some (set_db None false o))
      end).
Proof.
  intros Hd.
  assert (Hlt : d < length (daoHeap w)) by (by apply lookup_lt_Some in Hd).
  split; [|split].
  - intros Ho. unfold connect, bind, read. by rewrite Hd, Ho.
  - by apply close_disconnected.
  - intros Ho. rewrite (connect_closed env w d o Hd Ho).
    destruct (sqlite_openDatabase env (trace w) d (dbName o)) as [e|];
      [reflexivity|].
    cbv zeta. cbn [fst snd].
    set (w1 := set_daoHeap _ _).
    assert (Hd1 : daoHeap w1 !! d = Some (set_db (Some nativeHandle) true o)).
    { subst w1. cbn. by apply list_lookup_insert_eq. }
    split; [done|]. split; [done|]. split; [done|].
    intros Hclose. rewrite (close_connected env w1 d _ Hd1 eq_refl), Hclose.
    cbn [fst snd]. split; [done|]. split; [done|].
    subst w1. cbn. by rewrite list_insert_insert_eq, list_lookup_insert_eq.
Qed.

Lemma connect_close_cycle_witness :
  (connect 0 healthyEnv
     (mkWorld [] [closedCore] [] emptyManager emptyRegistry)).1 = inr tt.
Proof.
  pose proof (connect_close_cycle healthyEnv
                (mkWorld [] [closedCore] [] emptyManager emptyRegistry)
                0 closedCore eq_refl) as (_ & _ & H).
  exact (proj1 (H eq_refl)).
Defined.

End DaoLifeCycle.

(** * Schema initialisation *)
Section SchemaInitialisation.
Import DAOPure DAO Schema.

Definition stmt (d : loc) (sql : string) : Event := EvExecuteSql d sql [].

Lemma set_trace_same w : set_trace (trace w) w = w.
Proof. by destruct w. Qed.

Lemma set_trace_twice t1 t2 w : set_trace t2 (set_trace t1 w) = set_trace t2 w.
Proof. by destruct w. Qed.

Lemma runSql_connected env w d o sql params :
  daoHeap w !! d = Some o -> isConnected o = true ->
  runSql d sql params env w
  = (match db_executeSql env (trace w) d sql params with
     | inl e => inl e
     | inr _ => inr ("Executed: " +:+ sql)
     end,
     set_trace (trace w ++ [EvExecuteSql d sql params]) w).
Proof.
  intros Hd Hc. unfold runSql, bind at 1.
  rewrite (executeSql_connected env w d o sql params Hd Hc).
  by destruct (db_executeSql env (trace w) d sql params).
Qed.

Lemma beginTransaction_connected env w d o :
  daoHeap w !! d = Some o -> isConnected o = true -> inTransaction o = false ->
  beginTransaction d env w
  = match db_executeSql env (trace w) d "BEGIN TRANSACTION" [] with
    | inl e => (inl e, set_trace (trace w ++ [stmt d "BEGIN TRANSACTION"]) w)
    | inr _ =>
        (inr tt,
         set_daoHeap (<[d := set_inTransaction true o]> (daoHeap w))
           (set_trace (trace w ++ [stmt d "BEGIN TRANSACTION"]) w))
    end.
Proof.
  intros Hd Hc Ht. unfold beginTransaction, bind at 1, read. rewrite Hd, Ht.
  unfold bind at 1. rewrite (runSql_connected env w d o _ _ Hd Hc).
  destruct (db_executeSql env (trace w) d "BEGIN TRANSACTION" []); [done|].
  unfold bind, read, write, modify. cbn. by rewrite Hd.
Qed.

Lemma commitTransaction_connected env w d o :
  daoHeap w !! d = Some o -> isConnected o = true -> inTransaction o = true ->
  commitTransaction d env w
  = match db_executeSql env (trace w) d "COMMIT" [] with
    | inl e => (inl e, set_trace (trace w ++ [stmt d "COMMIT"]) w)
    | inr _ =>
        (inr tt,
         set_daoHeap (<[d := set_inTransaction false o]> (daoHeap w))
           (set_trace (trace w ++ [stmt d "COMMIT"]) w))
    end.
Proof.
  intros Hd Hc Ht. unfold commitTransaction, bind at 1, read. rewrite Hd, Ht.
  cbn [negb]. unfold bind at 1. rewrite (runSql_connected env w d o _ _ Hd Hc).
  destruct (db_executeSql env (trace w) d "COMMIT" []); [done|].
  unfold bind, read, write, modify. cbn. by rewrite Hd.
Qed.

Lemma rollbackTransaction_connected env w d o :
  daoHeap w !! d = Some o -> isConnected o = true -> inTransaction o = true ->
  rollbackTransaction d env w
  = match db_executeSql env (trace w) d "ROLLBACK" [] with
    | inl e => (inl e, set_trace (trace w ++ [stmt d "ROLLBACK"]) w)
    | inr _ =>
        (inr tt,
         set_daoHeap (<[d := set_inTransaction false o]> (daoHeap w))
           (set_trace (trace w ++ [stmt d "ROLLBACK"]) w))
    end.
Proof.
  intros Hd Hc Ht. unfold rollbackTransaction, bind at 1, read. rewrite Hd, Ht.
  cbn [negb]. unfold bind at 1. rewrite (runSql_connected env w d o _ _ Hd Hc).
  destruct (db_executeSql env (trace w) d "ROLLBACK" []); [done|].
  unfold bind, read, write, modify. cbn. by rewrite Hd.
Qed.

Lemma rollback_rethrow {A} env w d o e :
  daoHeap w !! d = Some o -> isConnected o = true -> inTransaction o = true ->
  (rollbackTransaction d ;;; throw (A:=A) e) env w
  = match db_executeSql env (trace w) d "ROLLBACK" [] with
    | inl e' => (inl e', set_trace (trace w ++ [stmt d "ROLLBACK"]) w)
    | inr _ =>
        (inl e,
         set_daoHeap (<[d := set_inTransaction false o]> (daoHeap w))
           (set_trace (trace w ++ [stmt d "ROLLBACK"]) w))
    end.
Proof.
  intros Hd Hc Ht. unfold bind.
  rewrite (rollbackTransaction_connected env w d o Hd Hc Ht).
  by destruct (db_executeSql env (trace w) d "ROLLBACK" []).
Qed.

Lemma rollbackTransaction_idle env w d o :
  daoHeap w !! d = Some o -> inTransaction o = false ->
  rollbackTransaction d env w = (inl (mkError "No transaction in progress"), w).
Proof.
  intros Hd Ht. unfold rollbackTransaction, bind, read. by rewrite Hd, Ht.
Qed.

(** The engine's answers to a list of statements issued one after the
    other on the connection of [d], stopping at the first one it refuses:
    the error if any, and the trace at the end. *)
Fixpoint attempt (env : Env) (d : loc) (tr : list Event) (sqls : list string)
  : option Error * list Event :=
  match sqls with
  | [] => (None, tr)
  | sql :: rest =>
      match db_executeSql env tr d sql [] with
      | inl e => (Some e, tr ++ [stmt d sql])
      | inr _ => attempt env d (tr ++ [stmt d sql]) rest
      end
  end.

Lemma attempt_app env d tr s1 s2 :
  attempt env d tr (s1 ++ s2)
  = match attempt env d tr s1 with
    | (Some e, tr') => (Some e, tr')
    | (None, tr') => attempt env d tr' s2
    end.
Proof.
  revert tr. induction s1 as [|sql s1 IH]; intros tr; cbn; [done|].
  destruct (db_executeSql env tr d sql []); [done|]. apply IH.
Qed.

(** Where a run of [attempt] stops: after all statements, or right after
    the first refused one. *)
Lemma attempt_trace env d tr sqls :
  match attempt env d tr sqls with
  | (None, tr') => tr' = tr ++ map (stmt d) sqls
  | (Some e, tr') =>
      exists k sql,
        sqls !! k = Some sql
        /\ tr' = tr ++ map (stmt d) (take (S k) sqls)
        /\ db_executeSql env (tr ++ map (stmt d) (take k sqls)) d sql [] = inl e
  end.
Proof.
  revert tr. induction sqls as [|sql sqls IH]; intros tr; cbn.
  - by rewrite app_nil_r.
  - destruct (db_executeSql env tr d sql []) as [e|rows] eqn:Hq.
    + exists 0, sql. cbn. rewrite take_0. cbn. by rewrite app_nil_r.
    + specialize (IH (tr ++ [stmt d sql])).
      destruct (attempt env d (tr ++ [stmt d sql]) sqls) as [[e|] tr'].
      * destruct IH as (k & sql' & Hk & -> & He).
        exists (S k), sql'. cbn. rewrite <- !app_assoc. cbn.
        split; [done|]. split; [done|].
        by rewrite <- app_assoc in He.
      * rewrite IH, <- app_assoc. done.
Qed.

Definition outcome (r : option Error) : Result unit :=
  match r with Some e => inl e | None => inr tt end.

(** A computation that does nothing but issue the statements [sqls] on the
    connected DAO [d] whose type mapping is [cfg]. *)
Definition scripted (d : loc) (cfg : option TypeMapping) (m : Async unit)
    (sqls : list string) : Prop :=
  forall env w o,
    daoHeap w !! d = Some o -> isConnected o = true -> typeMappingConfig o = cfg ->
    m env w = (outcome (attempt env d (trace w) sqls).1,
               set_trace (attempt env d (trace w) sqls).2 w).

Lemma scripted_ret d cfg : scripted d cfg (ret tt) [].
Proof. intros env w o _ _ _. cbn. by rewrite set_trace_same. Qed.

Lemma scripted_issue d cfg sql :
  scripted d cfg (runSql d sql [] ;;; ret tt) [sql].
Proof.
  intros env w o Hd Hc _. unfold bind.
  rewrite (runSql_connected env w d o _ _ Hd Hc). cbn.
  by destruct (db_executeSql env (trace w) d sql []).
Qed.

Lemma scripted_bind d cfg m1 m2 s1 s2 :
  scripted d cfg m1 s1 -> scripted d cfg m2 s2 ->
  scripted d cfg (m1 ;;; m2) (s1 ++ s2).
Proof.
  intros H1 H2 env w o Hd Hc Hcfg. unfold bind.
  rewrite (H1 env w o Hd Hc Hcfg), attempt_app.
  destruct (attempt env d (trace w) s1) as [[e|] tr1]; cbn; [done|].
  rewrite (H2 env (set_trace tr1 w) o); [|by destruct w..].
  by rewrite set_trace_twice; destruct w.
Qed.

Lemma scripted_for_of {A} d cfg (xs : list A) body (f : A -> list string) :
  (forall x, scripted d cfg (body x) (f x)) ->
  scripted d cfg (for_of xs body) (concat (map f xs)).
Proof.
  intros Hbody. induction xs as [|x xs IH]; cbn.
  - apply scripted_ret.
  - by apply scripted_bind.
Qed.

(** The statement created for one entry of [schema.schemas]. *)
Definition tableStatement (cfg : option TypeMapping) (entry : string * TableConfig)
  : string :=
  createTableSql
    (mkTableDefinition entry.1 (map (processColumnDefinition cfg) (tc_cols entry.2))
       (tc_indexes entry.2) (tc_foreign_keys entry.2)).

Definition indexStatementsOf (entry : string * TableConfig) : list string :=
  match tc_indexes entry.2 with
  | Some indexes => map (createIndexSql entry.1) indexes
  | None => []
  end.

(** The statements of a schema between [BEGIN TRANSACTION] and [COMMIT]:
    every table first, then every index. *)
Definition schemaStatements (cfg : option TypeMapping)
    (schema : DatabaseSchemaWithTypeMapping) : list string :=
  map (tableStatement cfg) (schemas schema)
  ++ concat (map indexStatementsOf (schemas schema)).

Lemma scripted_tables d cfg (entries : list (string * TableConfig)) :
  scripted d cfg
    (for_of entries (fun entry =>
       this <- read d ;;
       let tableDefinition :=
         mkTableDefinition entry.1
           (map (processColumnDefinition (typeMappingConfig this)) (tc_cols entry.2))
           (tc_indexes entry.2) (tc_foreign_keys entry.2) in
       createTableWithForeignKeys d tableDefinition ;;;
       ret tt))
    (map (tableStatement cfg) entries).
Proof.
  replace (map (tableStatement cfg) entries)
    with (concat (map (fun entry => [tableStatement cfg entry]) entries)).
  2:{ induction entries as [|x xs IH]; cbn; [done|]. by rewrite IH. }
  apply scripted_for_of. intros entry env w o Hd Hc Hcfg.
  unfold bind at 1, read. rewrite Hd, Hcfg.
  by apply (scripted_issue d cfg (tableStatement cfg entry) env w o).
Qed.

Lemma scripted_indexes d cfg (entries : list (string * TableConfig)) :
  scripted d cfg
    (for_of entries (fun entry =>
       match tc_indexes entry.2 with
       | Some (index :: indexes) =>
           createIndexesForTable d entry.1 (index :: indexes)
       | _ => ret tt
       end))
    (concat (map indexStatementsOf entries)).
Proof.
  apply scripted_for_of. intros entry. unfold indexStatementsOf.
  assert (Hall : forall indexes,
    scripted d cfg (createIndexesForTable d entry.1 indexes)
      (map (createIndexSql entry.1) indexes)).
  { intros indexes.
    replace (map (createIndexSql entry.1) indexes)
      with (concat (map (fun index => [createIndexSql entry.1 index]) indexes)).
    2:{ induction indexes as [|x xs IH]; cbn; [done|]. by rewrite IH. }
    apply scripted_for_of. intros index. apply scripted_issue. }
  destruct (tc_indexes entry.2) as [[|index indexes]|].
  - apply scripted_ret.
  - apply Hall.
  - apply scripted_ret.
Qed.


(** The DAO after [if (schema.type_mapping) this.setTypeMappingConfig(...)]. *)
Definition withMapping (schema : DatabaseSchemaWithTypeMapping) (o : SQLiteDAO)
  : SQLiteDAO :=
  match type_mapping schema with
  | Some config =>
      mkDAO (db o) (isOpen o) (isDebug o) (dbName o) (inTransaction o) (Some config)
  | None => o
  end.

Definition noTransaction : Error := mkError "No transaction in progress".

(** The run of [initializeFromSchema] on a connected DAO that is not in a
    transaction, as a function of the answers of the engine. *)
Definition schemaRun (env : Env) (w : World) (d : loc) (o : SQLiteDAO)
    (schema : DatabaseSchemaWithTypeMapping) : Result unit * World :=
  let o1 := withMapping schema o in
  let put o' tr := set_daoHeap (<[d := o']> (daoHeap w)) (set_trace tr w) in
  let t1 := trace w ++ [stmt d "PRAGMA foreign_keys = ON"] in
  let t2 := t1 ++ [stmt d "BEGIN TRANSACTION"] in
  match db_executeSql env (trace w) d "PRAGMA foreign_keys = ON" [] with
  | inl _ => (inl noTransaction, put o1 t1)
  | inr _ =>
      match db_executeSql env t1 d "BEGIN TRANSACTION" [] with
      | inl _ => (inl noTransaction, put o1 t2)
      | inr _ =>
          match attempt env d t2
                  (schemaStatements (typeMappingConfig o1) schema ++ ["COMMIT"]) with
          | (None, t3) => (inr tt, put o1 t3)
          | (Some e, t3) =>
              match db_executeSql env t3 d "ROLLBACK" [] with
              | inl e' =>
                  (inl e', put (set_inTransaction true o1) (t3 ++ [stmt d "ROLLBACK"]))
              | inr _ => (inl e, put o1 (t3 ++ [stmt d "ROLLBACK"]))
              end
          end
      end
  end.

Lemma set_inTransaction_same o b : inTransaction o = b -> set_inTransaction b o = o.
Proof. intros <-. by destruct o. Qed.

Lemma set_inTransaction_twice o a b :
  set_inTransaction b (set_inTransaction a o) = set_inTransaction b o.
Proof. done. Qed.

Lemma initializeFromSchema_run env w d o schema :
  daoHeap w !! d = Some o -> isConnected o = true -> inTransaction o = false ->
  initializeFromSchema d schema env w = schemaRun env w d o schema.
Proof.
  intros Hd Hc Ht.
  assert (Hlt : d < length (daoHeap w)) by (by apply lookup_lt_Some in Hd).
  unfold initializeFromSchema, schemaRun. unfold bind at 1, read at 1.
  rewrite Hd, Hc. cbn [negb]. cbv zeta.
  set (o1 := withMapping schema o).
  set (w1 := set_daoHeap (<[d := o1]> (daoHeap w)) w).
  assert (Hd1 : daoHeap w1 !! d = Some o1) by (by apply list_lookup_insert_eq).
  assert (Hc1 : isConnected o1 = true).
  { subst o1. unfold withMapping. by destruct (type_mapping schema). }
  assert (Ht1 : inTransaction o1 = false).
  { subst o1. unfold withMapping. by destruct (type_mapping schema). }
  unfold bind at 1.
  assert (Hpro :
    match type_mapping schema with
    | Some config => setTypeMappingConfig d config
    | None => ret tt
    end env w = (inr tt, w1)).
  { subst w1 o1. unfold withMapping.
    destruct (type_mapping schema) as [config|].
    - unfold setTypeMappingConfig, bind, read, write, modify. by rewrite Hd.
    - cbn. rewrite list_insert_id by done. by destruct w. }
  rewrite Hpro. clear Hpro.
  unfold try_catch. unfold bind at 1.
  rewrite (runSql_connected env w1 d o1 _ _ Hd1 Hc1).
  change (trace w1) with (trace w).
  change (EvExecuteSql d ?s []) with (stmt d s).
  set (t1 := trace w ++ [stmt d "PRAGMA foreign_keys = ON"]).
  destruct (db_executeSql env (trace w) d "PRAGMA foreign_keys = ON" [])
    as [e|rows].
  { unfold bind. rewrite (rollbackTransaction_idle env _ d o1); [|done|done].
    by destruct w. }
  unfold bind at 1.
  rewrite (beginTransaction_connected env (set_trace t1 w1) d o1); [|done..].
  change (trace (set_trace t1 w1)) with t1.
  set (t2 := t1 ++ [stmt d "BEGIN TRANSACTION"]).
  destruct (db_executeSql env t1 d "BEGIN TRANSACTION" []) as [e|rows'].
  { unfold bind. rewrite (rollbackTransaction_idle env _ d o1); [|done|done].
    by destruct w. }
  set (o2 := set_inTransaction true o1).
  set (w2 := set_daoHeap _ _).
  assert (Hd2 : daoHeap w2 !! d = Some o2).
  { subst w2. cbn. apply list_lookup_insert_eq. by rewrite length_insert. }
  assert (Hc2 : isConnected o2 = true) by done.
  assert (Hcfg2 : typeMappingConfig o2 = typeMappingConfig o1) by done.
  assert (Hw2 : forall tr o',
    set_daoHeap (<[d := o']> (daoHeap w2)) (set_trace tr w2)
    = set_daoHeap (<[d := o']> (daoHeap w)) (set_trace tr w)).
  { intros tr o'. subst w2 w1. destruct w. cbn.
    by rewrite !list_insert_insert_eq. }
  assert (Hw2' : forall tr,
    set_trace tr w2 = set_daoHeap (<[d := o2]> (daoHeap w)) (set_trace tr w)).
  { intros tr. subst w2 w1. destruct w. cbn.
    by rewrite !list_insert_insert_eq. }
  unfold schemaStatements. rewrite <- app_assoc, !attempt_app.
  unfold bind at 1.
  pose proof (scripted_tables d (typeMappingConfig o1) (schemas schema)
                env w2 o2 Hd2 Hc2 Hcfg2) as Htables.
  cbv zeta in Htables. rewrite Htables. clear Htables.
  change (trace w2) with t2.
  assert (Hrb : forall tr e,
    (rollbackTransaction d ;;; throw (A:=unit) e) env (set_trace tr w2)
    = match db_executeSql env tr d "ROLLBACK" [] with
      | inl e' =>
          (inl e',
           set_daoHeap (<[d := o2]> (daoHeap w))
             (set_trace (tr ++ [stmt d "ROLLBACK"]) w))
      | inr _ =>
          (inl e,
           set_daoHeap (<[d := o1]> (daoHeap w))
             (set_trace (tr ++ [stmt d "ROLLBACK"]) w))
      end).
  { intros tr e.
    rewrite (rollback_rethrow env (set_trace tr w2) d o2 e); [|done..].
    change (trace (set_trace tr w2)) with tr.
    change (daoHeap (set_trace tr w2)) with (daoHeap w2).
    rewrite !set_trace_twice, Hw2, Hw2'. unfold o2.
    rewrite set_inTransaction_twice.
    by rewrite (set_inTransaction_same o1 false Ht1). }
  destruct (attempt env d t2 (map (tableStatement (typeMappingConfig o1))
                                (schemas schema))) as [[e|] t3]; cbn [fst snd outcome].
  { apply Hrb. }
  rewrite attempt_app. unfold bind at 1.
  rewrite (scripted_indexes d (typeMappingConfig o1) (schemas schema)
             env (set_trace t3 w2) o2 Hd2 Hc2 Hcfg2).
  change (trace (set_trace t3 w2)) with t3.
  destruct (attempt env d t3 (concat (map indexStatementsOf (schemas schema))))
    as [[e|] t4]; cbn [fst snd outcome]; rewrite set_trace_twice.
  { apply Hrb. }
  rewrite (commitTransaction_connected env (set_trace t4 w2) d o2); [|done..].
  change (trace (set_trace t4 w2)) with t4. cbn [attempt].
  destruct (db_executeSql env t4 d "COMMIT" []) as [e|?].
  - rewrite set_trace_twice. apply Hrb.
  - rewrite set_trace_twice.
    change (daoHeap (set_trace ?t w2)) with (daoHeap w2).
    rewrite Hw2. unfold o2. rewrite set_inTransaction_twice.
    by rewrite (set_inTransaction_same o1 false Ht1).
Qed.


Definition pragmaOn : string := "PRAGMA foreign_keys = ON".

(** The statements of a successful initialisation, in the order they are
    issued. *)
Definition schemaScript (o : SQLiteDAO) (schema : DatabaseSchemaWithTypeMapping)
  : list string :=
  pragmaOn :: "BEGIN TRANSACTION"
  :: schemaStatements (typeMappingConfig (withMapping schema o)) schema ++ ["COMMIT"].

Definition accepting (env : Env) (d : loc) : Prop :=
  forall tr sql params, exists rows, db_executeSql env tr d sql params = inr rows.

Lemma attempt_accepting env d tr sqls :
  accepting env d -> attempt env d tr sqls = (None, tr ++ map (stmt d) sqls).
Proof.
  intros Hacc. revert tr. induction sqls as [|sql sqls IH]; intros tr; cbn.
  - by rewrite app_nil_r.
  - destruct (Hacc tr sql []) as [rows ->]. rewrite IH, <- app_assoc. done.
Qed.

(** X7: On an engine that accepts every statement, [initializeFromSchema] on a
    connected DAO outside a transaction succeeds; it issues, in this order
    and nothing else: the foreign-key pragma, BEGIN TRANSACTION, one CREATE
    TABLE per entry of the schema in the order of the entries, then the
    CREATE INDEX statements of every entry, then COMMIT.  The DAO keeps the
    type mapping of the schema and is outside a transaction again. *)
Theorem initializeFromSchema_script (env : Env) (w : World) (d : loc)
    (o : SQLiteDAO) (schema : DatabaseSchemaWithTypeMapping) :
  daoHeap w !! d = Some o -> isConnected o = true -> inTransaction o = false ->
  accepting env d ->
  let out := initializeFromSchema d schema env w in
  out.1 = inr tt
  /\ trace out.2 = trace w ++ map (stmt d) (schemaScript o schema)
  /\ daoHeap out.2 !! d = Some (withMapping schema o)
  /\ inTransaction (withMapping schema o) = false
  /\ (forall config, type_mapping schema = Some config ->
        typeMappingConfig (withMapping schema o) = Some config).
Proof.
  intros Hd Hc Ht Hacc. cbv zeta.
  assert (Hlt : d < length (daoHeap w)) by (by apply lookup_lt_Some in Hd).
  rewrite (initializeFromSchema_run env w d o schema Hd Hc Ht).
  unfold schemaRun.
  destruct (Hacc (trace w) "PRAGMA foreign_keys = ON" []) as [r1 ->].
  destruct (Hacc (trace w ++ [stmt d "PRAGMA foreign_keys = ON"])
              "BEGIN TRANSACTION" []) as [r2 ->].
  rewrite (attempt_accepting env d _ _ Hacc). cbn [fst snd].
  split; [done|]. split.
  { unfold schemaScript, pragmaOn. cbn [trace set_daoHeap set_trace map].
    destruct w; cbn. by rewrite <- !app_assoc. }
  split.
  { cbn. by apply list_lookup_insert_eq. }
  split.
  { unfold withMapping. by destruct (type_mapping schema). }
  intros config Hcfg. unfold withMapping. by rewrite Hcfg.
Qed.

(** X8: If the pragma and BEGIN TRANSACTION are accepted, a failed
    initialisation stopped at the first statement the engine refused and
    issued ROLLBACK right after it, and nothing more; when the engine accepts
    the ROLLBACK the caller gets the error of the refused statement and the
    DAO is outside a transaction. *)
Theorem initializeFromSchema_rolls_back (env : Env) (w : World) (d : loc)
    (o : SQLiteDAO) (schema : DatabaseSchemaWithTypeMapping) (err : Error) :
  daoHeap w !! d = Some o -> isConnected o = true -> inTransaction o = false ->
  (exists rows, db_executeSql env (trace w) d pragmaOn [] = inr rows) ->
  (exists rows,
     db_executeSql env (trace w ++ [stmt d pragmaOn]) d "BEGIN TRANSACTION" []
     = inr rows) ->
  let out := initializeFromSchema d schema env w in
  out.1 = inl err ->
  exists k sql e,
    schemaScript o schema !! (2 + k) = Some sql
    /\ db_executeSql env
         (trace w ++ map (stmt d) (take (2 + k) (schemaScript o schema))) d sql []
       = inl e
    /\ trace out.2
       = trace w ++ map (stmt d) (take (3 + k) (schemaScript o schema))
         ++ [stmt d "ROLLBACK"]
    /\ match db_executeSql env
               (trace w ++ map (stmt d) (take (3 + k) (schemaScript o schema)))
               d "ROLLBACK" [] with
       | inr _ =>
           err = e /\ exists o', daoHeap out.2 !! d = Some o'
                                /\ inTransaction o' = false
       | inl e' => err = e'
       end.
Proof.
  intros Hd Hc Ht [r1 H1] [r2 H2]. cbv zeta.
  assert (Hlt : d < length (daoHeap w)) by (by apply lookup_lt_Some in Hd).
  rewrite (initializeFromSchema_run env w d o schema Hd Hc Ht).
  unfold schemaRun. unfold pragmaOn in H1, H2. rewrite H1, H2.
  set (body := schemaStatements _ schema ++ ["COMMIT"]).
  set (t2 := (trace w ++ _) ++ _).
  pose proof (attempt_trace env d t2 body) as Hat.
  destruct (attempt env d t2 body) as [[e|] t3]; [|done].
  destruct Hat as (k & sql & Hk & -> & He).
  assert (Ht2 : forall n,
    t2 ++ map (stmt d) (take n body)
    = trace w ++ map (stmt d) (take (2 + n) (schemaScript o schema))).
  { intros n. subst t2. unfold schemaScript, pragmaOn. cbn.
    by rewrite <- !app_assoc. }
  intros Hout. exists k, sql, e.
  split; [exact Hk|]. split; [by rewrite <- Ht2|].
  change (3 + k) with (2 + S k). rewrite (app_assoc (trace w)), <- (Ht2 (S k)).
  destruct (db_executeSql env (t2 ++ map (stmt d) (take (S k) body)) d "ROLLBACK" [])
    as [e'|rows].
  - cbn in Hout. injection Hout as <-. split; [|done]. by destruct w.
  - cbn in Hout. injection Hout as <-. split; [by destruct w|].
    split; [done|]. exists (withMapping schema o). split.
    + cbn. by apply list_lookup_insert_eq.
    + unfold withMapping. by destruct (type_mapping schema).
Qed.

(** X9: Errors before the transaction is open.  A DAO that is not connected
    gets the not-connected error and nothing happens.  On a connected DAO
    outside a transaction, an engine error on the pragma or on BEGIN
    TRANSACTION does not reach the caller: the catch block calls
    [rollbackTransaction], whose guard throws 'No transaction in progress',
    and that is the error thrown; no ROLLBACK is issued. *)
Theorem initializeFromSchema_early_errors (env : Env) (w : World) (d : loc)
    (o : SQLiteDAO) (schema : DatabaseSchemaWithTypeMapping) :
  daoHeap w !! d = Some o ->
  let out := initializeFromSchema d schema env w in
  (isConnected o = false -> out = (inl notConnectedError, w))
  /\ (isConnected o = true -> inTransaction o = false ->
      forall e,
        db_executeSql env (trace w) d pragmaOn [] = inl e ->
        out.1 = inl noTransaction
        /\ trace out.2 = trace w ++ [stmt d pragmaOn])
  /\ (isConnected o = true -> inTransaction o = false ->
      forall rows e,
        db_executeSql env (trace w) d pragmaOn [] = inr rows ->
        db_executeSql env (trace w ++ [stmt d pragmaOn]) d "BEGIN TRANSACTION" []
        = inl e ->
        out.1 = inl noTransaction
        /\ trace out.2 = trace w ++ [stmt d pragmaOn; stmt d "BEGIN TRANSACTION"]).
Proof.
  intros Hd. cbv zeta. split; [|split].
  - intros Hc. unfold initializeFromSchema, bind, read. by rewrite Hd, Hc.
  - intros Hc Ht e He.
    rewrite (initializeFromSchema_run env w d o schema Hd Hc Ht).
    unfold schemaRun. unfold pragmaOn in He. rewrite He. done.
  - intros Hc Ht rows e H1 H2.
    rewrite (initializeFromSchema_run env w d o schema Hd Hc Ht).
    unfold schemaRun. unfold pragmaOn in H1, H2. rewrite H1, H2.
    split; [done|]. cbn. by rewrite <- app_assoc.
Qed.

(** X10: Called on a DAO that is inside a transaction, [initializeFromSchema]
    fails on the guard of [beginTransaction], and its catch block then rolls
    back the transaction of the caller: the statements issued are the pragma
    and ROLLBACK, the error is 'Transaction already in progress' and the DAO
    ends outside a transaction. *)
Theorem initializeFromSchema_inside_transaction (env : Env) (w : World) (d : loc)
    (o : SQLiteDAO) (schema : DatabaseSchemaWithTypeMapping) :
  daoHeap w !! d = Some o -> isConnected o = true -> inTransaction o = true ->
  accepting env d ->
  let out := initializeFromSchema d schema env w in
  out.1 = inl (mkError "Transaction already in progress")
  /\ trace out.2 = trace w ++ [stmt d pragmaOn; stmt d "ROLLBACK"]
  /\ daoHeap out.2 !! d = Some (set_inTransaction false (withMapping schema o)).
Proof.
  intros Hd Hc Ht Hacc. cbv zeta.
  assert (Hlt : d < length (daoHeap w)) by (by apply lookup_lt_Some in Hd).
  set (o1 := withMapping schema o).
  assert (Heq : initializeFromSchema d schema env w
    = (inl (mkError "Transaction already in progress"),
       set_daoHeap (<[d := set_inTransaction false o1]> (daoHeap w))
         (set_trace (trace w ++ [stmt d pragmaOn; stmt d "ROLLBACK"]) w))).
  { unfold initializeFromSchema. unfold bind at 1, read at 1.
    rewrite Hd, Hc. cbn [negb].
    set (w1 := set_daoHeap (<[d := o1]> (daoHeap w)) w).
    assert (Hd1 : daoHeap w1 !! d = Some o1) by (by apply list_lookup_insert_eq).
    assert (Hc1 : isConnected o1 = true).
    { subst o1. unfold withMapping. by destruct (type_mapping schema). }
    assert (Ht1 : inTransaction o1 = true).
    { subst o1. unfold withMapping. by destruct (type_mapping schema). }
    unfold bind at 1.
    assert (Hpro :
      match type_mapping schema with
      | Some config => setTypeMappingConfig d config
      | None => ret tt
      end env w = (inr tt, w1)).
    { subst w1 o1. unfold withMapping.
      destruct (type_mapping schema) as [config|].
      - unfold setTypeMappingConfig, bind, read, write, modify. by rewrite Hd.
      - cbn. rewrite list_insert_id by done. by destruct w. }
    rewrite Hpro. clear Hpro.
    unfold try_catch. unfold bind at 1.
    rewrite (runSql_connected env w1 d o1 _ _ Hd1 Hc1).
    destruct (Hacc (trace w1) "PRAGMA foreign_keys = ON" []) as [r1 ->].
    unfold bind at 1.
    set (w2 := set_trace _ w1).
    assert (Hd2 : daoHeap w2 !! d = Some o1) by exact Hd1.
    assert (Hbusy : beginTransaction d env w2
                    = (inl (mkError "Transaction already in progress"), w2)).
    { unfold beginTransaction, bind, read. by rewrite Hd2, Ht1. }
    rewrite Hbusy.
    rewrite (rollback_rethrow env w2 d o1 _ Hd2 Hc1 Ht1).
    destruct (Hacc (trace w2) "ROLLBACK" []) as [r2 ->].
    subst w2 w1. destruct w. cbn.
    by rewrite <- app_assoc, list_insert_insert_eq. }
  rewrite Heq. cbn [fst snd]. split; [done|]. split; [done|].
  cbn. by apply list_lookup_insert_eq.
Qed.


Definition usersSchema : DatabaseSchemaWithTypeMapping :=
  mkDatabaseSchema "1" "core" None
    [("users",
      mkTableConfig
        [mkColumnDefinition "id" "integer" None None None None None None
           (Some "primary key autoincrement");
         mkColumnDefinition "name" "varchar" None None None None None None
           (Some "not null")]
        (Some [mkIndexDefinition "idx_users_name" ["name"] (Some true)])
        None)].

(** An engine that refuses one statement. *)
Definition refusingEnv (refused : string) : Env :=
  mkEnv "/data/documents" ["core"]
    (fun _ _ => inr true) (fun _ _ => None) (fun _ _ _ => None)
    (fun _ _ sql _ =>
       if String.eqb sql refused then inl (mkError "disk I/O error") else inr [])
    (fun _ _ => None).

Lemma healthyEnv_accepting d : accepting healthyEnv d.
Proof. intros tr sql params. by exists []. Qed.

Lemma initializeFromSchema_script_witness :
  (initializeFromSchema 0 usersSchema healthyEnv coreWorld).1 = inr tt
  /\ trace (initializeFromSchema 0 usersSchema healthyEnv coreWorld).2
     = map (stmt 0)
         ["PRAGMA foreign_keys = ON";
          "BEGIN TRANSACTION";
          "CREATE TABLE IF NOT EXISTS users (id INTEGER PRIMARY KEY AUTOINCREMENT, name TEXT NOT NULL)";
          "CREATE UNIQUE INDEX IF NOT EXISTS idx_users_name ON users (name)";
          "COMMIT"].
Proof.
  pose proof (initializeFromSchema_script healthyEnv coreWorld 0 connectedCore
                usersSchema eq_refl eq_refl eq_refl (healthyEnv_accepting 0))
    as (H1 & H2 & _).
  split; [exact H1 | exact H2].
Defined.

Lemma initializeFromSchema_rolls_back_witness :
  exists k sql e,
    schemaScript connectedCore usersSchema !! (2 + k) = Some sql
    /\ db_executeSql (refusingEnv "COMMIT")
         (trace coreWorld
          ++ map (stmt 0) (take (2 + k) (schemaScript connectedCore usersSchema)))
         0 sql []
       = inl e
    /\ trace (initializeFromSchema 0 usersSchema (refusingEnv "COMMIT") coreWorld).2
       = trace coreWorld
         ++ map (stmt 0) (take (3 + k) (schemaScript connectedCore usersSchema))
         ++ [stmt 0 "ROLLBACK"]
    /\ match db_executeSql (refusingEnv "COMMIT")
               (trace coreWorld
                ++ map (stmt 0)
                     (take (3 + k) (schemaScript connectedCore usersSchema)))
               0 "ROLLBACK" [] with
       | inr _ =>
           mkError "disk I/O error" = e
           /\ exists o',
               daoHeap (initializeFromSchema 0 usersSchema
                          (refusingEnv "COMMIT") coreWorld).2 !! 0 = Some o'
               /\ inTransaction o' = false
       | inl e' => mkError "disk I/O error" = e'
       end.
Proof.
  apply (initializeFromSchema_rolls_back (refusingEnv "COMMIT") coreWorld 0
           connectedCore usersSchema (mkError "disk I/O error")
           eq_refl eq_refl eq_refl).
  - by exists [].
  - by exists [].
  - vm_compute. reflexivity.
Defined.

Lemma initializeFromSchema_early_errors_witness :
  initializeFromSchema 0 usersSchema (refusingEnv pragmaOn)
    (mkWorld [] [closedCore] [] emptyManager emptyRegistry)
  = (inl notConnectedError, mkWorld [] [closedCore] [] emptyManager emptyRegistry)
  /\ (initializeFromSchema 0 usersSchema (refusingEnv pragmaOn) coreWorld).1
     = inl noTransaction.
Proof.
  split.
  - apply (initializeFromSchema_early_errors (refusingEnv pragmaOn)
             (mkWorld [] [closedCore] [] emptyManager emptyRegistry) 0 closedCore
             usersSchema eq_refl).
    reflexivity.
  - pose proof (initializeFromSchema_early_errors (refusingEnv pragmaOn)
                  coreWorld 0 connectedCore usersSchema eq_refl) as (_ & H & _).
    exact (proj1 (H eq_refl eq_refl (mkError "disk I/O error") eq_refl)).
Defined.

Definition busyCore : SQLiteDAO :=
  mkDAO (Some nativeHandle) true true "core.db" true None.

Lemma initializeFromSchema_inside_transaction_witness :
  (initializeFromSchema 0 usersSchema healthyEnv
     (mkWorld [] [busyCore] [] emptyManager emptyRegistry)).1
  = inl (mkError "Transaction already in progress")
  /\ trace (initializeFromSchema 0 usersSchema healthyEnv
              (mkWorld [] [busyCore] [] emptyManager emptyRegistry)).2
     = [stmt 0 pragmaOn; stmt 0 "ROLLBACK"].
Proof.
  pose proof (initializeFromSchema_inside_transaction healthyEnv
                (mkWorld [] [busyCore] [] emptyManager emptyRegistry) 0 busyCore
                usersSchema eq_refl eq_refl eq_refl (healthyEnv_accepting 0))
    as (H1 & H2 & _).
  split; [exact H1 | exact H2].
Defined.

End SchemaInitialisation.

(** * Frames of the DAO operations *)
Section DaoFrames.

(** A part of the world that neither the trace nor the DAO heap belongs to
    is left alone by the DAO and by [DatabaseFactory.openExisting]. *)
Context {T : Type} (proj : World -> T).
Hypothesis proj_trace : forall tr w, proj (set_trace tr w) = proj w.
Hypothesis proj_daoHeap : forall h w, proj (set_daoHeap h w) = proj w.

Lemma frame_dao_read d : preserves (keeps proj) (DAO.read d).
Proof. intros env w. unfold DAO.read. by destruct (daoHeap w !! d). Qed.

Lemma frame_dao_write d o : preserves (keeps proj) (DAO.write d o).
Proof. intros env w. apply proj_daoHeap. Qed.

Lemma frame_emit_event ev : preserves (keeps proj) (emit_event ev).
Proof. intros env w. apply proj_trace. Qed.

Ltac frame_steps :=
  repeat first
    [ apply frame_dao_read | apply frame_dao_write | apply frame_emit_event
    | preserves_step ].

Lemma frame_executeSql d sql params :
  preserves (keeps proj) (DAO.executeSql d sql params).
Proof. unfold DAO.executeSql. frame_steps. Qed.

Lemma frame_runSql d sql params : preserves (keeps proj) (DAO.runSql d sql params).
Proof.
  unfold DAO.runSql. apply (preserves_bind _); [apply frame_executeSql|].
  intros _. apply (preserves_ret _).
Qed.

Lemma frame_connect d : preserves (keeps proj) (DAO.connect d).
Proof. unfold DAO.connect. frame_steps. Qed.

Lemma frame_close d : preserves (keeps proj) (DAO.close d).
Proof. unfold DAO.close. frame_steps. Qed.

Lemma frame_new name debug : preserves (keeps proj) (DAO.new name debug).
Proof. intros env w. apply proj_daoHeap. Qed.

Lemma frame_openExisting name : preserves (keeps proj) (Factory.openExisting name).
Proof.
  unfold Factory.openExisting.
  repeat first
    [ apply frame_connect | apply frame_close | apply frame_runSql
    | apply frame_new | apply frame_emit_event | preserves_step ].
Qed.

End DaoFrames.

(** * Guards of the connection manager *)
Section ManagerGuards.
Import Manager.

Lemma keeps_manager_runSql d sql params :
  preserves (keeps manager) (DAO.runSql d sql params).
Proof. by apply frame_runSql. Qed.

Lemma keeps_manager_openExisting name :
  preserves (keeps manager) (Factory.openExisting name).
Proof. by apply frame_openExisting. Qed.

Definition invalidKey (key : string) : Error :=
  mkError ("Invalid database key: " +:+ key +:+ ". Not found in schemaConfigurations.").

Definition poolExhausted : Error :=
  mkError "Maximum number of database connections reached".

(** X11: [getLazyLoading] checks, in this order: access, the cache, the schema
    registry, the size of the pool; no active role is named like a member of
    [Object.prototype].  A key outside the databases of the current roles is
    denied even when a connection is cached under it; a cached connection of
    an accessible key is returned without any native call and without a
    look at the pool size; for a key that is not the name of a member of
    [Object.prototype], an unknown key and a full pool are reported with the
    world, the initialised flag included, left as it was. *)
Theorem getLazyLoading_guards (env : Env) (w : World) (key : string) :
  let m := manager w in
  (forall r, r ∈ currentUserRoles m -> r ∉ objectPrototypeKeys) ->
  (hasAccessToDatabase m key = false ->
     getLazyLoading key env w = (inl (accessDenied key (currentUserRoles m)), w))
  /\ (hasAccessToDatabase m key = true ->
      forall d, connections m !! key = Some d ->
        getLazyLoading key env w = (inr (Some d), set_manager (set_listening m) w))
  /\ (hasAccessToDatabase m key = true -> connections m !! key = None ->
      key ∉ objectPrototypeKeys ->
      includes (schemaConfigurations env) key = false ->
      getLazyLoading key env w = (inl (invalidKey key), w))
  /\ (hasAccessToDatabase m key = true -> connections m !! key = None ->
      key ∉ objectPrototypeKeys ->
      includes (schemaConfigurations env) key = true ->
      maxConnections m <= size (connections m) ->
      getLazyLoading key env w = (inl poolExhausted, w)).
Proof.
  cbv zeta. intros _.
  unfold getLazyLoading, bind, get_world, ask, setupAppStateListener,
    modify. split; [|split; [|split]].
  - by intros ->.
  - intros -> d Hd. rewrite Hd. cbn. by rewrite Hd.
  - intros H1 H2 _ H3. rewrite H1, H2. cbn. by rewrite H3.
  - intros H1 H2 _ H3 Hfull. apply Nat.leb_le in Hfull.
    rewrite H1, H2. cbn. rewrite H3. cbn. by rewrite Hfull.
Qed.

(** X12: The pool check of [getLazyLoading], for a call during which no other
    call changes the connection map (the check is made when the call
    starts and the store after two awaits) and for names that are not names
    of members of [Object.prototype].  Whatever the native collaborators
    answer, the call leaves the connection map as it was or adds one entry,
    under its key; it adds one only if, when it was called, the key had no
    connection and the map had fewer than [maxConnections] entries.  So a
    connection map within [maxConnections] stays within it, and
    [maxConnections] itself is not changed. *)
Theorem getLazyLoading_pool_bound (env : Env) (w : World) (key : string) :
  (forall r, r ∈ currentUserRoles (manager w) -> r ∉ objectPrototypeKeys) ->
  key ∉ objectPrototypeKeys ->
  let w' := (getLazyLoading key env w).2 in
  (connections (manager w') = connections (manager w)
   \/ (connections (manager w) !! key = None
       /\ size (connections (manager w)) < maxConnections (manager w)
       /\ exists d : loc,
            length (daoHeap w) <= d
            /\ connections (manager w') = <[key := d]> (connections (manager w))))
  /\ maxConnections (manager w') = maxConnections (manager w)
  /\ (size (connections (manager w)) <= maxConnections (manager w) ->
      size (connections (manager w')) <= maxConnections (manager w')).
Proof.
  intros _ _. cbv zeta.
  set (stored := fun w' : World =>
         connections (manager w') = connections (manager w)
         \/ (connections (manager w) !! key = None
             /\ size (connections (manager w)) < maxConnections (manager w)
             /\ exists d : loc,
                  length (daoHeap w) <= d
                  /\ connections (manager w')
                     = <[key := d]> (connections (manager w)))).
  assert (Hmain : stored (getLazyLoading key env w).2
                  /\ maxConnections (manager (getLazyLoading key env w).2)
                     = maxConnections (manager w)).
  { set (good := fun out : Result (option loc) * World =>
           stored out.2
           /\ maxConnections (manager out.2) = maxConnections (manager w)).
    change (good (getLazyLoading key env w)).
    unfold getLazyLoading. unfold bind at 1, get_world.
    destruct (hasAccessToDatabase (manager w) key); cbn [negb];
      [|by split; [left|]].
    assert (Htail : forall w1,
      stored w1 -> maxConnections (manager w1) = maxConnections (manager w) ->
      good ((setupAppStateListener ;;;
             w0 <- get_world ;; ret (connections (manager w0) !! key)) env w1)).
    { intros w1 H1 H2. split; [|exact H2].
      destruct H1 as [H1|(Hn & Hlt & d & Hd & H1)]; [by left|].
      right. split; [done|]. split; [done|]. by exists d. }
    unfold bind at 1.
    destruct (connections (manager w) !! key) as [d|] eqn:Hk.
    { apply Htail; [by left | done]. }
    unfold bind at 1, ask.
    destruct (includes (schemaConfigurations env) key); cbn [negb];
      [|by split; [left|]].
    destruct (maxConnections (manager w) <=? size (connections (manager w)))%nat
      eqn:Hfull; [by split; [left|]|].
    apply Nat.leb_gt in Hfull.
    unfold bind at 1.
    pose proof (keeps_manager_openExisting key env w) as Hopen.
    destruct (openExisting_opens (length (daoHeap w)) [key] key env w (le_n _))
      as (_ & _ & Hfresh).
    destruct (Factory.openExisting key env w) as [[e|d] w1]; cbn [fst snd] in *.
    { unfold keeps in Hopen. split; [left|]; cbn; by rewrite Hopen. }
    destruct (Hfresh d eq_refl) as [Hd _].
    unfold bind at 1.
    pose proof (keeps_manager_runSql d "PRAGMA integrity_check" [] env w1) as Hrun.
    destruct (DAO.runSql d "PRAGMA integrity_check" [] env w1) as [[e|s] w2];
      cbn [snd] in Hrun; unfold keeps in Hopen, Hrun.
    { split; [left|]; cbn; by rewrite Hrun, Hopen. }
    unfold store_connection, modify. apply Htail.
    - right. split; [done|]. split; [done|]. exists d. split; [done|].
      cbn. by rewrite Hrun, Hopen.
    - cbn. by rewrite Hrun, Hopen. }
  destruct Hmain as [Hstored Hmax]. split; [exact Hstored|]. split; [exact Hmax|].
  intros Hbound. rewrite Hmax.
  destruct Hstored as [->|(Hn & Hlt & d & _ & ->)]; [done|].
  rewrite map_size_insert_None by exact Hn. lia.
Qed.

Lemma access_check_passes schemas env w :
  (forall k, k ∈ schemas -> hasAccessToDatabase (manager w) k = true) ->
  for_of schemas
    (fun key =>
       w <- get_world ;;
       if negb (hasAccessToDatabase (manager w) key)
       then throw (accessDenied key (currentUserRoles (manager w)))
       else ret tt) env w
  = (inr tt, w).
Proof.
  induction schemas as [|k ks IH]; intros Hall; [done|].
  cbn [for_of]. unfold bind at 1. unfold bind at 1, get_world.
  rewrite (Hall k) by apply list_elem_of_here. cbn.
  apply IH. intros k' Hk'. apply Hall. by apply list_elem_of_further.
Qed.

Lemma access_check_fails before key after env w :
  (forall k, k ∈ before -> hasAccessToDatabase (manager w) k = true) ->
  hasAccessToDatabase (manager w) key = false ->
  for_of (before ++ key :: after)
    (fun key =>
       w <- get_world ;;
       if negb (hasAccessToDatabase (manager w) key)
       then throw (accessDenied key (currentUserRoles (manager w)))
       else ret tt) env w
  = (inl (accessDenied key (currentUserRoles (manager w))), w).
Proof.
  intros Hall Hkey. induction before as [|k ks IH]; cbn [app for_of].
  - unfold bind, get_world. by rewrite Hkey.
  - unfold bind at 1. unfold bind at 1, get_world.
    rewrite (Hall k) by apply list_elem_of_here. cbn.
    apply IH. intros k' Hk'. apply Hall. by apply list_elem_of_further.
Qed.

Lemma collectDaos_fails before key after acc env w :
  (forall k, k ∈ before -> hasAccessToDatabase (manager w) k = true) ->
  (forall k, k ∈ before -> is_Some (connections (manager w) !! k)) ->
  hasAccessToDatabase (manager w) key = true ->
  connections (manager w) !! key = None ->
  key ∉ objectPrototypeKeys ->
  collectDaos (before ++ key :: after) acc env w = (inl (notConnected key), w).
Proof.
  intros Hall Hconn Hkey Hnone Hplain. revert acc.
  induction before as [|k ks IH]; intros acc; cbn [app collectDaos].
  - unfold get, bind, get_world.
    by rewrite Hkey, (connectionAt_absent _ _ Hnone Hplain).
  - unfold bind at 1. unfold get. unfold bind at 1, get_world.
    rewrite (Hall k) by apply list_elem_of_here. cbn [negb].
    destruct (Hconn k) as [d Hd]; [apply list_elem_of_here|].
    rewrite (connectionAt_stored _ _ _ Hd). cbn.
    apply IH; intros k' Hk'; [apply Hall | apply Hconn];
      by apply list_elem_of_further.
Qed.

(** X13: [executeCrossSchemaTransaction] fails before any transaction is begun
    when a schema of the list is not accessible or not connected, no active
    role being named like a member of [Object.prototype]: the first
    inaccessible key gives the access-denied error (also when an earlier key
    is not connected), otherwise the first key without a connection, if it
    is not the name of such a member, gives the not-connected error; the
    callback is not called and the world is as it was. *)
Theorem executeCrossSchemaTransaction_fails_fast (env : Env) (w : World)
    (before : list string) (key : string) (after : list string)
    (callback : list (string * Handle) -> Async unit) :
  (forall r, r ∈ currentUserRoles (manager w) -> r ∉ objectPrototypeKeys) ->
  (forall k, k ∈ before -> hasAccessToDatabase (manager w) k = true) ->
  (hasAccessToDatabase (manager w) key = false ->
     executeCrossSchemaTransaction (before ++ key :: after) callback env w
     = (inl (accessDenied key (currentUserRoles (manager w))), w))
  /\ ((forall k, k ∈ after -> hasAccessToDatabase (manager w) k = true) ->
      (forall k, k ∈ before -> is_Some (connections (manager w) !! k)) ->
      hasAccessToDatabase (manager w) key = true ->
      connections (manager w) !! key = None ->
      key ∉ objectPrototypeKeys ->
      executeCrossSchemaTransaction (before ++ key :: after) callback env w
      = (inl (notConnected key), w)).
Proof.
  intros _ Hbefore. split.
  - intros Hkey. unfold executeCrossSchemaTransaction. unfold bind at 1.
    by rewrite (access_check_fails before key after env w Hbefore Hkey).
  - intros Hafter Hconn Hkey Hnone Hplain.
    unfold executeCrossSchemaTransaction. unfold bind at 1.
    rewrite access_check_passes.
    2:{ intros k Hk. apply elem_of_app in Hk as [Hk|Hk]; [by apply Hbefore|].
        apply elem_of_cons in Hk as [->|Hk]; [done | by apply Hafter]. }
    unfold bind at 1.
    by rewrite (collectDaos_fails before key after [] env w Hbefore Hconn Hkey
                  Hnone Hplain).
Qed.

Lemma getLazyLoading_guards_witness :
  getLazyLoading "analytics" healthyEnv staleAnalyticsWorld
  = (inl (accessDenied "analytics" ["staff"]), staleAnalyticsWorld)
  /\ getLazyLoading "core" healthyEnv coreWorld
     = (inr (Some 0), set_manager (set_listening (manager coreWorld)) coreWorld).
Proof.
  split.
  - apply (getLazyLoading_guards healthyEnv staleAnalyticsWorld "analytics").
    + intros r Hr. cbn in Hr. apply list_elem_of_singleton in Hr as ->.
      apply (bool_decide_unpack _). vm_compute. exact I.
    + vm_compute. reflexivity.
  - destruct (getLazyLoading_guards healthyEnv coreWorld "core") as (_ & H & _).
    + intros r Hr. by apply elem_of_nil in Hr.
    + apply H; vm_compute; reflexivity.
Defined.

Lemma getLazyLoading_pool_bound_witness :
  size (connections (manager (getLazyLoading "core" healthyEnv staleAnalyticsWorld).2))
  <= maxConnections (manager (getLazyLoading "core" healthyEnv staleAnalyticsWorld).2).
Proof.
  destruct (getLazyLoading_pool_bound healthyEnv staleAnalyticsWorld "core")
    as (_ & _ & H).
  - intros r Hr. cbn in Hr. apply list_elem_of_singleton in Hr as ->.
    apply (bool_decide_unpack _). vm_compute. exact I.
  - apply (bool_decide_unpack _). vm_compute. exact I.
  - apply H. vm_compute. lia.
Defined.

Lemma executeCrossSchemaTransaction_fails_fast_witness :
  executeCrossSchemaTransaction (["core"] ++ "analytics" :: []) (fun _ => ret tt)
    healthyEnv coreWorld
  = (inl (accessDenied "analytics" []), coreWorld).
Proof.
  apply (executeCrossSchemaTransaction_fails_fast healthyEnv coreWorld ["core"]
           "analytics" [] (fun _ => ret tt)).
  - intros r Hr. by apply elem_of_nil in Hr.
  - intros k Hk. apply list_elem_of_singleton in Hk as ->. vm_compute. reflexivity.
  - vm_compute. reflexivity.
Defined.

End ManagerGuards.

(** * Calls of [getLazyLoading] that overlap *)
Section OverlappingCalls.
Import Manager LazyLoadingSteps.

(** The steps put one after the other are the call. *)
Lemma getLazyLoading_steps key env w :
  getLazyLoading key env w
  = (goesOn <- checks key ;;
     (if goesOn : bool then opening key else ret tt) ;;; answer key) env w.
Proof.
  unfold getLazyLoading, checks.
  set (tail := bind setupAppStateListener _).
  change (answer key) with tail.
  set (open := bind (Factory.openExisting key) _).
  change (opening key) with open.
  unfold bind, get_world, ask, throw, ret.
  destruct (hasAccessToDatabase (manager w) key); cbn [negb]; [|done].
  destruct (connections (manager w) !! key) as [d|]; [done|].
  destruct (includes (schemaConfigurations env) key); cbn [negb]; [|done].
  by destruct (maxConnections (manager w) <=? size (connections (manager w)))%nat.
Qed.

Lemma resume_is_the_call key env w :
  resume key (checks key env w).1 env (checks key env w).2
  = getLazyLoading key env w.
Proof.
  rewrite getLazyLoading_steps. unfold bind at 1.
  by destruct (checks key env w) as [[e|b] w1].
Qed.

Lemma checks_pass key env w :
  hasAccessToDatabase (manager w) key = true ->
  connections (manager w) !! key = None ->
  includes (schemaConfigurations env) key = true ->
  size (connections (manager w)) < maxConnections (manager w) ->
  checks key env w = (inr true, w).
Proof.
  intros Ha Hn Hs Hlt. unfold checks, bind, get_world, ask.
  rewrite Ha, Hn. cbn [negb]. rewrite Hs. cbn [negb].
  apply Nat.leb_gt in Hlt. by rewrite Hlt.
Qed.

(** A call resumed after checks that passed, when it succeeds: it has
    created one DAO and stored it under its key, whatever the connection map
    holds by then. *)
Lemma resume_stores key env w (r : option loc) w' :
  resume key (inr true) env w = (inr r, w') ->
  exists d : loc,
    length (daoHeap w) <= d /\ d < length (daoHeap w')
    /\ r = Some d
    /\ manager w'
       = set_listening
           (set_connections (<[key := d]> (connections (manager w))) (manager w)).
Proof.
  unfold resume, opening. unfold bind at 1. unfold bind at 1.
  destruct (openExisting_opens (length (daoHeap w)) [] key env w (le_n _))
    as (_ & Hm1 & Hd1).
  destruct (Factory.openExisting key env w) as [[e|d] w1]; cbn [fst snd] in *;
    [done|].
  destruct (Hd1 d eq_refl) as [Hge Hlt].
  unfold bind at 1.
  pose proof (dao_step_runSql d "PRAGMA integrity_check" [] env w1) as Hrun.
  destruct (DAO.runSql d "PRAGMA integrity_check" [] env w1) as [[e|txt] w2];
    cbn [snd] in Hrun; [done|].
  destruct Hrun as [M _ _ L _ _].
  unfold store_connection, answer, setupAppStateListener, bind, modify,
    get_world, ret. cbn [fst snd].
  intros [= <- <-]. exists d. split; [exact Hge|]. split.
  { cbn. lia. }
  split.
  { cbn. by rewrite lookup_insert_eq. }
  cbn. by rewrite M, Hm1.
Qed.

(** X30: Two calls of [getLazyLoading] that overlap each pass the checks made
    when they are called.  For two accessible keys with a schema and
    without a connection, in a pool that is not full, names that are not
    names of members of [Object.prototype], and in the schedule where the
    first call goes through its awaits before the second is resumed, the
    file system answering alike throughout: when both calls succeed, each
    has created a DAO of its own and stored it.
    With two different keys the connection map has two more entries, so
    that a pool with one free place ends above [maxConnections]; with one
    and the same key the second store replaces the first, and the first
    caller holds a DAO that the manager does not cache. *)
Theorem overlapping_calls_pass_the_checks (env : Env) (w : World)
    (keyA keyB : string) (a b : option loc) (w' : World) :
  (forall r, r ∈ currentUserRoles (manager w) -> r ∉ objectPrototypeKeys) ->
  keyA ∉ objectPrototypeKeys -> keyB ∉ objectPrototypeKeys ->
  steadyFileSystem env ->
  hasAccessToDatabase (manager w) keyA = true ->
  hasAccessToDatabase (manager w) keyB = true ->
  connections (manager w) !! keyA = None ->
  connections (manager w) !! keyB = None ->
  includes (schemaConfigurations env) keyA = true ->
  includes (schemaConfigurations env) keyB = true ->
  size (connections (manager w)) < maxConnections (manager w) ->
  overlapped keyA keyB env w = (inr (inr a, inr b), w') ->
  exists dA dB : loc,
    a = Some dA /\ b = Some dB
    /\ length (daoHeap w) <= dA /\ dA < dB /\ dB < length (daoHeap w')
    /\ connections (manager w')
       = <[keyB := dB]> (<[keyA := dA]> (connections (manager w)))
    /\ maxConnections (manager w') = maxConnections (manager w)
    /\ (keyA <> keyB ->
        size (connections (manager w')) = size (connections (manager w)) + 2
        /\ (S (size (connections (manager w))) = maxConnections (manager w) ->
            maxConnections (manager w') < size (connections (manager w'))))
    /\ (keyA = keyB ->
        connections (manager w') !! keyA = Some dB
        /\ connections (manager w') !! keyA <> Some dA).
Proof.
  intros _ _ _ _ HaA HaB HnA HnB HsA HsB Hlt.
  unfold overlapped. unfold bind at 1. unfold settle at 1.
  rewrite (checks_pass keyA env w HaA HnA HsA Hlt).
  unfold bind at 1. unfold settle at 1.
  rewrite (checks_pass keyB env w HaB HnB HsB Hlt).
  unfold bind at 1. unfold settle at 1.
  destruct (resume keyA (inr true) env w) as [[eA|rA] wA] eqn:HA.
  { unfold bind, settle. by destruct (resume keyB (inr true) env wA). }
  destruct (resume_stores keyA env w rA wA HA) as (dA & HgeA & HltA & -> & HmA).
  unfold bind at 1. unfold settle at 1.
  destruct (resume keyB (inr true) env wA) as [[eB|rB] wB] eqn:HB; [done|].
  destruct (resume_stores keyB env wA rB wB HB) as (dB & HgeB & HltB & -> & HmB).
  unfold ret. intros [= <- <- <-].
  exists dA, dB. split; [done|]. split; [done|]. split; [exact HgeA|].
  split; [lia|]. split; [exact HltB|].
  assert (Hc : connections (manager wB)
               = <[keyB := dB]> (<[keyA := dA]> (connections (manager w)))).
  { rewrite HmB. cbn. by rewrite HmA. }
  split; [exact Hc|]. split.
  { rewrite HmB. cbn. by rewrite HmA. }
  split.
  - intros Hne.
    assert (Hsize : size (connections (manager wB))
                    = size (connections (manager w)) + 2).
    { rewrite Hc. rewrite map_size_insert_None.
      - rewrite map_size_insert_None by exact HnA. lia.
      - rewrite lookup_insert_ne by done. exact HnB. }
    split; [exact Hsize|]. intros Hfull.
    rewrite Hsize. rewrite HmB. cbn. rewrite HmA. cbn. lia.
  - intros <-. rewrite Hc, lookup_insert_eq. split; [done|].
    intros [= Heq]. lia.
Qed.

Definition reportingRole : RoleConfig :=
  mkRoleConfig "manager" ["core"; "analytics"] (Some ["reports"]) None.

(** A pool of two places, one of them taken by [core]. *)
Definition managerOnlyCore : World :=
  mkWorld [] [connectedCore] []
    (mkDatabaseManager false 2 {["core" := 0%nat]} true
       {["manager" := reportingRole]} (Some "manager") ["manager"])
    emptyRegistry.

(** An engine that accepts every call and knows three schemas. *)
Definition threeSchemasEnv : Env :=
  mkEnv "/data/documents" ["core"; "analytics"; "reports"]
    (fun _ _ => inr true) (fun _ _ => None) (fun _ _ _ => None)
    (fun _ _ _ _ => inr []) (fun _ _ => None).

Lemma overlapping_calls_pass_the_checks_witness :
  size (connections
          (manager (overlapped "analytics" "reports" threeSchemasEnv
                      managerOnlyCore).2)) = 3
  /\ maxConnections
       (manager (overlapped "analytics" "reports" threeSchemasEnv
                   managerOnlyCore).2) = 2.
Proof.
  assert (Hplain : forall k : string,
            includes objectPrototypeKeys k = false -> k ∉ objectPrototypeKeys).
  { intros k H. unfold includes in H. by apply bool_decide_eq_false in H. }
  destruct (overlapped "analytics" "reports" threeSchemasEnv managerOnlyCore)
    as [[e|[[eA|a] [eB|b]]] w'] eqn:Hrun; try (vm_compute in Hrun; discriminate).
  destruct (overlapping_calls_pass_the_checks threeSchemasEnv managerOnlyCore
              "analytics" "reports" a b w')
    as (dA & dB & _ & _ & _ & _ & _ & _ & Hmax & Hsize & _).
  - intros r Hr. cbn in Hr. apply list_elem_of_singleton in Hr as ->.
    by apply Hplain.
  - by apply Hplain.
  - by apply Hplain.
  - by intros t t' path.
  - vm_compute. reflexivity.
  - vm_compute. reflexivity.
  - reflexivity.
  - reflexivity.
  - vm_compute. reflexivity.
  - vm_compute. reflexivity.
  - vm_compute. lia.
  - exact Hrun.
  - cbn [snd]. destruct (Hsize ltac:(discriminate)) as [Hs _].
    split; [rewrite Hs; vm_compute; reflexivity | rewrite Hmax; reflexivity].
Defined.

End OverlappingCalls.

(** * Shutdown and logout *)
Section Shutdown.
Import Manager ManagerLifecycle.

(** What closing the connections [ds] may do: the fields of those DAOs
    change and native closes of them are made; nothing else. *)
Record shutdown (ds : list loc) (w w' : World) : Prop := mkShutdown {
  sd_manager : manager w' = manager w;
  sd_registry : registry w' = registry w;
  sd_services : serviceHeap w' = serviceHeap w;
  sd_length : length (daoHeap w') = length (daoHeap w);
  sd_frame : forall i, i ∉ ds -> daoHeap w' !! i = daoHeap w !! i;
  sd_trace : exists t, trace w' = trace w ++ t
               /\ Forall (fun ev => exists d, d ∈ ds /\ ev = EvCloseDatabase d) t;
}.

Lemma shutdown_refl ds w : shutdown ds w w.
Proof.
  split; try done. exists []. split; [by rewrite app_nil_r | constructor].
Qed.

Lemma shutdown_trans ds w1 w2 w3 :
  shutdown ds w1 w2 -> shutdown ds w2 w3 -> shutdown ds w1 w3.
Proof.
  intros [M1 R1 S1 L1 F1 (t1 & T1 & E1)] [M2 R2 S2 L2 F2 (t2 & T2 & E2)].
  split; try congruence.
  - intros i Hi. by rewrite F2, F1.
  - exists (t1 ++ t2). split; [by rewrite T2, T1, app_assoc|]. by apply Forall_app.
Qed.

Lemma quiet_close ds d env w :
  d ∈ ds ->
  exists w', try_catch (DAO.close d) (fun _ => ret tt) env w = (inr tt, w')
             /\ shutdown ds w w'.
Proof.
  intros Hd. unfold try_catch.
  pose proof (dao_step_close d env w) as [M R S L F (t & T & E)].
  destruct (DAO.close d env w) as [[e|[]] w1]; cbn [snd] in *;
    (eexists; split; [reflexivity|]; split; try done;
     [ intros i Hi; apply F; by intros ->
     | exists t; split; [done|]; eapply Forall_impl; [exact E|];
       intros ev ->; by exists d ]).
Qed.

Lemma quiet_close_all ds (entries : list (string * loc)) env w :
  (forall entry, entry ∈ entries -> entry.2 ∈ ds) ->
  exists rs w',
    promise_all entries
      (fun entry => try_catch (DAO.close entry.2) (fun _ => ret tt)) env w
    = (inr rs, w')
    /\ shutdown ds w w'.
Proof.
  revert w. induction entries as [|entry entries IH]; intros w Hin; cbn.
  - exists [], w. split; [done | apply shutdown_refl].
  - destruct (quiet_close ds entry.2 env w) as (w1 & -> & H1).
    { apply Hin, list_elem_of_here. }
    destruct (IH w1) as (rs & w2 & -> & H2).
    { intros e He. by apply Hin, list_elem_of_further. }
    exists (tt :: rs), w2. split; [done|]. by eapply shutdown_trans.
Qed.

(** X14: [closeAll] never throws, whatever the native closes answer.  It makes
    native calls only to close the listed connections and touches no other
    DAO; afterwards the connection map is empty, no role is active, the
    manager is not initialised and has no listener; the role registry stays.
    From then on [get] refuses every key. *)
Theorem closeAll_resets (entries : gmap string loc -> list (string * loc))
    (env : Env) (w : World) :
  let out := closeAll entries env w in
  let ds := map snd (entries (connections (manager w))) in
  out.1 = inr tt
  /\ manager out.2
     = mkDatabaseManager false (maxConnections (manager w)) ∅ false
         (roleRegistry (manager w)) None []
  /\ registry out.2 = registry w
  /\ serviceHeap out.2 = serviceHeap w
  /\ (forall i, i ∉ ds -> daoHeap out.2 !! i = daoHeap w !! i)
  /\ (exists t, trace out.2 = trace w ++ t
                /\ Forall (fun ev => exists d, d ∈ ds /\ ev = EvCloseDatabase d) t)
  /\ (forall key env', exists e, get key env' out.2 = (inl e, out.2)).
Proof.
  cbv zeta.
  set (ds := map snd (entries (connections (manager w)))).
  assert (Heq : exists w1,
    shutdown ds w w1
    /\ closeAll entries env w
       = (inr tt,
          set_manager
            (mkDatabaseManager false (maxConnections (manager w)) ∅ false
               (roleRegistry (manager w)) None []) w1)).
  { unfold closeAll, closeAllConnections. unfold bind at 1. unfold bind at 1.
    unfold get_world at 1. unfold bind at 1.
    destruct (quiet_close_all ds (entries (connections (manager w))) env w)
      as (rs & w1 & -> & H1).
    { intros entry He. subst ds. apply list_elem_of_fmap. by exists entry. }
    exists w1. split; [done|]. unfold modify. cbn.
    by rewrite (sd_manager _ _ _ H1). }
  destruct Heq as (w1 & [M R S L F T] & ->). cbn [fst snd].
  split; [done|]. split; [done|]. split; [done|]. split; [done|].
  split; [exact F|]. split; [exact T|].
  intros key env'. unfold get, bind, get_world. cbn.
  destruct (hasAccessToDatabase _ key) eqn:Ha; cbn; [|eauto].
  unfold hasAccessToDatabase, getCurrentUserDatabases, includes in Ha.
  cbn in Ha. apply bool_decide_eq_true, list_elem_of_singleton in Ha as ->.
  unfold connectionAt. cbn [connections]. rewrite lookup_empty.
  assert (Hcore : includes objectPrototypeKeys "core" = false)
    by (vm_compute; reflexivity).
  rewrite Hcore. eauto.
Qed.

Lemma closeTask_returns k env w : (closeTask k env w).1 = inr tt.
Proof.
  unfold closeTask, bind, get_world.
  destruct (connections (manager w) !! k) as [d|]; [|done].
  unfold try_catch. destruct (DAO.close d env w) as [[e|[]] w1]; done.
Qed.

Lemma for_of_closeTask_returns ks env w : (for_of ks closeTask env w).1 = inr tt.
Proof.
  revert w. induction ks as [|k ks IH]; intros w; [done|].
  cbn [for_of]. unfold bind.
  pose proof (closeTask_returns k env w) as Hk.
  destruct (closeTask k env w) as [[e|[]] w1]; cbn in Hk; [done|]. apply IH.
Qed.

Lemma logout_task env w dbKey :
  try_catch
    (w <- get_world ;;
     match connections (manager w) !! dbKey with
     | Some d => DAO.close d
     | None => throw DAO.undefined_receiver
     end ;;;
     drop_connection dbKey)
    (fun _ => ret tt) env w
  = closeTask dbKey env w.
Proof.
  unfold closeTask, try_catch. unfold bind at 1 3, get_world.
  by destruct (connections (manager w) !! dbKey).
Qed.

Lemma for_of_ext {A} (xs : list A) (f g : A -> Async unit) env w :
  (forall x env w, f x env w = g x env w) ->
  for_of xs f env w = for_of xs g env w.
Proof.
  intros Hfg. revert w. induction xs as [|x xs IH]; intros w; [done|].
  cbn [for_of]. unfold bind. rewrite Hfg.
  destruct (g x env w) as [[e|[]] w1]; [done | apply IH].
Qed.

(** X15: [logout] never throws.  It clears the roles of the user; the entry of
    ['core'] in the connection map stays as it is, no entry is added, the
    other fields of the manager stay, and the native calls are closes of
    connections cached under other keys than ['core'].  Afterwards [get]
    denies access to every key but ['core'], also to a key whose connection
    could not be closed and is still cached. *)
Theorem logout_keeps_core (keys : gmap string loc -> list string)
    (env : Env) (w : World) :
  let out := logout keys env w in
  let m := manager w in
  let m' := manager out.2 in
  out.1 = inr tt
  /\ currentUserRoles m' = [] /\ currentRole m' = None
  /\ roleRegistry m' = roleRegistry m
  /\ connections m' !! "core" = connections m !! "core"
  /\ (forall k d, connections m' !! k = Some d -> connections m !! k = Some d)
  /\ (exists t, trace out.2 = trace w ++ t
                /\ Forall (fun ev => exists k d,
                             k <> "core" /\ connections m !! k = Some d
                             /\ ev = EvCloseDatabase d) t)
  /\ (forall key env', key <> "core" ->
        get key env' out.2 = (inl (accessDenied key []), out.2)).
Proof.
  cbv zeta.
  set (ks := List.filter (fun key => negb (String.eqb key "core"))
               (keys (connections (manager w)))).
  assert (Hks : forall k, k ∈ ks -> k <> "core").
  { intros k Hk. subst ks. apply list_elem_of_In, filter_In in Hk as [_ Hk].
    apply negb_true_iff, String.eqb_neq in Hk. exact Hk. }
  assert (Heq : exists w1,
    closes ks (connections (manager w)) w w1
    /\ logout keys env w
       = (inr tt, set_manager (set_roles [] None (manager w1)) w1)).
  { unfold logout. unfold bind at 1, get_world at 1. fold ks. unfold bind at 1.
    rewrite (for_of_ext ks _ closeTask env w)
      by (intros; apply logout_task).
    pose proof (for_of_closeTask_returns ks env w) as Hret.
    pose proof (for_of_closeTask_closes ks (connections (manager w)) ks env
                  (fun k H => H) w (fun k d H => H)) as Hcl.
    destruct (for_of ks closeTask env w) as [[e|[]] w1]; cbn in Hret; [done|].
    by exists w1. }
  destruct Heq as (w1 & [R S G C L H K F (t & T & E)] & ->). cbn [fst snd].
  split; [done|]. split; [done|]. split; [done|]. split; [exact G|].
  split.
  { cbn. apply K. intros Hin. by apply (Hks _ Hin). }
  split; [exact H|]. split.
  { exists t. split; [done|]. eapply Forall_impl; [exact E|].
    intros ev (k & d & Hk & Hd & ->). exists k, d. split; [by apply Hks | done]. }
  intros key env' Hkey. unfold get, bind, get_world. cbn.
  unfold hasAccessToDatabase, getCurrentUserDatabases. cbn.
  unfold includes. rewrite bool_decide_eq_false_2; [done|].
  intros Hin. by apply list_elem_of_singleton in Hin.
Qed.

End Shutdown.

(** * Outcome of a role switch *)
Section RoleSwitchOutcome.
Import Manager.

(** A database some active role lists as required. *)
Definition requiredBy (reg : gmap string RoleConfig) (roles : list string)
    (key : string) : Prop :=
  exists role rc,
    role ∈ roles /\ reg !! role = Some rc /\ key ∈ requiredDatabases rc.

Lemma isRequired_spec m key :
  isRequired m key = true <-> requiredBy (roleRegistry m) (currentUserRoles m) key.
Proof.
  unfold isRequired, requiredBy. rewrite existsb_exists. split.
  - intros (role & Hin & H). apply list_elem_of_In in Hin.
    destruct (roleRegistry m !! role) as [rc|] eqn:Hrc; [|done].
    exists role, rc. split; [done|]. split; [done|].
    unfold includes in H. by apply bool_decide_eq_true in H.
  - intros (role & rc & Hin & Hrc & Hk). exists role.
    split; [by apply list_elem_of_In|]. rewrite Hrc.
    unfold includes. by apply bool_decide_eq_true.
Qed.

Lemma required_is_wanted reg roles key :
  requiredBy reg roles key -> key ∈ roleDatabases reg roles.
Proof.
  intros (role & rc & Hin & Hrc & Hk). apply roleDatabases_spec. right.
  exists role, rc. split; [done|]. split; [done|]. by left.
Qed.

Lemma validation_passes (userRoles : list string) env w :
  (forall r, r ∈ userRoles -> is_Some (roleRegistry (manager w) !! r)) ->
  for_of userRoles
    (fun role =>
       w <- get_world ;;
       match roleRegistry (manager w) !! role with
       | Some _ => ret tt
       | None => throw (notRegistered role)
       end) env w
  = (inr tt, w).
Proof.
  induction userRoles as [|r rs IH]; intros Hall; [done|].
  cbn [for_of]. unfold bind at 1. unfold bind at 1, get_world.
  destruct (Hall r) as [rc ->]; [apply list_elem_of_here|]. cbn.
  apply IH. intros r' Hr'. by apply Hall, list_elem_of_further.
Qed.

Lemma validation_fails (before : list string) role after env w :
  (forall r, r ∈ before -> is_Some (roleRegistry (manager w) !! r)) ->
  roleRegistry (manager w) !! role = None ->
  for_of (before ++ role :: after)
    (fun role =>
       w <- get_world ;;
       match roleRegistry (manager w) !! role with
       | Some _ => ret tt
       | None => throw (notRegistered role)
       end) env w
  = (inl (notRegistered role), w).
Proof.
  intros Hall Hrole. induction before as [|r rs IH]; cbn [app for_of].
  - unfold bind, get_world. by rewrite Hrole.
  - unfold bind at 1. unfold bind at 1, get_world.
    destruct (Hall r) as [rc ->]; [apply list_elem_of_here|]. cbn.
    apply IH. intros r' Hr'. by apply Hall, list_elem_of_further.
Qed.

(** X16: A role switch that names a role missing from the registry is refused
    with the error of the first such role, before anything is changed: the
    roles of the user, the connections and the trace are as they were. *)
Theorem setCurrentUserRoles_unregistered (env : Env) (w : World)
    (before : list string) (role : string) (after : list string)
    (primaryRole : option string) :
  (forall r, r ∈ before -> is_Some (roleRegistry (manager w) !! r)) ->
  roleRegistry (manager w) !! role = None ->
  setCurrentUserRoles (before ++ role :: after) primaryRole env w
  = (inl (notRegistered role), w).
Proof.
  intros Hall Hrole. unfold setCurrentUserRoles. unfold bind at 1.
  by rewrite (validation_fails before role after env w Hall Hrole).
Qed.

Lemma setCurrentUserRoles_unregistered_witness :
  setCurrentUserRoles ([] ++ "ghost" :: []) None healthyEnv coreWorld
  = (inl (notRegistered "ghost"), coreWorld).
Proof.
  apply (setCurrentUserRoles_unregistered healthyEnv coreWorld [] "ghost" [] None).
  - intros r Hr. by apply elem_of_nil in Hr.
  - vm_compute. reflexivity.
Defined.

Lemma initTask_result n K k env w :
  k ∈ K -> n <= length (daoHeap w) ->
  exists pushed w',
    initTask k env w = (inr pushed, w')
    /\ opens n K w w'
    /\ (pushed = [] -> isRequired (manager w) k = true ->
        is_Some (connections (manager w') !! k)).
Proof.
  intros HK Hn.
  pose proof (initTask_opens n K k env w HK Hn) as Hopen. revert Hopen.
  set (good := fun out : Result (list (string * Error)) * World =>
         opens n K w out.2 ->
         exists pushed w',
           out = (inr pushed, w')
           /\ opens n K w w'
           /\ (pushed = [] -> isRequired (manager w) k = true ->
               is_Some (connections (manager w') !! k))).
  change (good (initTask k env w)).
  unfold initTask, bind at 1, get_world.
  destruct (connections (manager w) !! k) as [d0|] eqn:Hk.
  { intros Hopen. exists [], w. split; [done|]. split; [done|].
    intros _ _. by rewrite Hk. }
  unfold try_catch.
  set (body := bind ask _).
  assert (Hbody : forall r w1, body env w = (inr r, w1) ->
            r = [] /\ is_Some (connections (manager w1) !! k)).
  { intros r w1. unfold body, bind at 1, ask. unfold bind at 1.
    destruct (includes (schemaConfigurations env) k); [|done].
    cbn [ret]. unfold bind at 1.
    destruct (Factory.openExisting k env w) as [[e|d] w2]; [done|].
    unfold bind at 1.
    destruct (DAO.runSql d "PRAGMA integrity_check" [] env w2) as [[e|s] w3];
      [done|].
    unfold bind, store_connection, modify, ret. intros [= <- <-].
    split; [done|]. cbn. by rewrite lookup_insert_eq. }
  destruct (body env w) as [[e|r] w1] eqn:Hrun.
  - unfold bind, get_world.
    destruct (isRequired (manager w1) k) eqn:Hr1; intros Hopen;
      unfold ret in Hopen; cbn [snd] in Hopen.
    + exists [(k, e)], w1. split; [done|]. split; [done|]. done.
    + exists [], w1. split; [done|]. split; [done|]. intros _ Hr.
      unfold isRequired in Hr, Hr1.
      rewrite (op_roleRegistry _ _ _ _ Hopen), (op_roles _ _ _ _ Hopen) in Hr1.
      congruence.
  - intros Hopen. destruct (Hbody r w1 eq_refl) as [-> Hsome]. by exists [], w1.
Qed.

Lemma promise_all_initTask_result n K ks env :
  (forall k, k ∈ ks -> k ∈ K) ->
  forall w, n <= length (daoHeap w) ->
    exists pushed w',
      promise_all ks initTask env w = (inr pushed, w')
      /\ opens n K w w'
      /\ (concat pushed = [] ->
          forall k, k ∈ ks -> isRequired (manager w) k = true ->
            is_Some (connections (manager w') !! k)).
Proof.
  intros HK. induction ks as [|k ks IH]; intros w Hn; cbn [promise_all].
  { exists [], w. split; [done|]. split; [apply opens_refl|].
    intros _ k Hk. by apply elem_of_nil in Hk. }
  destruct (initTask_result n K k env w) as (p1 & w1 & -> & H1 & R1);
    [apply HK, list_elem_of_here | done |].
  destruct (IH (fun k' Hk' => HK k' (list_elem_of_further _ _ _ Hk')) w1)
    as (ps & w2 & -> & H2 & R2).
  { destruct H1. lia. }
  exists (p1 :: ps), w2. split; [done|].
  split; [by eapply opens_trans|].
  cbn [concat]. intros Hnil k' Hk' Hreq.
  apply app_eq_nil in Hnil as [Hp1 Hps].
  apply elem_of_cons in Hk' as [->|Hk'].
  - destruct (R1 Hp1 Hreq) as [d Hd]. exists d. by apply (op_old _ _ _ _ H2).
  - apply (R2 Hps k' Hk').
    unfold isRequired.
    by rewrite (op_roleRegistry _ _ _ _ H1), (op_roles _ _ _ _ H1).
Qed.

Lemma initializeUserRoleConnections_result n env w :
  n <= length (daoHeap w) ->
  exists r w',
    initializeUserRoleConnections env w = (r, w')
    /\ opens n (getCurrentUserDatabases (manager w)) w w'
    /\ (r = inr tt ->
        forall k, requiredBy (roleRegistry (manager w)) (currentUserRoles (manager w)) k ->
          is_Some (connections (manager w') !! k)).
Proof.
  intros Hn. unfold initializeUserRoleConnections, bind at 1, get_world.
  unfold bind.
  destruct (promise_all_initTask_result n (getCurrentUserDatabases (manager w))
              (getCurrentUserDatabases (manager w)) env (fun _ H => H) w Hn)
    as (pushed & w1 & -> & H1 & R1).
  destruct (concat pushed) as [|f fs] eqn:Hp.
  - exists (inr tt), w1. split; [done|]. split; [done|].
    intros _ k Hk. apply (R1 eq_refl).
    + by apply required_is_wanted.
    + by apply isRequired_spec.
  - eexists _, w1. split; [reflexivity|]. split; [done|]. done.
Qed.

(** Names under which a read of a plain object finds an own property or
    nothing: none is the name of a member of [Object.prototype]. *)
Definition plainNames (names : list string) : Prop :=
  forall n, n ∈ names -> n ∉ objectPrototypeKeys.

(** X17: A role switch over registered roles records the new roles whether it
    succeeds or not, the names of the roles and of their databases not
    being names of members of [Object.prototype].  When it succeeds, every
    database that a new role lists as required has a cached handle, which
    [get] returns: the handle cached before the switch, kept as it was (a
    closed DAO is not reopened), or else a DAO created during the switch.
    When it fails, no cached connection has been dropped. *)
Theorem setCurrentUserRoles_outcome (env : Env) (w : World)
    (userRoles : list string) (primaryRole : option string) :
  (forall r, r ∈ userRoles -> is_Some (roleRegistry (manager w) !! r)) ->
  plainNames userRoles ->
  plainNames (currentUserRoles (manager w)) ->
  plainNames (roleDatabases (roleRegistry (manager w)) userRoles) ->
  let out := setCurrentUserRoles userRoles primaryRole env w in
  currentUserRoles (manager out.2) = userRoles
  /\ roleRegistry (manager out.2) = roleRegistry (manager w)
  /\ (out.1 = inr tt ->
      forall key, requiredBy (roleRegistry (manager w)) userRoles key ->
        exists d : loc,
          connections (manager out.2) !! key = Some d
          /\ (connections (manager w) !! key = Some d
              \/ (connections (manager w) !! key = None
                  /\ length (daoHeap w) <= d))
          /\ forall env', get key env' out.2 = (inr (HDao d), out.2))
  /\ (forall e, out.1 = inl e ->
      forall k d, connections (manager w) !! k = Some d ->
        connections (manager out.2) !! k = Some d).
Proof.
  intros Hall _ _ _. cbv zeta.
  set (w1 := withRoles userRoles primaryRole w).
  set (S := noLongerWanted (roleRegistry (manager w))
              (currentUserRoles (manager w)) userRoles).
  assert (Heq : exists r w2,
    initializeUserRoleConnections env w1 = (r, w2)
    /\ opens (length (daoHeap w)) (roleDatabases (roleRegistry (manager w)) userRoles)
         w1 w2
    /\ (r = inr tt ->
        forall k, requiredBy (roleRegistry (manager w)) userRoles k ->
          is_Some (connections (manager w2) !! k))
    /\ setCurrentUserRoles userRoles primaryRole env w
       = match r with
         | inl e => (inl e, w2)
         | inr _ => for_of S closeTask env w2
         end).
  { destruct (initializeUserRoleConnections_result (length (daoHeap w)) env w1
                (le_n _)) as (r & w2 & Hrun & Hopen & Hreq).
    exists r, w2. split; [done|]. split; [done|]. split; [done|].
    unfold setCurrentUserRoles. unfold bind at 1.
    rewrite (validation_passes userRoles env w Hall).
    unfold bind at 1, get_world. unfold bind at 1, modify.
    fold (withRoles userRoles primaryRole w). fold w1.
    unfold bind at 1. rewrite Hrun. destruct r as [e|[]]; [done|].
    unfold cleanupUnusedConnections, bind, get_world.
    unfold databasesToClose, getCurrentUserDatabases.
    by rewrite (op_roleRegistry _ _ _ _ Hopen), (op_roles _ _ _ _ Hopen). }
  destruct Heq as (r & w2 & _ & Hopen & Hreq & ->).
  destruct r as [e|[]].
  - cbn [fst snd]. split; [exact (op_roles _ _ _ _ Hopen)|].
    split; [exact (op_roleRegistry _ _ _ _ Hopen)|]. split; [done|].
    intros _ _ k d Hk. by apply (op_old _ _ _ _ Hopen).
  - pose proof (for_of_closeTask_returns S env w2) as Hret.
    pose proof (for_of_closeTask_closes S (connections (manager w2)) S env
                  (fun k H => H) w2 (fun k d H => H)) as Hcl.
    destruct (for_of S closeTask env w2) as [r3 w3]; cbn [fst snd] in *.
    subst r3.
    assert (Hroles : currentUserRoles (manager w3) = userRoles).
    { rewrite (cl_roles _ _ _ _ Hcl). exact (op_roles _ _ _ _ Hopen). }
    assert (Hreg : roleRegistry (manager w3) = roleRegistry (manager w)).
    { rewrite (cl_roleRegistry _ _ _ _ Hcl). exact (op_roleRegistry _ _ _ _ Hopen). }
    split; [done|]. split; [done|]. split; [|done].
    intros _ key Hkey.
    destruct (Hreq eq_refl key Hkey) as [d Hd]. exists d.
    assert (Hwanted : key ∈ roleDatabases (roleRegistry (manager w)) userRoles)
      by (by apply required_is_wanted).
    assert (Hkept : connections (manager w3) !! key = Some d).
    { rewrite (cl_keep _ _ _ _ Hcl key); [done|].
      unfold S. rewrite elem_of_noLongerWanted. tauto. }
    split; [exact Hkept|]. split.
    + destruct (connections (manager w) !! key) as [d0|] eqn:Hbefore.
      * left. pose proof (op_old _ _ _ _ Hopen key d0 Hbefore) as Hsame.
        congruence.
      * right. split; [done|].
        destruct (op_new _ _ _ _ Hopen key d Hd) as [Hold|[Hnew _]];
          [|exact Hnew].
        change (connections (manager w) !! key = Some d) in Hold. congruence.
    + intros env'. unfold get, bind, get_world.
      assert (Hacc : hasAccessToDatabase (manager w3) key = true).
      { unfold hasAccessToDatabase, includes, getCurrentUserDatabases.
        rewrite Hroles, Hreg. by apply bool_decide_eq_true. }
      rewrite Hacc. cbn [negb].
      by rewrite (connectionAt_stored _ _ _ Hkept).
Qed.

Lemma setCurrentUserRoles_outcome_witness :
  currentUserRoles
    (manager (setCurrentUserRoles ["cashier"] None healthyEnv managerWorld).2)
  = ["cashier"].
Proof.
  assert (Hplain : forall names : list string,
            forallb (fun n => negb (includes objectPrototypeKeys n)) names = true ->
            plainNames names).
  { intros names Hall n Hn Hin.
    apply list_elem_of_In in Hn.
    pose proof (proj1 (forallb_forall _ _) Hall n Hn) as Hb.
    apply negb_true_iff in Hb. unfold includes in Hb.
    by apply bool_decide_eq_false in Hb. }
  refine (proj1 (setCurrentUserRoles_outcome healthyEnv managerWorld ["cashier"]
                   None _ _ _ _)).
  - intros r Hr. apply list_elem_of_singleton in Hr as ->.
    vm_compute. eexists. reflexivity.
  - apply Hplain. vm_compute. reflexivity.
  - apply Hplain. vm_compute. reflexivity.
  - apply Hplain. vm_compute. reflexivity.
Defined.

End RoleSwitchOutcome.

(** * Record operations of a table service *)
Section ServiceRecords.
Import DAOPure Service ServiceOps.

Lemma string_app_assoc (a b c : string) : (a +:+ b) +:+ c = a +:+ (b +:+ c).
Proof.
  induction a as [|x a IH]; [done|].
  change (String x ((a +:+ b) +:+ c) = String x (a +:+ (b +:+ c))).
  by rewrite IH.
Qed.

(** The service [s] is initialised on the DAO [d], which is connected. *)
Record ready (w : World) (s : loc) (o : BaseService) (d : loc) (od : SQLiteDAO)
  : Prop := mkReady {
  rd_service : serviceHeap w !! s = Some o;
  rd_initialized : isInitialized o = true;
  rd_dao : dao o = Some d;
  rd_handle : daoHeap w !! d = Some od;
  rd_connected : DAO.isConnected od = true;
}.

Lemma ready_set_trace w s o d od tr :
  ready w s o d od -> ready (set_trace tr w) s o d od.
Proof. intros [H1 H2 H3 H4 H5]. by split. Qed.

Lemma ensure_ready env w s o d od :
  ready w s o d od -> _ensureInitialized s env w = (inr tt, w).
Proof.
  intros [H1 H2 _ _ _]. unfold _ensureInitialized, bind, read. by rewrite H1, H2.
Qed.

Lemma the_dao_ready env w s o d od :
  ready w s o d od -> the_dao s env w = (inr d, w).
Proof.
  intros [H1 _ H3 _ _]. unfold the_dao, bind, read. by rewrite H1, H3.
Qed.

Lemma read_ready env w s o d od : ready w s o d od -> read s env w = (inr o, w).
Proof. intros [H1 _ _ _ _]. unfold read. by rewrite H1. Qed.

Definition selectById (o : BaseService) : string :=
  "SELECT * FROM " +:+ tableName o +:+ " WHERE " +:+ primaryKey o +:+ " = ? LIMIT 1".

Definition deleteById (o : BaseService) : string :=
  "DELETE FROM " +:+ tableName o +:+ " WHERE " +:+ primaryKey o +:+ " = ?".

Lemma selectById_query o id :
  buildSelectQuery (buildSelectTable o [(primaryKey o, id)] noOptions) " LIMIT 1"
  = (selectById o, [id]).
Proof.
  transitivity
    ((("SELECT " +:+ "*" +:+ " FROM " +:+ tableName o)
        +:+ (" " +:+ "WHERE" +:+ " " +:+ (primaryKey o +:+ " = ?")))
       +:+ " LIMIT 1", [id]);
    [reflexivity|].
  unfold selectById. rewrite !string_app_assoc. reflexivity.
Qed.

Lemma deleteById_statement o id :
  deleteStatement (buildSelectTable o [(primaryKey o, id)] noOptions)
  = inr (deleteById o, [id]).
Proof.
  transitivity
    (@inr Error Statement
       (("DELETE FROM " +:+ tableName o)
          +:+ (" " +:+ "WHERE" +:+ " " +:+ (primaryKey o +:+ " = ?")), [id]));
    [reflexivity|].
  unfold deleteById. rewrite !string_app_assoc. reflexivity.
Qed.

Lemma findById_ready env w s o d od id :
  ready w s o d od -> falsy id = false ->
  findById s id env w
  = (match db_executeSql env (trace w) d (selectById o) [id] with
     | inl e => inl e
     | inr rows => inr (match rows with r :: _ => r | [] => [] end)
     end,
     set_trace (trace w ++ [EvExecuteSql d (selectById o) [id]]) w).
Proof.
  intros Hready Hid. pose proof Hready as [H1 H2 H3 H4 H5].
  unfold findById. unfold bind at 1.
  rewrite (ensure_ready env w s o d od Hready).
  unfold try_catch. rewrite Hid. unfold bind at 1.
  rewrite (read_ready env w s o d od Hready). unfold bind at 1.
  rewrite (the_dao_ready env w s o d od Hready).
  unfold DAO.select. rewrite selectById_query. cbn [fst snd].
  unfold DAO.getRst, bind.
  rewrite (executeSql_connected env w d od _ _ H4 H5).
  by destruct (db_executeSql env (trace w) d (selectById o) [id]).
Qed.

Lemma delete_ready env w s o d od id :
  ready w s o d od -> falsy id = false ->
  delete s id env w
  = (match db_executeSql env (trace w) d (deleteById o) [id] with
     | inl e => inl e
     | inr _ => inr true
     end,
     set_trace (trace w ++ [EvExecuteSql d (deleteById o) [id]]) w).
Proof.
  intros Hready Hid. pose proof Hready as [H1 H2 H3 H4 H5].
  unfold delete. unfold bind at 1.
  rewrite (ensure_ready env w s o d od Hready).
  unfold try_catch. rewrite Hid. unfold bind at 1.
  rewrite (read_ready env w s o d od Hready). unfold bind at 1.
  rewrite (the_dao_ready env w s o d od Hready).
  unfold DAO.delete. rewrite deleteById_statement. unfold DAO.run_statement.
  unfold bind at 1.
  rewrite (runSql_connected env w d od _ _ H4 H5).
  by destruct (db_executeSql env (trace w) d (deleteById o) [id]).
Qed.

(** X18: On an initialised service, [findById] and [delete] refuse a falsy id
    ([undefined], [null], [0], the empty string) before any statement is
    issued; for any other id each issues exactly one statement, the SELECT
    or DELETE on the table filtered on the first primary key field, with the
    id as its only parameter, and returns what the engine answers: the
    first row or the empty record, and [true]. *)
Theorem service_by_id (env : Env) (w : World) (s : loc) (o : BaseService)
    (d : loc) (od : SQLiteDAO) (id : JsValue) :
  ready w s o d od ->
  (falsy id = true ->
     findById s id env w = (inl (mkError "ID is required"), w)
     /\ delete s id env w = (inl (mkError "ID is required for delete"), w))
  /\ (falsy id = false ->
      findById s id env w
      = (match db_executeSql env (trace w) d (selectById o) [id] with
         | inl e => inl e
         | inr rows => inr (match rows with r :: _ => r | [] => [] end)
         end,
         set_trace (trace w ++ [EvExecuteSql d (selectById o) [id]]) w)
      /\ delete s id env w
         = (match db_executeSql env (trace w) d (deleteById o) [id] with
            | inl e => inl e
            | inr _ => inr true
            end,
            set_trace (trace w ++ [EvExecuteSql d (deleteById o) [id]]) w)).
Proof.
  intros Hready. split.
  - intros Hid. unfold findById, delete, bind.
    rewrite !(ensure_ready env w s o d od Hready).
    unfold try_catch. by rewrite Hid.
  - intros Hid. split; [exact (findById_ready env w s o d od id Hready Hid)
                      | exact (delete_ready env w s o d od id Hready Hid)].
Qed.

Lemma service_by_id_witness :
  findById 0 (VNum 0) healthyEnv coreServiceWorld
  = (inl (mkError "ID is required"), coreServiceWorld)
  /\ trace (findById 0 (VNum 7) healthyEnv coreServiceWorld).2
     = [EvExecuteSql 0 "SELECT * FROM users WHERE id = ? LIMIT 1" [VNum 7]].
Proof.
  pose proof (service_by_id healthyEnv coreServiceWorld 0
                (mkBaseService "core" "users" (Some 0) true true ["id"]) 0
                connectedCore) as H.
  split.
  - destruct (H (VNum 0)) as [Hf _]; [by split|]. exact (proj1 (Hf eq_refl)).
  - destruct (H (VNum 7)) as [_ Hf]; [by split|].
    destruct (Hf eq_refl) as [Hfind _]. by rewrite Hfind.
Defined.

(** X19: [executeTransaction] never lets a failed rollback hide the error that
    made it roll back: whatever the callback does and whatever the engine
    answers to ROLLBACK, an error of the body of the transaction (the
    begin, the callback or the commit) is the error the caller gets. *)
Theorem executeTransaction_rethrows {A} (env : Env) (w w1 w2 : World) (s : loc)
    (callback : Async A) (error : Error) :
  _ensureInitialized s env w = (inr tt, w1) ->
  (d <- the_dao s ;;
   DAO.beginTransaction d ;;;
   result <- callback ;;
   d <- the_dao s ;;
   DAO.commitTransaction d ;;;
   ret result) env w1 = (inl error, w2) ->
  (executeTransaction s callback env w).1 = inl error.
Proof.
  intros Hinit Hbody. unfold executeTransaction. unfold bind at 1.
  rewrite Hinit. unfold try_catch at 1. rewrite Hbody.
  unfold bind at 1. unfold try_catch.
  destruct ((d <- the_dao s ;; DAO.rollbackTransaction d) env w2) as [[e|[]] w3];
    done.
Qed.

Lemma executeTransaction_rethrows_witness :
  (executeTransaction 0 (throw (A:=unit) (mkError "callback failed"))
     rollbackFailsEnv coreServiceWorld).1
  = inl (mkError "callback failed").
Proof.
  eapply (executeTransaction_rethrows rollbackFailsEnv coreServiceWorld).
  - vm_compute. reflexivity.
  - vm_compute. reflexivity.
Defined.

Definition statementEvent (d : loc) (st : Statement) : Event :=
  EvExecuteSql d st.1 st.2.

(** The callback of [bulkCreate]. *)
Definition insertAll (s : loc) (dataArray : list (list (string * JsValue)))
  : Async unit :=
  for_of dataArray
    (fun data =>
       o <- read s ;;
       d <- the_dao s ;;
       let queryTable := buildDataTable o data in
       DAO.insert d queryTable ;;;
       ret tt).

Lemma insertAll_accepted env s o d od good sts tail :
  accepting env d ->
  Forall2 (fun data st => insertStatement (buildDataTable o data) = inr st) good sts ->
  forall w, ready w s o d od ->
    insertAll s (good ++ tail) env w
    = insertAll s tail env (set_trace (trace w ++ map (statementEvent d) sts) w).
Proof.
  intros Hacc Hall. induction Hall as [|data st good sts Hst Hall IH]; intros w Hready.
  - cbn. by rewrite app_nil_r, set_trace_same.
  - pose proof Hready as [H1 H2 H3 H4 H5].
    cbn [app]. unfold insertAll at 1. cbn [for_of]. fold (insertAll s (good ++ tail)).
    unfold bind at 1. unfold bind at 1.
    rewrite (read_ready env w s o d od Hready). unfold bind at 1.
    rewrite (the_dao_ready env w s o d od Hready). cbv zeta.
    unfold DAO.insert. rewrite Hst. destruct st as [sql params].
    unfold DAO.run_statement. unfold bind at 1.
    rewrite (runSql_connected env w d od _ _ H4 H5).
    destruct (Hacc (trace w) sql params) as [rows ->]. cbn [ret].
    rewrite IH by (by apply ready_set_trace).
    cbn [map]. rewrite set_trace_twice. cbn [trace set_trace].
    by rewrite <- app_assoc.
Qed.

Lemma insertAll_rejected env w s o d od bad rest :
  ready w s o d od ->
  (forall kv, kv ∈ bad -> is_present kv.2 = false) ->
  insertAll s (bad :: rest) env w
  = (inl (mkError "No valid columns to insert"), w).
Proof.
  intros Hready Hbad. unfold insertAll. cbn [for_of].
  unfold bind at 1. unfold bind at 1.
  rewrite (read_ready env w s o d od Hready). unfold bind at 1.
  rewrite (the_dao_ready env w s o d od Hready). cbv zeta.
  unfold DAO.insert, insertStatement, buildDataTable.
  cbn [convertJsonToQueryTable cols].
  assert (Hnone : List.filter (fun c => is_present (col_value c))
                    (map (fun kv => mkColumn kv.1 kv.2) bad) = []).
  { induction bad as [|kv bad IH]; [done|]. cbn.
    rewrite (Hbad kv) by apply list_elem_of_here.
    apply IH. intros kv' Hkv'. by apply Hbad, list_elem_of_further. }
  by rewrite Hnone.
Qed.

(** X20: [bulkCreate] on an initialised service whose DAO is connected and
    outside a transaction, with an engine that accepts every statement.  An
    empty array is refused before anything is issued.  When every record
    has a column to insert, the statements are BEGIN TRANSACTION, one INSERT
    per record in the order of the array, and COMMIT, and the array is
    returned.  When a record has no column to insert, the records before it
    are inserted, the transaction is rolled back, nothing after ROLLBACK is
    issued, and the caller gets 'No valid columns to insert'.  In both
    cases the DAO is outside a transaction afterwards. *)
Theorem bulkCreate_all_or_nothing (env : Env) (w : World) (s : loc)
    (o : BaseService) (d : loc) (od : SQLiteDAO) :
  ready w s o d od -> inTransaction od = false -> accepting env d ->
  bulkCreate s [] env w = (inl (mkError "Data must be a non-empty array"), w)
  /\ (forall data dataArray sts,
        Forall2 (fun data st => insertStatement (buildDataTable o data) = inr st)
          (data :: dataArray) sts ->
        let out := bulkCreate s (data :: dataArray) env w in
        out.1 = inr (data :: dataArray)
        /\ trace out.2
           = trace w ++ [stmt d "BEGIN TRANSACTION"]
             ++ map (statementEvent d) sts ++ [stmt d "COMMIT"]
        /\ daoHeap out.2 !! d = Some od)
  /\ (forall good bad rest sts,
        Forall2 (fun data st => insertStatement (buildDataTable o data) = inr st)
          good sts ->
        (forall kv, kv ∈ bad -> is_present kv.2 = false) ->
        let out := bulkCreate s (good ++ bad :: rest) env w in
        out.1 = inl (mkError "No valid columns to insert")
        /\ trace out.2
           = trace w ++ [stmt d "BEGIN TRANSACTION"]
             ++ map (statementEvent d) sts ++ [stmt d "ROLLBACK"]
        /\ daoHeap out.2 !! d = Some od).
Proof.
  intros Hready Ht Hacc. pose proof Hready as [H1 H2 H3 H4 H5].
  assert (Hlt : d < length (daoHeap w)) by (by apply lookup_lt_Some in H4).
  set (od1 := DAO.set_inTransaction true od).
  set (w1 := set_daoHeap (<[d := od1]> (daoHeap w))
               (set_trace (trace w ++ [stmt d "BEGIN TRANSACTION"]) w)).
  assert (Hready1 : ready w1 s o d od1).
  { split; try done. subst w1. cbn. by apply list_lookup_insert_eq. }
  assert (Hbegin : DAO.beginTransaction d env w = (inr tt, w1)).
  { rewrite (beginTransaction_connected env w d od H4 H5 Ht).
    by destruct (Hacc (trace w) "BEGIN TRANSACTION" []) as [rows ->]. }
  assert (Hod : DAO.set_inTransaction false od1 = od).
  { subst od1. destruct od. cbn in *. by subst. }
  assert (Hput : forall tr,
    set_daoHeap (<[d := DAO.set_inTransaction false od1]> (daoHeap (set_trace tr w1)))
      (set_trace tr w1)
    = set_trace tr w).
  { intros tr. rewrite Hod. subst w1. destruct w. cbn in *.
    rewrite list_insert_insert_eq, list_insert_id; done. }
  assert (Hexec_ok : forall dataArray tr2,
    insertAll s dataArray env w1 = (inr tt, set_trace tr2 w1) ->
    executeTransaction s (insertAll s dataArray) env w
    = (inr tt, set_trace (tr2 ++ [stmt d "COMMIT"]) w)).
  { intros dataArray tr2 Hloop. unfold executeTransaction. unfold bind at 1.
    rewrite (ensure_ready env w s o d od Hready).
    unfold try_catch at 1. unfold bind at 1.
    rewrite (the_dao_ready env w s o d od Hready).
    unfold bind at 1. rewrite Hbegin. unfold bind at 1. rewrite Hloop.
    unfold bind at 1.
    rewrite (the_dao_ready env (set_trace tr2 w1) s o d od1)
      by (by apply ready_set_trace).
    unfold bind at 1.
    rewrite (commitTransaction_connected env (set_trace tr2 w1) d od1);
      [|exact (rd_handle _ _ _ _ _ Hready1)|done|done].
    destruct (Hacc (trace (set_trace tr2 w1)) "COMMIT" []) as [rows ->].
    cbn [ret]. rewrite set_trace_twice.
    change (daoHeap (set_trace tr2 w1)) with (daoHeap (set_trace (tr2 ++ [stmt d "COMMIT"]) w1)).
    change (trace (set_trace tr2 w1)) with tr2.
    rewrite <- (set_trace_twice tr2 (tr2 ++ [stmt d "COMMIT"]) w1) at 2.
    rewrite set_trace_twice. by rewrite Hput. }
  assert (Hexec_fail : forall dataArray tr2 e,
    insertAll s dataArray env w1 = (inl e, set_trace tr2 w1) ->
    executeTransaction s (insertAll s dataArray) env w
    = (inl e, set_trace (tr2 ++ [stmt d "ROLLBACK"]) w)).
  { intros dataArray tr2 e Hloop. unfold executeTransaction. unfold bind at 1.
    rewrite (ensure_ready env w s o d od Hready).
    unfold try_catch at 1. unfold bind at 1.
    rewrite (the_dao_ready env w s o d od Hready).
    unfold bind at 1. rewrite Hbegin. unfold bind at 1. rewrite Hloop.
    unfold bind at 1. unfold try_catch. unfold bind at 1.
    rewrite (the_dao_ready env (set_trace tr2 w1) s o d od1)
      by (by apply ready_set_trace).
    rewrite (rollbackTransaction_connected env (set_trace tr2 w1) d od1);
      [|exact (rd_handle _ _ _ _ _ Hready1)|done|done].
    destruct (Hacc (trace (set_trace tr2 w1)) "ROLLBACK" []) as [rows ->].
    cbn [throw]. rewrite set_trace_twice.
    change (daoHeap (set_trace tr2 w1))
      with (daoHeap (set_trace (tr2 ++ [stmt d "ROLLBACK"]) w1)).
    change (trace (set_trace tr2 w1)) with tr2.
    by rewrite Hput. }
  assert (Hbulk : forall data dataArray,
    bulkCreate s (data :: dataArray) env w
    = match executeTransaction s (insertAll s (data :: dataArray)) env w with
      | (inr _, w') => (inr (data :: dataArray), w')
      | (inl e, w') => (inl e, w')
      end).
  { intros data dataArray. unfold bulkCreate. unfold bind at 1.
    rewrite (ensure_ready env w s o d od Hready).
    unfold try_catch at 1. unfold bind at 1. fold (insertAll s (data :: dataArray)).
    by destruct (executeTransaction s (insertAll s (data :: dataArray)) env w)
      as [[e|[]] w']. }
  split; [|split].
  - unfold bulkCreate, bind. by rewrite (ensure_ready env w s o d od Hready).
  - intros data dataArray sts Hall. cbv zeta. rewrite Hbulk.
    pose proof (insertAll_accepted env s o d od1 (data :: dataArray) sts []
                  Hacc Hall w1 Hready1) as Hloop.
    rewrite app_nil_r in Hloop.
    rewrite (Hexec_ok (data :: dataArray)
               (trace w1 ++ map (statementEvent d) sts) Hloop).
    cbn [fst snd trace set_trace].
    split; [done|]. split; [|by destruct w].
    subst w1. destruct w. cbn. by rewrite <- !app_assoc.
  - intros good bad rest sts Hall Hbad. cbv zeta.
    pose proof (insertAll_accepted env s o d od1 good sts (bad :: rest)
                  Hacc Hall w1 Hready1) as Hloop.
    rewrite (insertAll_rejected env _ s o d od1 bad rest) in Hloop;
      [|by apply ready_set_trace|done].
    destruct (good ++ bad :: rest) as [|data dataArray] eqn:Hlist.
    { by destruct good. }
    rewrite Hbulk.
    rewrite (Hexec_fail (data :: dataArray)
               (trace w1 ++ map (statementEvent d) sts) _ Hloop).
    cbn [fst snd trace set_trace].
    split; [done|]. split; [|by destruct w].
    subst w1. destruct w. cbn. by rewrite <- !app_assoc.
Qed.

Lemma bulkCreate_all_or_nothing_witness :
  trace (bulkCreate 0 [[("name", VStr "ann")]; [("name", VNull)]]
           healthyEnv coreServiceWorld).2
  = [stmt 0 "BEGIN TRANSACTION";
     EvExecuteSql 0 "INSERT INTO users (name) VALUES (?)" [VStr "ann"];
     stmt 0 "ROLLBACK"].
Proof.
  pose proof (bulkCreate_all_or_nothing healthyEnv coreServiceWorld 0
                (mkBaseService "core" "users" (Some 0) true true ["id"]) 0
                connectedCore) as H.
  destruct H as (_ & _ & H); [by split | done | apply healthyEnv_accepting |].
  destruct (H [[("name", VStr "ann")]] [("name", VNull)] []
              [("INSERT INTO users (name) VALUES (?)", [VStr "ann"])])
    as (_ & Htrace & _).
  - repeat constructor.
  - intros kv Hkv. apply list_elem_of_singleton in Hkv as ->. reflexivity.
  - exact Htrace.
Defined.

Lemma setEntries_set_property pk id data :
  setEntries [pk] (set_property pk id data) = setEntries [pk] data.
Proof.
  assert (Hpk : includes [pk] pk = true).
  { unfold includes. apply bool_decide_eq_true, list_elem_of_here. }
  unfold setEntries. induction data as [|[k v] data IH]; cbn.
  - rewrite Hpk. by rewrite andb_false_r.
  - destruct (String.eqb k pk) eqn:E.
    + apply String.eqb_eq in E as ->. cbn. rewrite Hpk, !andb_false_r. done.
    + cbn. rewrite IH. done.
Qed.

Lemma idEntries_absent pk data :
  pk ∉ map fst data -> idEntries [pk] data = [].
Proof.
  unfold idEntries. induction data as [|[k v] data IH]; cbn; [done|].
  intros Hnot. apply not_elem_of_cons in Hnot as [Hne Hnot].
  unfold includes. rewrite bool_decide_eq_false_2.
  - cbn. by apply IH.
  - intros Hin. apply list_elem_of_singleton in Hin. by subst.
Qed.

Lemma idEntries_set_property pk id data :
  is_defined id = true -> NoDup (map fst data) ->
  idEntries [pk] (set_property pk id data) = [(pk, id)].
Proof.
  intros Hid.
  assert (Hpk : includes [pk] pk = true).
  { unfold includes. apply bool_decide_eq_true, list_elem_of_here. }
  induction data as [|[k v] data IH]; intros Hnd.
  - unfold idEntries. cbn. by rewrite Hpk, Hid.
  - apply NoDup_cons in Hnd as [Hk Hnd]. cbn [set_property].
    destruct (String.eqb k pk) eqn:E.
    + apply String.eqb_eq in E as ->.
      change (idEntries [pk] ((pk, id) :: data))
        with (if includes [pk] pk && is_defined id
              then (pk, id) :: idEntries [pk] data else idEntries [pk] data).
      rewrite Hpk, Hid. cbn [andb]. by rewrite (idEntries_absent pk data Hk).
    + change (idEntries [pk] ((k, v) :: set_property pk id data))
        with (if includes [pk] k && is_defined v
              then (k, v) :: idEntries [pk] (set_property pk id data)
              else idEntries [pk] (set_property pk id data)).
      assert (Hk' : includes [pk] k = false).
      { unfold includes. apply bool_decide_eq_false. intros Hin.
        apply list_elem_of_singleton in Hin. subst.
        by rewrite String.eqb_refl in E. }
      rewrite Hk'. cbn [andb]. by apply IH.
Qed.

Lemma falsy_defined id : falsy id = false -> is_defined id = true.
Proof. by destruct id. Qed.

Definition updateById (o : BaseService) (sets : list (string * JsValue)) : string :=
  "UPDATE " +:+ tableName o +:+ " SET "
  +:+ join ", " (map (fun kv => kv.1 +:+ " = ?") sets)
  +:+ " WHERE " +:+ primaryKey o +:+ " = ?".

Lemma updateById_sql o pk (id : JsValue) sets :
  primaryKey o = pk ->
  ("UPDATE " +:+ tableName o +:+ " SET "
     +:+ join ", " (map (fun kv : string * JsValue => kv.1 +:+ " = ?") sets))
    +:+ " WHERE "
    +:+ join " AND " (map (fun kv : string * JsValue => kv.1 +:+ " = ?") [(pk, id)])
  = updateById o sets.
Proof.
  intros Hkey. unfold updateById. rewrite Hkey. cbn [join map fst].
  rewrite !string_app_assoc. reflexivity.
Qed.

(** X27: [update(id, data)] on an initialised service with one primary key
    field, a record without repeated property and an engine that accepts
    every statement.  A falsy id is refused before any statement.  The row
    is chosen by the [id] argument alone: the primary key column is never
    set, also when the record carries a value for it, and the UPDATE sets
    the other defined properties, in the order of the record, with the id as
    last parameter; when there is nothing to set the call fails without a
    statement.  After the UPDATE the row is read again by [findById], whose
    answer is returned. *)
Theorem service_update_by_id (env : Env) (w : World) (s : loc) (o : BaseService)
    (d : loc) (od : SQLiteDAO) (pk : string) (id : JsValue)
    (data : list (string * JsValue)) :
  ready w s o d od -> primaryKeyFields o = [pk] -> NoDup (map fst data) ->
  accepting env d ->
  let out := update s id data env w in
  let sets := setEntries [pk] data in
  let upd := EvExecuteSql d (updateById o sets)
               (map (fun kv => stringify_if_object kv.2) sets ++ [id]) in
  (falsy id = true -> out = (inl (mkError "ID is required for update"), w))
  /\ (falsy id = false -> sets = [] ->
      out = (inl (mkError "No columns to update"), w))
  /\ (falsy id = false -> sets <> [] ->
      out = findById s id env (set_trace (trace w ++ [upd]) w)
      /\ trace out.2 = trace w ++ [upd; EvExecuteSql d (selectById o) [id]]
      /\ exists row, out.1 = inr row).
Proof.
  intros Hready Hpk Hnd Hacc. pose proof Hready as [H1 H2 H3 H4 H5]. cbv zeta.
  assert (Hkey : primaryKey o = pk) by (unfold primaryKey; by rewrite Hpk).
  split; [|split].
  - intros Hid. unfold update, bind.
    rewrite (ensure_ready env w s o d od Hready). unfold try_catch.
    by rewrite Hid.
  - intros Hid Hsets. unfold update. unfold bind at 1.
    rewrite (ensure_ready env w s o d od Hready). unfold try_catch.
    rewrite Hid. unfold bind at 1.
    rewrite (read_ready env w s o d od Hready). unfold bind at 1.
    rewrite (the_dao_ready env w s o d od Hready). cbv zeta.
    unfold DAO.update, buildDataTable.
    rewrite updateStatement_of_record, Hpk, Hkey, setEntries_set_property, Hsets.
    unfold bind. done.
  - intros Hid Hsets.
    remember (setEntries [pk] data) as sets eqn:Hs.
    set (upd := EvExecuteSql d (updateById o sets) _).
    assert (Hrun : update s id data env w
                   = findById s id env (set_trace (trace w ++ [upd]) w)).
    { unfold update. unfold bind at 1.
      rewrite (ensure_ready env w s o d od Hready). unfold try_catch at 1.
      rewrite Hid. unfold bind at 1.
      rewrite (read_ready env w s o d od Hready). unfold bind at 1.
      rewrite (the_dao_ready env w s o d od Hready). cbv zeta.
      unfold DAO.update, buildDataTable.
      rewrite updateStatement_of_record, Hpk, Hkey, setEntries_set_property.
      rewrite (idEntries_set_property pk id data (falsy_defined id Hid) Hnd).
      rewrite <- Hs. subst upd. clear Hs.
      destruct sets as [|s0 sets']; [done|]. cbv zeta.
      rewrite (updateById_sql o pk id (s0 :: sets') Hkey).
      change (map snd [(pk, id)]) with [id].
      unfold DAO.run_statement. unfold bind at 1.
      rewrite (runSql_connected env w d od _ _ H4 H5).
      match goal with
      | |- context [db_executeSql env (trace w) d ?sql ?ps] =>
          destruct (Hacc (trace w) sql ps) as [rows ->]
      end.
      by destruct (findById s id env _) as [[e|row] w2]. }
    split; [exact Hrun|]. rewrite Hrun.
    rewrite (findById_ready env _ s o d od id (ready_set_trace _ _ _ _ _ _ Hready) Hid).
    cbn [fst snd trace set_trace].
    destruct (Hacc (trace w ++ [upd]) (selectById o) [id]) as [rows ->].
    split; [by rewrite <- app_assoc | by eexists].
Qed.

Lemma service_update_by_id_witness :
  trace (update 0 (VNum 7) [("id", VNum 9); ("name", VStr "ann")]
           healthyEnv coreServiceWorld).2
  = [EvExecuteSql 0 "UPDATE users SET name = ? WHERE id = ?" [VStr "ann"; VNum 7];
     EvExecuteSql 0 "SELECT * FROM users WHERE id = ? LIMIT 1" [VNum 7]].
Proof.
  pose proof (service_update_by_id healthyEnv coreServiceWorld 0
                (mkBaseService "core" "users" (Some 0) true true ["id"]) 0
                connectedCore "id" (VNum 7) [("id", VNum 9); ("name", VStr "ann")])
    as H.
  destruct H as (_ & _ & H).
  - by split.
  - reflexivity.
  - cbn. repeat constructor; intros Hin.
    + apply list_elem_of_singleton in Hin. discriminate.
    + by apply elem_of_nil in Hin.
  - apply healthyEnv_accepting.
  - destruct H as (_ & Ht & _); [reflexivity | discriminate |]. exact Ht.
Defined.

(** X28: [create(data)] on an initialised service with an engine that accepts
    every statement, the first primary key field not being the name of an
    inherited member.  A record without any present value (neither
    [undefined] nor [null]) is refused without a statement.  Otherwise one
    INSERT with the present properties is issued; when the record has no
    truthy value for the first primary key field the record itself is
    returned and nothing more is issued, and when it has one the row is read
    back by [findById] on that value, whose answer is returned. *)
Theorem service_create_rereads (env : Env) (w : World) (s : loc) (o : BaseService)
    (d : loc) (od : SQLiteDAO) (data : list (string * JsValue)) :
  ready w s o d od -> accepting env d ->
  primaryKey o ∉ objectPrototypeKeys ->
  let out := create s data env w in
  let present := List.filter (fun kv => is_present kv.2) data in
  let ins :=
    EvExecuteSql d
      ("INSERT INTO " +:+ tableName o +:+ " (" +:+ join ", " (map fst present)
       +:+ ") VALUES (" +:+ join ", " (map (fun _ => "?") present) +:+ ")")
      (map (fun kv => stringify_if_object kv.2) present) in
  let key := property (primaryKey o) data in
  (present = [] -> out = (inl (mkError "No valid columns to insert"), w))
  /\ (present <> [] -> falsy key = true ->
      out = (inr data, set_trace (trace w ++ [ins]) w))
  /\ (present <> [] -> falsy key = false ->
      out = findById s key env (set_trace (trace w ++ [ins]) w)
      /\ trace out.2 = trace w ++ [ins; EvExecuteSql d (selectById o) [key]]).
Proof.
  intros Hready Hacc _. pose proof Hready as [H1 H2 H3 H4 H5]. cbv zeta.
  set (present := List.filter (fun kv => is_present kv.2) data).
  set (ins := EvExecuteSql d _ _).
  assert (Hhead :
    create s data env w
    = match present with
      | [] => (inl (mkError "No valid columns to insert"), w)
      | _ :: _ =>
          if falsy (property (primaryKey o) data)
          then (inr data, set_trace (trace w ++ [ins]) w)
          else findById s (property (primaryKey o) data) env
                 (set_trace (trace w ++ [ins]) w)
      end).
  { unfold create. unfold bind at 1.
    rewrite (ensure_ready env w s o d od Hready). unfold try_catch.
    unfold bind at 1. rewrite (read_ready env w s o d od Hready).
    unfold bind at 1. rewrite (the_dao_ready env w s o d od Hready). cbv zeta.
    unfold DAO.insert, buildDataTable. rewrite insertStatement_of_record.
    fold present. subst ins. destruct present as [|p0 p] eqn:Hp; [done|].
    rewrite <- Hp. unfold DAO.run_statement. unfold bind at 1.
    rewrite (runSql_connected env w d od _ _ H4 H5).
    match goal with
    | |- context [db_executeSql env (trace w) d ?sql ?ps] =>
        destruct (Hacc (trace w) sql ps) as [rows ->]
    end.
    unfold bind at 1.
    rewrite (read_ready env _ s o d od (ready_set_trace _ _ _ _ _ _ Hready)).
    destruct (falsy (property (primaryKey o) data)); [done|].
    by destruct (findById s _ env _) as [[e|row] w2]. }
  rewrite Hhead. clear Hhead. split; [|split].
  - by intros ->.
  - intros Hne Hkey. destruct present; [done|]. by rewrite Hkey.
  - intros Hne Hkey. destruct present as [|p0 p] eqn:Hp; [done|]. rewrite Hkey.
    split; [done|].
    rewrite (findById_ready env _ s o d od _
               (ready_set_trace _ _ _ _ _ _ Hready) Hkey).
    cbn [snd trace set_trace]. by rewrite <- app_assoc.
Qed.

Lemma service_create_rereads_witness :
  create 0 [("name", VStr "ann")] healthyEnv coreServiceWorld
  = (inr [("name", VStr "ann")],
     set_trace
       [EvExecuteSql 0 "INSERT INTO users (name) VALUES (?)" [VStr "ann"]]
       coreServiceWorld).
Proof.
  pose proof (service_create_rereads healthyEnv coreServiceWorld 0
                (mkBaseService "core" "users" (Some 0) true true ["id"]) 0
                connectedCore [("name", VStr "ann")]) as H.
  destruct H as (_ & H & _).
  - by split.
  - apply healthyEnv_accepting.
  - apply (bool_decide_unpack _). vm_compute. exact I.
  - apply H; [discriminate | reflexivity].
Defined.

End ServiceRecords.

(** * Initialisation of a service and the service registry *)
Section ServiceRegistry.
Import Manager Service Registry RegistryOps.

Lemma frame_service_read {T} (proj : World -> T) s :
  preserves (keeps proj) (Service.read s).
Proof. intros env w. unfold Service.read. by destruct (serviceHeap w !! s). Qed.

Lemma frame_getLazyLoading {T} (proj : World -> T) key :
  (forall tr w, proj (set_trace tr w) = proj w) ->
  (forall h w, proj (set_daoHeap h w) = proj w) ->
  (forall c w, proj (set_manager (set_connections c (manager w)) w) = proj w) ->
  (forall w, proj (set_manager (set_listening (manager w)) w) = proj w) ->
  preserves (keeps proj) (getLazyLoading key).
Proof.
  intros Htrace Hheap Hstore Hlisten.
  unfold getLazyLoading, store_connection, setupAppStateListener.
  repeat first
    [ (by apply frame_openExisting)
    | (by apply frame_runSql)
    | (apply (preserves_modify _); intros ?; first [apply Hstore | apply Hlisten])
    | preserves_step ].
Qed.

Lemma getLazyLoading_value key env w r w1 :
  getLazyLoading key env w = (inr r, w1) ->
  r = connections (manager w1) !! key
  /\ serviceHeap w1 = serviceHeap w
  /\ hasAccessToDatabase (manager w1) key = true.
Proof.
  intros Hrun.
  pose proof (frame_getLazyLoading serviceHeap key
                (fun _ _ => eq_refl) (fun _ _ => eq_refl)
                (fun _ _ => eq_refl) (fun _ => eq_refl) env w) as Hservices.
  pose proof (frame_getLazyLoading
                (fun w => hasAccessToDatabase (manager w) key) key
                (fun _ _ => eq_refl) (fun _ _ => eq_refl)
                (fun _ _ => eq_refl) (fun _ => eq_refl) env w) as Haccess.
  rewrite Hrun in Hservices, Haccess. unfold keeps in *. cbn [snd] in *.
  split; [|split; [done|]].
  - revert Hrun. unfold getLazyLoading. unfold bind at 1, get_world.
    destruct (hasAccessToDatabase (manager w) key); cbn [negb]; [|done].
    unfold bind at 1.
    match goal with
    | |- context [match ?m env w with _ => _ end] =>
        destruct (m env w) as [[e|[]] w2]; [done|]
    end.
    unfold bind, setupAppStateListener, modify, get_world, ret.
    by intros [= <- <-].
  - rewrite Haccess. revert Hrun. unfold getLazyLoading, bind at 1, get_world.
    by destruct (hasAccessToDatabase (manager w) key).
Qed.

(** X21: [init] on a service that is not initialised, for a call during which
    no other call changes the connection map (the manager checks its cache
    when [getLazyLoading] is called and stores after two awaits, so that
    calls which overlap on an uncached schema each open a DAO) and for a
    schema name and role names that are not names of members of
    [Object.prototype]: when it succeeds, the service holds the very
    connection the manager caches under the schema name, which the current
    roles may access, and is opened and initialised; when it fails, the
    service is still not initialised. *)
Theorem init_acquires_shared_handle (env : Env) (w : World) (s : loc)
    (o : BaseService) :
  serviceHeap w !! s = Some o -> isInitialized o = false ->
  schemaName o ∉ objectPrototypeKeys ->
  (forall r, r ∈ currentUserRoles (manager w) -> r ∉ objectPrototypeKeys) ->
  let out := init s env w in
  (out.1 = inr tt ->
     exists d,
       serviceHeap out.2 !! s
       = Some (mkBaseService (schemaName o) (tableName o) (Some d) true true
                 (primaryKeyFields o))
       /\ connections (manager out.2) !! schemaName o = Some d
       /\ hasAccessToDatabase (manager out.2) (schemaName o) = true)
  /\ (forall e, out.1 = inl e ->
        exists o', serviceHeap out.2 !! s = Some o' /\ isInitialized o' = false).
Proof.
  intros Hs Hinit _ _. cbv zeta.
  assert (Hlt : s < length (serviceHeap w)) by (by apply lookup_lt_Some in Hs).
  set (good := fun out : Result unit * World =>
    (out.1 = inr tt ->
       exists d,
         serviceHeap out.2 !! s
         = Some (mkBaseService (schemaName o) (tableName o) (Some d) true true
                   (primaryKeyFields o))
         /\ connections (manager out.2) !! schemaName o = Some d
         /\ hasAccessToDatabase (manager out.2) (schemaName o) = true)
    /\ (forall e, out.1 = inl e ->
          exists o', serviceHeap out.2 !! s = Some o' /\ isInitialized o' = false)).
  change (good (init s env w)).
  unfold init, try_catch. unfold bind at 1, read at 1. rewrite Hs, Hinit.
  unfold bind at 1.
  pose proof (frame_getLazyLoading serviceHeap (schemaName o)
                (fun _ _ => eq_refl) (fun _ _ => eq_refl)
                (fun _ _ => eq_refl) (fun _ => eq_refl) env w) as Hframe.
  destruct (getLazyLoading (schemaName o) env w) as [[e|r] w1] eqn:Hrun;
    unfold keeps in Hframe; cbn [snd] in Hframe.
  { split; [done|]. intros e' _. exists o. cbn. by rewrite Hframe. }
  destruct (getLazyLoading_value _ _ _ _ _ Hrun) as (Hr & _ & Hacc).
  assert (Hs1 : serviceHeap w1 !! s = Some o) by (by rewrite Hframe).
  assert (Hlt1 : s < length (serviceHeap w1)) by (by rewrite Hframe).
  unfold bind at 1, read at 1. rewrite Hs1.
  unfold bind at 1, write at 1, modify at 1.
  destruct r as [d|].
  - unfold bind, read, write, modify. cbn.
    rewrite list_lookup_insert_eq by done. cbn.
    split; [|done]. intros _. exists d. cbn.
    rewrite list_insert_insert_eq, list_lookup_insert_eq by done.
    split; [done|]. split; [by rewrite <- Hr | exact Hacc].
  - cbn. split; [done|]. intros e _. exists (set_dao None o). cbn.
    rewrite list_lookup_insert_eq by done. split; [reflexivity|]. exact Hinit.
Qed.

Definition uninitialisedServiceWorld : World :=
  mkWorld [] [connectedCore]
    [mkBaseService "core" "users" None false false ["id"]]
    (mkDatabaseManager false 5 {["core" := 0%nat]} true ∅ None [])
    emptyRegistry.

Lemma init_acquires_shared_handle_witness :
  exists d,
    serviceHeap (init 0 healthyEnv uninitialisedServiceWorld).2 !! 0
    = Some (mkBaseService "core" "users" (Some d) true true ["id"])
    /\ connections (manager (init 0 healthyEnv uninitialisedServiceWorld).2) !! "core"
       = Some d.
Proof.
  destruct (init_acquires_shared_handle healthyEnv uninitialisedServiceWorld
              0 (mkBaseService "core" "users" None false false ["id"])
              eq_refl eq_refl) as [H _].
  - apply (bool_decide_unpack _). vm_compute. exact I.
  - intros r Hr. by apply elem_of_nil in Hr.
  - destruct H as (d & H1 & H2 & _); [vm_compute; reflexivity|].
    exists d. split; [exact H1 | exact H2].
Defined.

Lemma frame_service_close {T} (proj : World -> T) s :
  (forall tr w, proj (set_trace tr w) = proj w) ->
  (forall h w, proj (set_daoHeap h w) = proj w) ->
  (forall i o w, proj (set_serviceHeap (<[i := o]> (serviceHeap w)) w) = proj w) ->
  preserves (keeps proj) (Service.close s).
Proof.
  intros Htrace Hheap Hwrite. unfold Service.close, Service.write.
  repeat first
    [ (by apply frame_close)
    | apply frame_service_read
    | (apply (preserves_modify _); intros ?; apply Hwrite)
    | preserves_step ].
Qed.

Lemma createService_fresh schema table env w s' w' :
  services (registry w) !! createServiceKey schema table = None ->
  createService schema table env w = (inr s', w') ->
  s' = length (serviceHeap w).
Proof.
  intros Hnone. unfold createService. unfold bind at 1, get_world. rewrite Hnone.
  unfold try_catch.
  set (config := default (defaultConfig schema table) _).
  unfold bind at 1. unfold Service.new.
  destruct (default BaseServiceClass (sc_serviceClass config) schema table)
    as [e|[sn tn]]; [done|].
  match goal with
  | |- context [bind ?m (fun _ => bind ?m2 ?k) env ?w2] =>
      unfold bind at 1; destruct (m env w2) as [[e|[]] w3]; [done|]
  end.
  unfold bind at 1, store_service, modify.
  match goal with
  | |- context [bind ?m ?k env ?w4] =>
      unfold bind at 1; destruct (m env w4) as [[e|[]] w5]; [done|]
  end.
  unfold ret. by intros [= <- <-].
Qed.

(** X22: [closeService] never throws.  On a key without service it answers
    [false] and changes nothing.  On a cached service it closes the
    service and answers [true] exactly when that close succeeded; the DAO
    heap, the service heap and the native calls are those of the close.
    After a successful close the key is evicted: a later [getService] on
    the same names does not return the closed instance but a new one.  When
    the close fails the service stays cached.  In no case does it touch the
    connection manager, whose cache keeps the DAO the service closed. *)
Theorem closeService_evicts (env : Env) (w : World) (schema table : string) :
  let key := createServiceKey schema table in
  let out := closeService schema table env w in
  match (services (registry w) !! key : option loc) with
  | None => out = (inr false, w)
  | Some s =>
      let closed := Service.close s env w in
      out.1 = inr (match closed.1 with inr _ => true | inl _ => false end)
      /\ manager out.2 = manager w
      /\ trace out.2 = trace closed.2
      /\ daoHeap out.2 = daoHeap closed.2
      /\ serviceHeap out.2 = serviceHeap closed.2
      /\ match closed.1 with
         | inr _ =>
             services (registry out.2) = base.delete key (services (registry w))
             /\ (s < length (serviceHeap w) ->
                 forall env' s' w',
                   getService schema table env' out.2 = (inr s', w') -> s' <> s)
         | inl _ => registry out.2 = registry w
         end
  end.
Proof.
  cbv zeta.
  destruct (services (registry w) !! createServiceKey schema table : option loc)
    as [s|] eqn:Hk.
  2:{ unfold closeService, bind, get_world. cbv beta iota zeta. by rewrite Hk. }
  set (good := fun (closed out : Result bool * World) =>
    out.1 = inr (match closed.1 with inr _ => true | inl _ => false end)
    /\ manager out.2 = manager w
    /\ trace out.2 = trace closed.2
    /\ daoHeap out.2 = daoHeap closed.2
    /\ serviceHeap out.2 = serviceHeap closed.2
    /\ match closed.1 with
       | inr _ =>
           services (registry out.2)
           = base.delete (createServiceKey schema table) (services (registry w))
           /\ (s < length (serviceHeap w) ->
               forall env' s' w',
                 getService schema table env' out.2 = (inr s', w') -> s' <> s)
       | inl _ => registry out.2 = registry w
       end).
  change (good (Service.close s env w) (closeService schema table env w)).
  unfold closeService. unfold bind at 1, get_world. cbv beta iota zeta.
  rewrite Hk. unfold try_catch. unfold bind at 1.
  pose proof (frame_service_close manager s (fun _ _ => eq_refl)
                (fun _ _ => eq_refl) (fun _ _ _ => eq_refl) env w) as Hm.
  pose proof (frame_service_close registry s (fun _ _ => eq_refl)
                (fun _ _ => eq_refl) (fun _ _ _ => eq_refl) env w) as Hr.
  pose proof (frame_service_close (fun w => length (serviceHeap w)) s
                (fun _ _ => eq_refl) (fun _ _ => eq_refl)
                (fun i o w => length_insert (serviceHeap w) i o) env w) as Hl.
  destruct (Service.close s env w) as [[e|b] w1]; unfold keeps in *;
    cbn [snd] in *.
  { unfold good. cbn. by repeat split. }
  unfold bind, drop_service, modify, ret, good. cbn [fst snd].
  set (key := createServiceKey schema table) in *.
  set (w2 := set_registry _ w1).
  assert (Hs2 : services (registry w2) = base.delete key (services (registry w))).
  { subst w2. cbn. by rewrite Hr. }
  split; [done|]. split; [exact Hm|]. split; [done|]. split; [done|].
  split; [done|]. split; [exact Hs2|].
  intros Hlt env' s' w' Hget Heq. subst s'.
  assert (Hnone : services (registry w2) !! key = None).
  { rewrite Hs2. apply lookup_delete_eq. }
  revert Hget. unfold getService. unfold bind at 1, get_world.
  cbv beta iota zeta. fold key. rewrite Hnone. intros Hget.
  apply createService_fresh in Hget; [|exact Hnone].
  change (length (serviceHeap w2)) with (length (serviceHeap w1)) in Hget. lia.
Qed.

Definition cachedServiceWorld : World :=
  mkWorld [] [connectedCore]
    [mkBaseService "core" "users" (Some 0%nat) true true ["id"]]
    (mkDatabaseManager false 5 {["core" := 0%nat]} true ∅ None [])
    (mkServiceManager {["core:users" := 0%nat]} ∅ false).

(** An engine whose native close fails. *)
Definition closeFailsEnv : Env :=
  mkEnv "/data/documents" ["core"]
    (fun _ _ => inr true) (fun _ _ => None) (fun _ _ _ => None)
    (fun _ _ _ _ => inr []) (fun _ _ => Some (mkError "close failed")).

Lemma closeService_evicts_witness :
  ((closeService "core" "users" healthyEnv cachedServiceWorld).1 = inr true
   /\ services (registry (closeService "core" "users" healthyEnv cachedServiceWorld).2)
      !! "core:users" = None
   /\ connections (manager (closeService "core" "users" healthyEnv cachedServiceWorld).2)
      !! "core" = Some 0)
  /\ ((closeService "core" "users" closeFailsEnv cachedServiceWorld).1 = inr false
      /\ services (registry (closeService "core" "users" closeFailsEnv
                               cachedServiceWorld).2)
         !! "core:users" = Some 0).
Proof.
  split.
  - pose proof (closeService_evicts healthyEnv cachedServiceWorld "core" "users") as H.
    cbv zeta in H.
    change (services (registry cachedServiceWorld) !! createServiceKey "core" "users"
            : option loc) with (Some 0 : option loc) in H.
    cbv beta iota in H. destruct H as (Hok & Hm & _ & _ & _ & H).
    assert (Hclosed : (Service.close 0 healthyEnv cachedServiceWorld).1 = inr true)
      by (vm_compute; reflexivity).
    rewrite Hclosed in Hok, H. destruct H as [Hs _].
    split; [exact Hok|]. split.
    + rewrite Hs. apply lookup_delete_eq.
    + by rewrite Hm.
  - pose proof (closeService_evicts closeFailsEnv cachedServiceWorld "core" "users")
      as H.
    cbv zeta in H.
    change (services (registry cachedServiceWorld) !! createServiceKey "core" "users"
            : option loc) with (Some 0 : option loc) in H.
    cbv beta iota in H. destruct H as (Hok & _ & _ & _ & _ & H).
    assert (Hclosed : (Service.close 0 closeFailsEnv cachedServiceWorld).1
                      = inl (mkError "close failed"))
      by (vm_compute; reflexivity).
    rewrite Hclosed in Hok, H.
    split; [exact Hok|]. by rewrite H.
Defined.

(** X23: [registerService] refuses a configuration without schema name or table
    name and changes nothing.  Otherwise the configuration is stored with
    its defaults filled in, and the service that [createService] then
    creates for these names (no service being cached for them, the class
    being [BaseService], without automatic initialisation) carries the
    registered primary key fields and is cached under the key. *)
Theorem registerService_then_create (env : Env) (w : World) (config : ServiceConfig) :
  let schema := sc_schemaName config in
  let table := sc_tableName config in
  let key := createServiceKey schema table in
  ((schema = EmptyString \/ table = EmptyString) ->
     registerService config env w
     = (inl (mkError "Both schema name and table name are required"), w))
  /\ (schema <> EmptyString -> table <> EmptyString ->
      services (registry w) !! key = None ->
      sc_serviceClass config = None -> sc_autoInit config <> Some true ->
      let w1 := (registerService config env w).2 in
      let s := length (serviceHeap w) in
      exists w2,
        createService schema table env w1 = (inr s, w2)
        /\ serviceHeap w2
           = serviceHeap w
             ++ [mkBaseService schema table None false false
                   (default ["id"] (sc_primaryKeyFields config))]
        /\ services (registry w2) !! key = Some s).
Proof.
  cbv zeta. split.
  - unfold registerService. intros [-> | ->]; [done|].
    by destruct (sc_schemaName config).
  - intros Hschema Htable Hnone Hclass Hauto.
    destruct config as [sn tn pk ai cls]. cbn in Hschema, Htable, Hnone, Hclass, Hauto.
    cbn [sc_schemaName sc_tableName sc_primaryKeyFields]. subst cls.
    destruct sn as [|c1 sn]; [done|]. destruct tn as [|c2 tn]; [done|].
    set (schema := String c1 sn) in *. set (table := String c2 tn) in *.
    assert (Htn : match table with EmptyString => schema | String _ _ => table end
                  = table) by done.
    set (w1 := set_registry
                 (set_serviceConfigs
                    (<[createServiceKey schema table
                       := withDefaults (mkServiceConfig schema table pk ai None)]>
                       (serviceConfigs (registry w)))
                    (registry w)) w).
    assert (Hreg : registerService (mkServiceConfig schema table pk ai None) env w
                   = (inr tt, w1)) by done.
    rewrite Hreg. cbn [snd].
    set (n := length (serviceHeap w)).
    set (fields := default ["id"] pk).
    set (svc0 := mkBaseService schema table None false false ["id"]).
    set (wA := set_serviceHeap (serviceHeap w ++ [svc0]) w1).
    set (wB := set_serviceHeap (serviceHeap w ++ [set_pk fields svc0]) w1).
    assert (Hnew : Service.new BaseServiceClass schema table env w1 = (inr n, wA))
      by done.
    assert (Hpk : setPrimaryKeyFields n fields env wA = (inr tt, wB)).
    { unfold setPrimaryKeyFields, bind, Service.read, Service.write, modify.
      subst wA wB n. cbn [serviceHeap set_serviceHeap].
      change (serviceHeap w1) with (serviceHeap w).
      rewrite lookup_app_r by done. rewrite Nat.sub_diag. cbn [lookup list_lookup].
      cbn [serviceHeap set_serviceHeap].
      rewrite insert_app_r_alt by done. rewrite Nat.sub_diag.
      subst w1. by destruct w. }
    assert (Hnoinit : DAOPure.truthy_flag (Some (default false ai)) = false).
    { destruct ai as [[|]|]; done. }
    exists (set_registry
              (set_services (<[createServiceKey schema table := n]>
                               (services (registry wB))) (registry wB)) wB).
    split; [|split].
    + unfold createService. unfold bind at 1, get_world. cbv beta iota zeta.
      change (services (registry w1)) with (services (registry w)).
      rewrite Hnone.
      assert (Hcfg : serviceConfigs (registry w1) !! createServiceKey schema table
                     = Some (withDefaults (mkServiceConfig schema table pk ai None))).
      { subst w1. cbn. apply lookup_insert_eq. }
      rewrite Hcfg.
      unfold try_catch, withDefaults. cbn [sc_serviceClass sc_primaryKeyFields
        sc_autoInit default from_option id sc_schemaName sc_tableName].
      unfold bind at 1. rewrite Hnew.
      unfold bind at 1. fold fields. rewrite Hpk.
      unfold bind at 1. unfold store_service, modify at 1.
      rewrite Hnoinit. done.
    + done.
    + cbn. apply lookup_insert_eq.
Qed.

Lemma registerService_then_create_witness :
  registerService (mkServiceConfig "" "users" None None None) healthyEnv emptyWorld
  = (inl (mkError "Both schema name and table name are required"), emptyWorld).
Proof.
  apply (registerService_then_create healthyEnv emptyWorld
           (mkServiceConfig "" "users" None None None)).
  by left.
Defined.

Lemma quiet_service_close env w s :
  exists w1,
    try_catch (Service.close s ;;; ret tt) (fun _ => ret tt) env w = (inr tt, w1)
    /\ manager w1 = manager w
    /\ serviceConfigs (registry w1) = serviceConfigs (registry w).
Proof.
  pose proof (frame_service_close manager s (fun _ _ => eq_refl)
                (fun _ _ => eq_refl) (fun _ _ _ => eq_refl) env w) as Hm.
  pose proof (frame_service_close registry s (fun _ _ => eq_refl)
                (fun _ _ => eq_refl) (fun _ _ _ => eq_refl) env w) as Hr.
  unfold try_catch, bind.
  destruct (Service.close s env w) as [[e|b] w1]; unfold keeps in *;
    cbn [snd] in *; exists w1; (split; [done|]); by rewrite Hm, Hr.
Qed.

Lemma quiet_service_close_all (entries : list (string * loc)) env w :
  exists rs w1,
    promise_all entries
      (fun entry => try_catch (Service.close entry.2 ;;; ret tt) (fun _ => ret tt))
      env w = (inr rs, w1)
    /\ manager w1 = manager w
    /\ serviceConfigs (registry w1) = serviceConfigs (registry w).
Proof.
  revert w. induction entries as [|entry entries IH]; intros w; cbn.
  - by exists [], w.
  - destruct (quiet_service_close env w entry.2) as (w1 & -> & Hm1 & Hc1).
    destruct (IH w1) as (rs & w2 & -> & Hm2 & Hc2).
    exists (tt :: rs), w2. split; [done|]. by rewrite Hm2, Hc2.
Qed.

(** X24: [closeAllServices] never throws, whatever the closes do; afterwards no
    service is cached and the registry is not initialised, the registered
    configurations stay, and the connection manager is as it was: the DAOs
    the services closed are still in its cache. *)
Theorem closeAllServices_clears (entries : gmap string loc -> list (string * loc))
    (env : Env) (w : World) :
  let out := closeAllServices entries env w in
  out.1 = inr tt
  /\ registry out.2 = mkServiceManager ∅ (serviceConfigs (registry w)) false
  /\ manager out.2 = manager w.
Proof.
  cbv zeta.
  assert (Heq : exists w1,
    closeAllServices entries env w
    = (inr tt, set_registry (mkServiceManager ∅ (serviceConfigs (registry w1)) false) w1)
    /\ manager w1 = manager w
    /\ serviceConfigs (registry w1) = serviceConfigs (registry w)).
  { unfold closeAllServices. unfold bind at 1, get_world. unfold bind at 1.
    destruct (quiet_service_close_all (entries (services (registry w))) env w)
      as (rs & w1 & -> & Hm & Hc).
    by exists w1. }
  destruct Heq as (w1 & -> & Hm & Hc). cbn. by rewrite Hm, Hc.
Qed.

End ServiceRegistry.

(** * Opening an existing database *)
Section OpenExisting.
Import DAO Factory.

(** The file name [openExisting] gives the DAO. *)
Definition dbFileNameOf (name : string) : string :=
  if endsWith name ".db" then name else name +:+ ".db".

Definition freshDao (file : string) : SQLiteDAO :=
  mkDAO None false true file false None.

Lemma lookup_fresh (heap : list SQLiteDAO) o : (heap ++ [o]) !! length heap = Some o.
Proof. rewrite lookup_app_r by done. by rewrite Nat.sub_diag. Qed.

Lemma insert_fresh (heap : list SQLiteDAO) o o' :
  <[length heap := o']> (heap ++ [o]) = heap ++ [o'].
Proof. rewrite insert_app_r_alt by done. by rewrite Nat.sub_diag. Qed.

(** The guarded part of [openExisting], run on the DAO just allocated. *)
Lemma connect_and_check env wX file :
  let n : loc := length (daoHeap wX) in
  let put o tr := set_daoHeap (daoHeap wX ++ [o]) (set_trace tr wX) in
  let t1 := trace wX ++ [EvOpenDatabase n file] in
  let t2 := t1 ++ [EvExecuteSql n "PRAGMA integrity_check" []] in
  try_catch
    (connect n ;;; runSql n "PRAGMA integrity_check" [] ;;; ret n)
    (fun error => close n ;;; throw error)
    env (set_daoHeap (daoHeap wX ++ [freshDao file]) wX)
  = match sqlite_openDatabase env (trace wX) n file with
    | Some e => (inl e, put (freshDao file) t1)
    | None =>
        match db_executeSql env t1 n "PRAGMA integrity_check" [] with
        | inr _ => (inr n, put (set_db (Some nativeHandle) true (freshDao file)) t2)
        | inl e =>
            match db_close env t2 n with
            | None => (inl e, put (freshDao file) (t2 ++ [EvCloseDatabase n]))
            | Some e' =>
                (inl e', put (set_db (Some nativeHandle) true (freshDao file))
                           (t2 ++ [EvCloseDatabase n]))
            end
        end
    end.
Proof.
  cbv zeta. set (n := length (daoHeap wX) : loc).
  set (wN := set_daoHeap (daoHeap wX ++ [freshDao file]) wX).
  assert (HdN : daoHeap wN !! n = Some (freshDao file)) by apply lookup_fresh.
  unfold try_catch. unfold bind at 1.
  rewrite (connect_closed env wN n (freshDao file) HdN eq_refl).
  change (dbName (freshDao file)) with file. change (trace wN) with (trace wX).
  destruct (sqlite_openDatabase env (trace wX) n file) as [e|].
  { unfold bind.
    set (w1 := set_daoHeap _ _).
    assert (Hd1 : daoHeap w1 !! n = Some (freshDao file)).
    { subst w1 wN n. cbn. rewrite insert_fresh. apply lookup_fresh. }
    rewrite (close_disconnected env w1 n (freshDao file) Hd1 eq_refl).
    cbn [throw]. subst w1 wN n. cbn. rewrite insert_fresh. by destruct wX. }
  set (oc := set_db (Some nativeHandle) true (freshDao file)).
  set (w1 := set_daoHeap _ _).
  assert (Hw1 : w1 = set_daoHeap (daoHeap wX ++ [oc])
                       (set_trace (trace wX ++ [EvOpenDatabase n file]) wX)).
  { subst w1 wN n. cbn. rewrite insert_fresh. by destruct wX. }
  rewrite Hw1. clear w1 Hw1.
  set (w1 := set_daoHeap _ _).
  assert (Hd1 : daoHeap w1 !! n = Some oc) by apply lookup_fresh.
  unfold bind at 1.
  rewrite (runSql_connected env w1 n oc _ _ Hd1 eq_refl).
  change (trace w1) with (trace wX ++ [EvOpenDatabase n file]).
  destruct (db_executeSql env (trace wX ++ [EvOpenDatabase n file]) n
              "PRAGMA integrity_check" []) as [e|rows].
  2:{ cbn. by destruct wX. }
  unfold bind.
  set (w2 := set_trace _ w1).
  assert (Hd2 : daoHeap w2 !! n = Some oc) by apply lookup_fresh.
  rewrite (close_connected env w2 n oc Hd2 eq_refl).
  change (trace w2)
    with ((trace wX ++ [EvOpenDatabase n file])
            ++ [EvExecuteSql n "PRAGMA integrity_check" []]).
  destruct (db_close env _ n) as [e'|].
  - subst w2 w1 n. cbn. by destruct wX.
  - subst w2 w1 n. cbn. rewrite insert_fresh. by destruct wX.
Qed.

(** X25: What [openExisting] leaves behind.  When it succeeds, the DAO it
    returns is a new object, connected, named after the database with the
    [.db] suffix added unless the name has it, and it has passed the
    integrity check.  When it fails, either no DAO was created (the
    directory or the file check failed), or the one created is not
    connected; the only exception is a native close that failed, and then
    the error thrown is that of the close. *)
Theorem openExisting_handle (env : Env) (w : World) (name : string) :
  let out := openExisting name env w in
  let n := length (daoHeap w) in
  match out.1 with
  | inr d =>
      d = n
      /\ daoHeap out.2
         = daoHeap w ++ [mkDAO (Some nativeHandle) true true (dbFileNameOf name)
                           false None]
      /\ exists t,
           trace out.2
           = trace w ++ t ++ [EvOpenDatabase n (dbFileNameOf name);
                              EvExecuteSql n "PRAGMA integrity_check" []]
  | inl e =>
      daoHeap out.2 = daoHeap w
      \/ exists o,
           daoHeap out.2 = daoHeap w ++ [o]
           /\ dbName o = dbFileNameOf name
           /\ (isConnected o = true -> exists tr, db_close env tr n = Some e)
  end.
Proof.
  cbv zeta.
  set (good := fun out : Result loc * World =>
    match out.1 with
    | inr d =>
        d = length (daoHeap w)
        /\ daoHeap out.2
           = daoHeap w ++ [mkDAO (Some nativeHandle) true true (dbFileNameOf name)
                             false None]
        /\ exists t,
             trace out.2
             = trace w ++ t ++ [EvOpenDatabase (length (daoHeap w)) (dbFileNameOf name);
                                EvExecuteSql (length (daoHeap w))
                                  "PRAGMA integrity_check" []]
    | inl e =>
        daoHeap out.2 = daoHeap w
        \/ exists o,
             daoHeap out.2 = daoHeap w ++ [o]
             /\ dbName o = dbFileNameOf name
             /\ (isConnected o = true ->
                 exists tr, db_close env tr (length (daoHeap w)) = Some e)
    end).
  change (good (openExisting name env w)).
  assert (Htail : forall wX t,
    daoHeap wX = daoHeap w -> trace wX = trace w ++ t ->
    good ((w0 <- get_world ;;
           fileExists <- native_result
                           (rnfs_exists env (trace w0)
                              (DocumentDirectoryPath env +:+ "/../databases/"
                               +:+ dbFileNameOf name)) ;;
           if negb fileExists
           then throw (mkError ("Database file does not exist at: "
                                +:+ (DocumentDirectoryPath env +:+ "/../databases/"
                                     +:+ dbFileNameOf name)))
           else
             d <- DAO.new (dbFileNameOf name) true ;;
             try_catch
               (connect d ;;; runSql d "PRAGMA integrity_check" [] ;;; ret d)
               (fun error => close d ;;; throw error)) env wX)).
  { intros wX t Hheap Htrace. unfold bind at 1, get_world. unfold bind at 1.
    destruct (rnfs_exists env (trace wX) _) as [e|[|]]; unfold native_result.
    - unfold good. cbn. by left.
    - change (ret true env wX) with (@inr Error bool true, wX).
      cbv beta iota. cbn [negb].
      unfold bind at 1, DAO.new. cbv beta iota.
      pose proof (connect_and_check env wX (dbFileNameOf name)) as Hrun.
      cbv zeta in Hrun. unfold freshDao in Hrun at 1. rewrite Hrun. clear Hrun.
      rewrite Hheap, Htrace.
      destruct (sqlite_openDatabase env _ _ _) as [e|].
      { unfold good. cbn. right. eexists. split; [done|]. by split. }
      destruct (db_executeSql env _ _ _ _) as [e|rows].
      + destruct (db_close env _ _) as [e'|] eqn:Hclose.
        * unfold good. cbn. right. eexists. split; [done|].
          split; [done|]. intros _. eexists. exact Hclose.
        * unfold good. cbn. right. eexists. split; [done|]. by split.
      + unfold good. cbn. split; [done|]. split; [done|].
        exists t. by rewrite <- !app_assoc.
    - unfold good. cbn. by left. }
  unfold openExisting. unfold bind at 1, ask. unfold bind at 1, get_world.
  unfold bind at 1.
  destruct (rnfs_exists env (trace w) (DocumentDirectoryPath env)) as [e|[|]];
    cbn [native_result].
  - unfold good. cbn. by left.
  - unfold bind at 1. cbn [ret]. apply (Htail w []); [done | by rewrite app_nil_r].
  - unfold bind at 1. unfold bind at 1, emit_event, modify.
    destruct (rnfs_mkdir env (trace w) (DocumentDirectoryPath env)) as [e|];
      cbn [native_unit throw ret].
    + unfold good. cbn. by left.
    + by apply (Htail _ [EvMkdir (DocumentDirectoryPath env)]).
Qed.

End OpenExisting.

(** * Creating a database from a configuration *)
Section CreateFromConfig.
Import DAO Schema FactoryCreate.

Lemma schemaRun_error env w (d : loc) o schema e w' :
  d < length (daoHeap w) -> isConnected o = true ->
  schemaRun env w d o schema = (inl e, w') ->
  exists o', daoHeap w' !! d = Some o' /\ isConnected o' = true.
Proof.
  intros Hlt Hc. unfold schemaRun.
  assert (Hc1 : isConnected (withMapping schema o) = true).
  { unfold withMapping. by destruct (type_mapping schema). }
  destruct (db_executeSql env (trace w) d _ []) as [e1|r1].
  { intros [= <- <-]. eexists. split; [by apply list_lookup_insert_eq | done]. }
  destruct (db_executeSql env _ d "BEGIN TRANSACTION" []) as [e2|r2].
  { intros [= <- <-]. eexists. split; [by apply list_lookup_insert_eq | done]. }
  destruct (attempt env d _ _) as [[e3|] t3]; [|done].
  destruct (db_executeSql env t3 d "ROLLBACK" []) as [e4|r4];
    intros [= <- <-]; eexists; (split; [by apply list_lookup_insert_eq | done]).
Qed.

(** X26: [createFromConfig]: a schema without database name or without tables
    is refused before anything happens.  With the directory in place and
    native collaborators that accept every call, the DAO returned is a new
    object, connected and outside a transaction, and the native calls are
    the open followed by the script of the schema.  When the database opens
    and the native close is accepted, a failed creation leaves the new DAO
    disconnected, the close being the last native call. *)
Theorem createFromConfig_outcome (env : Env) (w : World)
    (schema : DatabaseSchemaWithTypeMapping) :
  let out := createFromConfig schema env w in
  let n := length (daoHeap w) in
  let file := dbFileNameOf (database_name schema) in
  let opened := mkDAO (Some nativeHandle) true true file false None in
  ((trim (database_name schema) = EmptyString \/ schemas schema = []) ->
     exists e, out = (inl e, w))
  /\ (trim (database_name schema) <> EmptyString -> schemas schema <> [] ->
      rnfs_exists env (trace w) (DocumentDirectoryPath env) = inr true ->
      sqlite_openDatabase env (trace w) n file = None ->
      (accepting env n ->
         out.1 = inr n
         /\ trace out.2
            = trace w ++ EvOpenDatabase n file :: map (stmt n) (schemaScript opened schema)
         /\ daoHeap out.2 = daoHeap w ++ [withMapping schema opened])
      /\ ((forall tr, db_close env tr n = None) ->
          forall e, out.1 = inl e ->
            exists o t,
              daoHeap out.2 = daoHeap w ++ [o] /\ isConnected o = false
              /\ trace out.2 = trace w ++ t ++ [EvCloseDatabase n])).
Proof.
  cbv zeta. split.
  - intros Hbad. unfold createFromConfig, bind, validateSchema.
    destruct Hbad as [-> | Hs]; [by eexists|].
    destruct (trim (database_name schema)); [by eexists|]. rewrite Hs. by eexists.
  - intros Hname Htables Hdir Hopen.
    set (n := length (daoHeap w) : loc) in *.
    set (file := dbFileNameOf (database_name schema)) in *.
    set (opened := mkDAO (Some nativeHandle) true true file false None).
    set (w1 := set_daoHeap (daoHeap w ++ [opened])
                 (set_trace (trace w ++ [EvOpenDatabase n file]) w)).
    assert (Hd1 : daoHeap w1 !! n = Some opened) by apply lookup_fresh.
    assert (Hlt1 : n < length (daoHeap w1)).
    { subst w1 n. cbn. rewrite length_app. cbn. lia. }
    assert (Heq : createFromConfig schema env w
      = match schemaRun env w1 n opened schema with
        | (inr _, w2) => (inr n, w2)
        | (inl e, w2) =>
            ((o <- DAO.read n ;;
              (if isConnected o then close n else ret tt) ;;;
              throw (A:=loc) e) env w2)
        end).
    { unfold createFromConfig. unfold bind at 1, validateSchema.
      destruct (trim (database_name schema)) as [|c0 s0]; [done|].
      destruct (schemas schema) as [|t0 ts]; [done|]. cbn [ret].
      unfold bind at 1, ask. unfold bind at 1, get_world. unfold bind at 1.
      rewrite Hdir. cbn [native_result ret]. unfold bind at 1. cbn [ret].
      unfold bind at 1, DAO.new. cbv beta iota. fold n.
      unfold try_catch. unfold bind at 1.
      set (wN := set_daoHeap (daoHeap w ++ [freshDao file]) w).
      assert (HdN : daoHeap wN !! n = Some (freshDao file)) by apply lookup_fresh.
      change (set_daoHeap _ w) with wN.
      rewrite (connect_closed env wN n (freshDao file) HdN eq_refl).
      change (dbName (freshDao file)) with file. change (trace wN) with (trace w).
      rewrite Hopen.
      assert (Hw1 : set_daoHeap
                      (<[n := set_db (Some nativeHandle) true (freshDao file)]>
                         (daoHeap wN))
                      (set_trace (trace w ++ [EvOpenDatabase n file]) wN) = w1).
      { subst w1 wN n. cbn. rewrite insert_fresh. by destruct w. }
      rewrite Hw1. unfold bind at 1.
      rewrite (initializeFromSchema_run env w1 n opened schema Hd1 eq_refl eq_refl).
      by destruct (schemaRun env w1 n opened schema) as [[e|[]] w2]. }
    rewrite Heq. clear Heq. split.
    + intros Hacc. unfold schemaRun.
      destruct (Hacc (trace w1) "PRAGMA foreign_keys = ON" []) as [r1 ->].
      destruct (Hacc (trace w1 ++ [stmt n "PRAGMA foreign_keys = ON"])
                  "BEGIN TRANSACTION" []) as [r2 ->].
      rewrite (attempt_accepting env n _ _ Hacc). cbn [fst snd].
      split; [done|]. split.
      * unfold schemaScript, pragmaOn. subst w1. cbn.
        rewrite <- !app_assoc. done.
      * subst w1 n. cbn. by rewrite insert_fresh.
    + intros Hclose e.
      destruct (schemaRun env w1 n opened schema) as [[e1|[]] w2] eqn:Hrun;
        [|done].
      destruct (schemaRun_error env w1 n opened schema e1 w2 Hlt1 eq_refl Hrun)
        as (o' & Ho' & Hc').
      assert (Hshape : exists t,
        daoHeap w2 = daoHeap w ++ [o']
        /\ trace w2 = trace w ++ t).
      { revert Hrun Ho'. unfold schemaRun.
        destruct (db_executeSql env (trace w1) n _ []) as [e2|r2].
        { intros [= <- <-] Ho'. eexists. subst w1 n. cbn in *.
          rewrite insert_fresh in *. rewrite lookup_fresh in Ho'.
          injection Ho' as <-. split; [done|]. by rewrite <- app_assoc. }
        destruct (db_executeSql env _ n "BEGIN TRANSACTION" []) as [e3|r3].
        { intros [= <- <-] Ho'. eexists. subst w1 n. cbn in *.
          rewrite insert_fresh in *. rewrite lookup_fresh in Ho'.
          injection Ho' as <-. split; [done|]. by rewrite <- !app_assoc. }
        pose proof (attempt_trace env n
                      ((trace w1 ++ [stmt n "PRAGMA foreign_keys = ON"])
                         ++ [stmt n "BEGIN TRANSACTION"])
                      (schemaStatements (typeMappingConfig (withMapping schema opened))
                         schema ++ ["COMMIT"])) as Hat.
        destruct (attempt env n _ _) as [[e4|] t4]; [|done].
        destruct Hat as (k & sql & _ & -> & _).
        destruct (db_executeSql env _ n "ROLLBACK" []) as [e5|r5];
          intros [= <- <-] Ho'; eexists; subst w1 n; cbn in *;
          rewrite insert_fresh in *; rewrite lookup_fresh in Ho';
          injection Ho' as <-; (split; [done|]); by rewrite <- !app_assoc. }
      destruct Hshape as (t & Hheap & Htrace).
      assert (Hh :
        (o <- DAO.read n ;;
         (if isConnected o then close n else ret tt) ;;;
         throw (A:=loc) e1) env w2
        = (inl e1,
           set_daoHeap (<[n := set_db None false o']> (daoHeap w2))
             (set_trace (trace w2 ++ [EvCloseDatabase n]) w2))).
      { unfold bind at 1, DAO.read. cbv beta iota. rewrite Ho'. cbv beta iota.
        rewrite Hc'. unfold bind at 1.
        by rewrite (close_connected env w2 n o' Ho' Hc'), Hclose. }
      rewrite Hh. cbn [fst snd]. intros [= <-].
      exists (set_db None false o'), t.
      cbn [daoHeap trace set_daoHeap set_trace]. rewrite Hheap, Htrace.
      subst n. rewrite insert_fresh. split; [done|]. split; [done|].
      by rewrite <- app_assoc.
Qed.

Lemma createFromConfig_outcome_witness :
  (createFromConfig usersSchema healthyEnv emptyWorld).1 = inr 0
  /\ trace (createFromConfig usersSchema healthyEnv emptyWorld).2
     = EvOpenDatabase 0 "core.db"
       :: map (stmt 0)
            ["PRAGMA foreign_keys = ON";
             "BEGIN TRANSACTION";
             "CREATE TABLE IF NOT EXISTS users (id INTEGER PRIMARY KEY AUTOINCREMENT, name TEXT NOT NULL)";
             "CREATE UNIQUE INDEX IF NOT EXISTS idx_users_name ON users (name)";
             "COMMIT"].
Proof.
  destruct (createFromConfig_outcome healthyEnv emptyWorld usersSchema) as [_ H].
  destruct H as [H _].
  - intros E. vm_compute in E. discriminate.
  - intros E. discriminate.
  - reflexivity.
  - reflexivity.
  - destruct (H (healthyEnv_accepting 0)) as (H1 & H2 & _).
    split; [exact H1 | exact H2].
Defined.

End CreateFromConfig.

(** ** Reopening the connections *)
Section Reopen.
Import Manager.

(** The core phase: a cached core connection is left alone; otherwise one
    DAO is allocated, opened, checked and cached under ["core"]. *)
Lemma initializeCoreConnection_opens n K env w :
  "core" ∈ K -> n <= length (daoHeap w) ->
  let out := ManagerLifecycle.initializeCoreConnection env w in
  opens n K w out.2
  /\ (out.1 = inr tt -> is_Some (connections (manager out.2) !! "core")).
Proof.
  intros HK Hn. cbv zeta.
  set (good := fun out : Result unit * World =>
         opens n K w out.2
         /\ (out.1 = inr tt -> is_Some (connections (manager out.2) !! "core"))).
  change (good (ManagerLifecycle.initializeCoreConnection env w)).
  unfold ManagerLifecycle.initializeCoreConnection, bind at 1, get_world.
  destruct (connections (manager w) !! "core") as [d0|] eqn:Hk.
  { split; [apply opens_refl|]. intros _. by exists d0. }
  unfold try_catch.
  set (body := bind ask _).
  assert (Hbody : good (body env w)).
  { unfold body, bind at 1, ask. unfold bind at 1.
    destruct (includes (schemaConfigurations env) "core");
      [|split; [apply opens_refl|done]].
    cbn [ret]. unfold bind at 1.
    destruct (openExisting_opens n K "core" env w Hn) as (H1 & Hm1 & Hd1).
    destruct (Factory.openExisting "core" env w) as [[e|d] w1]; cbn [fst snd] in *;
      [done|].
    destruct (Hd1 d eq_refl) as [Hd1' _].
    assert (n <= d) as Hnd by lia.
    unfold bind at 1.
    pose proof (dao_step_runSql d "PRAGMA integrity_check" [] env w1) as Hrun.
    destruct (DAO.runSql d "PRAGMA integrity_check" [] env w1) as [[e|r] w2];
      cbn [fst snd] in *.
    - split; [|done]. eapply opens_trans; [exact H1|]. by eapply dao_step_opens.
    - unfold store_connection, modify. split; cbn [fst snd].
      + apply store_opens; try done.
        * eapply opens_trans; [exact H1|]. by eapply dao_step_opens.
        * rewrite (keeps_manager_dao_step _ _ _ _ Hrun). exact Hm1.
      + intros _. cbn. rewrite lookup_insert_eq. by eexists. }
  destruct (body env w) as [[e|[]] w1]; [|done].
  destruct Hbody as [Hopen _]. by split.
Qed.

Lemma initTask_cached k env w :
  is_Some (connections (manager w) !! k) -> initTask k env w = (inr [], w).
Proof. intros [d Hd]. unfold initTask, bind, get_world. by rewrite Hd. Qed.

Lemma promise_all_initTask_cached ks env w :
  (forall k, k ∈ ks -> is_Some (connections (manager w) !! k)) ->
  promise_all ks initTask env w = (inr (map (fun _ => []) ks), w).
Proof.
  induction ks as [|k ks IH]; intros Hall; [done|].
  cbn [promise_all map]. rewrite initTask_cached by apply Hall, list_elem_of_here.
  rewrite IH; [done|]. intros k' Hk'. by apply Hall, list_elem_of_further.
Qed.

Lemma concat_nils {A B} (ks : list A) : concat (map (fun _ => @nil B) ks) = [].
Proof. by induction ks. Qed.

(** X29: [reopenConnections] only opens, the names of the current roles and
    of their databases not being names of members of [Object.prototype].
    Whatever its outcome, a handle cached before is still cached under its
    key, a DAO that existed before is not changed and no native call is
    made on one, and a handle it adds is a newly allocated DAO under the key
    of a database of the current roles (the core database is always one).
    When it succeeds the core database and every database a current role
    lists as required have a cached handle.  It never reopens: when every
    database of the current roles has a cached handle, closed or not, the
    call does nothing at all.  When the core database is not cached and has
    no schema configuration, it fails before anything is done, the role
    databases included. *)
Theorem reopenConnections_only_opens (env : Env) (w : World) :
  plainNames (currentUserRoles (manager w)) ->
  plainNames (getCurrentUserDatabases (manager w)) ->
  let out := ManagerLifecycle.reopenConnections env w in
  opens (length (daoHeap w)) (getCurrentUserDatabases (manager w)) w out.2
  /\ (out.1 = inr tt ->
      is_Some (connections (manager out.2) !! "core")
      /\ forall k,
           requiredBy (roleRegistry (manager w)) (currentUserRoles (manager w)) k ->
           is_Some (connections (manager out.2) !! k))
  /\ ((forall k, k ∈ getCurrentUserDatabases (manager w) ->
         is_Some (connections (manager w) !! k)) ->
      out = (inr tt, w))
  /\ (connections (manager w) !! "core" = None ->
      includes (schemaConfigurations env) "core" = false ->
      out = (inl ManagerLifecycle.coreSchemaMissing, w)).
Proof.
  intros _ _. cbv zeta.
  set (n := length (daoHeap w)).
  set (K := getCurrentUserDatabases (manager w)).
  assert (HK : "core" ∈ K) by apply core_always_wanted.
  set (good := fun out : Result unit * World =>
         opens n K w out.2
         /\ (out.1 = inr tt ->
             is_Some (connections (manager out.2) !! "core")
             /\ forall k,
                  requiredBy (roleRegistry (manager w))
                    (currentUserRoles (manager w)) k ->
                  is_Some (connections (manager out.2) !! k))).
  assert (Hgood : good (ManagerLifecycle.reopenConnections env w)).
  { unfold ManagerLifecycle.reopenConnections. unfold bind at 1.
    destruct (initializeCoreConnection_opens n K env w HK (le_n _)) as [H1 Hcore].
    destruct (ManagerLifecycle.initializeCoreConnection env w) as [[e|[]] w1];
      cbn [fst snd] in *; [by split|].
    specialize (Hcore eq_refl). unfold bind at 1, get_world.
    destruct (currentUserRoles (manager w1)) as [|r rs] eqn:Hroles.
    - split; [done|]. intros _. split; [done|].
      intros k (role & rc & Hin & _).
      rewrite <- (op_roles _ _ _ _ H1), Hroles in Hin. by apply elem_of_nil in Hin.
    - destruct (initializeUserRoleConnections_result n env w1) as
        (r2 & w2 & -> & H2 & Hreq).
      { destruct H1. unfold n. lia. }
      assert (HK1 : getCurrentUserDatabases (manager w1) = K).
      { unfold K, getCurrentUserDatabases.
        by rewrite (op_roleRegistry _ _ _ _ H1), (op_roles _ _ _ _ H1). }
      rewrite HK1 in H2. split; cbn [fst snd].
      + by eapply opens_trans.
      + intros ->. split.
        * destruct Hcore as [d Hd]. exists d. by apply (op_old _ _ _ _ H2).
        * intros k Hk. apply (Hreq eq_refl).
          by rewrite (op_roleRegistry _ _ _ _ H1), (op_roles _ _ _ _ H1). }
  destruct Hgood as [Hopen Hok]. split; [exact Hopen|]. split; [exact Hok|].
  split.
  - intros Hall.
    unfold ManagerLifecycle.reopenConnections, bind at 1.
    unfold ManagerLifecycle.initializeCoreConnection, bind at 1, get_world.
    destruct (Hall "core" HK) as [d0 Hd0]. rewrite Hd0.
    unfold ret at 1. unfold bind at 1.
    destruct (currentUserRoles (manager w)) as [|r rs] eqn:Hroles; [done|].
    unfold initializeUserRoleConnections, bind at 1, get_world.
    unfold bind at 1. fold K.
    rewrite (promise_all_initTask_cached K env w Hall).
    by rewrite concat_nils.
  - intros Hnone Hcfg.
    unfold ManagerLifecycle.reopenConnections, bind at 1.
    unfold ManagerLifecycle.initializeCoreConnection, bind at 1, get_world.
    rewrite Hnone. unfold try_catch, bind at 1, ask. unfold bind at 1.
    by rewrite Hcfg.
Qed.

(** The core DAO is cached but closed: the call leaves it closed and makes
    no native call. *)
Definition closedCoreWorld : World :=
  mkWorld [] [mkDAO None false true "core.db" false None] []
    (mkDatabaseManager false 5 {["core" := 0%nat]} true ∅ None [])
    emptyRegistry.

Lemma reopenConnections_only_opens_witness :
  ManagerLifecycle.reopenConnections healthyEnv closedCoreWorld
  = (inr tt, closedCoreWorld).
Proof.
  refine (proj1 (proj2 (proj2
            (reopenConnections_only_opens healthyEnv closedCoreWorld _ _))) _).
  - intros r Hr. by apply elem_of_nil in Hr.
  - intros k Hk. cbn in Hk. apply list_elem_of_singleton in Hk as ->.
    apply (bool_decide_unpack _). vm_compute. exact I.
  - intros k Hk. cbn in Hk. apply list_elem_of_singleton in Hk as ->.
    vm_compute. by eexists.
Defined.

End Reopen.
